(** * The restore engine of etcd-backup-restore, embedded in Rocq

    Shallow embedding of [pkg/types/restorer.go] (package [types]) and of
    the restorer proper (package [restorer]).

    - Go [int], [int64] and [uint] values are integers in [Z]; byte slices
      are [list byte]; Go strings are [string]; [float64] is the IEEE 754
      binary64 format of the Standard Library.
    - A function that returns [error] returns [option error] ([None] is
      Go's [nil]); a function that returns [(T, error)] returns
      [error + T].
    - The etcd clients, the snapshot store, the file system and the other
      collaborators are functions on an abstract state of the outside
      world; every call to them, every send on a channel and the log line
      that announces a delta is appended to a trace, and the properties are
      stated on that trace.  The other calls to the logger are left out,
      and so are contexts, timeouts and the wait group.
    - A goroutine is a function of what its channels deliver to it, in the
      order it takes it.  Sends are observations; they do not block.
    - A Go panic (index out of range, nil dereference) is an outcome of its
      own.  The pointers inside a decoded event are taken to be non-nil. *)

From Stdlib Require Import ZArith List String Ascii Bool Lia.
From Stdlib Require Import Floats.SpecFloat.
From stdpp Require Import base list.
Import ListNotations.

Local Open Scope string_scope.
Local Open Scope list_scope.
Local Open Scope Z_scope.

(** Go's [byte]. *)
Abbreviation byte := Byte.byte.

(* ================================================================= *)
(** ** Package [types]: the restoration configuration *)

Module Types.

(** [RestorationConfig] (restorer.go, package types). *)
Record RestorationConfig : Type := mkRestorationConfig {
  InitialCluster : string;
  InitialClusterToken : string;
  DataDir : string;
  TempSnapshotsDir : string;
  Name : string;
  AutoCompactionRetention : string;
  AutoCompactionMode : string;
  InitialAdvertisePeerURLs : list string;
  MaxTxnOps : Z;               (* uint *)
  MaxRequestBytes : Z;         (* uint *)
  MaxCallSendMsgSize : Z;      (* int *)
  EmbeddedEtcdQuotaBytes : Z;  (* int64 *)
  MaxFetchers : Z;             (* uint *)
  SkipHashCheck : bool
}.

(** The errors [Validate] builds with [fmt.Errorf]. *)
Inductive ValidateError : Type :=
| ErrURLMap (cause : string)
| ErrPeerURLs (cause : string)
| ErrMaxCallSendMsgSize
| ErrMaxFetchers
| ErrQuota
| ErrAutoCompactionMode.

(** [types.NewURLsMap] and [types.NewURLs] of etcd and [path.Clean] of
    the Go library: only the error of the first two is used. *)
Class UrlLib : Type := {
  NewURLsMap : string -> option string;
  NewURLs : list string -> option string;
  path_Clean : string -> string
}.

Section Validate.

Context {L : UrlLib}.

(** [func (c *RestorationConfig) Validate() error]: the receiver is a
    pointer, so the configuration after the call is returned with the
    error. *)
Definition Validate (c : RestorationConfig)
  : RestorationConfig * option ValidateError :=
  match NewURLsMap (InitialCluster c) with
  | Some err => (c, Some (ErrURLMap err))
  | None =>
  match NewURLs (InitialAdvertisePeerURLs c) with
  | Some err => (c, Some (ErrPeerURLs err))
  | None =>
  if MaxCallSendMsgSize c <=? 0 then (c, Some ErrMaxCallSendMsgSize)
  else if MaxFetchers c <=? 0 then (c, Some ErrMaxFetchers)
  else if EmbeddedEtcdQuotaBytes c <=? 0 then (c, Some ErrQuota)
  else if negb (String.eqb (AutoCompactionMode c) "periodic")
          && negb (String.eqb (AutoCompactionMode c) "revision")
  then (c, Some ErrAutoCompactionMode)
  else
    let c1 :=
      mkRestorationConfig
        (InitialCluster c) (InitialClusterToken c)
        (path_Clean (DataDir c)) (TempSnapshotsDir c)
        (Name c) (AutoCompactionRetention c) (AutoCompactionMode c)
        (InitialAdvertisePeerURLs c) (MaxTxnOps c) (MaxRequestBytes c)
        (MaxCallSendMsgSize c) (EmbeddedEtcdQuotaBytes c)
        (MaxFetchers c) (SkipHashCheck c) in
    let c2 :=
      mkRestorationConfig
        (InitialCluster c1) (InitialClusterToken c1)
        (DataDir c1) (path_Clean (TempSnapshotsDir c1))
        (Name c1) (AutoCompactionRetention c1) (AutoCompactionMode c1)
        (InitialAdvertisePeerURLs c1) (MaxTxnOps c1) (MaxRequestBytes c1)
        (MaxCallSendMsgSize c1) (EmbeddedEtcdQuotaBytes c1)
        (MaxFetchers c1) (SkipHashCheck c1) in
    (c2, None)
  end end.

(** Every field but [DataDir] and [TempSnapshotsDir] agrees. *)
Definition same_other_fields (c c' : RestorationConfig) : Prop :=
  InitialCluster c' = InitialCluster c /\
  InitialClusterToken c' = InitialClusterToken c /\
  Name c' = Name c /\
  AutoCompactionRetention c' = AutoCompactionRetention c /\
  AutoCompactionMode c' = AutoCompactionMode c /\
  InitialAdvertisePeerURLs c' = InitialAdvertisePeerURLs c /\
  MaxTxnOps c' = MaxTxnOps c /\
  MaxRequestBytes c' = MaxRequestBytes c /\
  MaxCallSendMsgSize c' = MaxCallSendMsgSize c /\
  EmbeddedEtcdQuotaBytes c' = EmbeddedEtcdQuotaBytes c /\
  MaxFetchers c' = MaxFetchers c /\
  SkipHashCheck c' = SkipHashCheck c.

End Validate.

(** The defaults of the package. *)
Definition defaultName : string := "default".
Definition defaultInitialAdvertisePeerURLs : string := "http://localhost:2380".
Definition defaultInitialClusterToken : string := "etcd-cluster".
Definition defaultMaxFetchers : Z := 6.
Definition defaultMaxCallSendMsgSize : Z := 10 * 1024 * 1024.
Definition defaultMaxRequestBytes : Z := 10 * 1024 * 1024.
Definition defaultMaxTxnOps : Z := 10 * 1024.
Definition defaultEmbeddedEtcdQuotaBytes : Z := 8 * 1024 * 1024 * 1024.
Definition defaultAutoCompactionMode : string := "periodic".
Definition defaultAutoCompactionRetention : string := "30m".

(** [initialClusterFromName]; [fmt.Sprintf] with one [%s] and a fixed tail
    is concatenation. *)
Definition initialClusterFromName (name : string) : string :=
  let n := if String.eqb name "" then defaultName else name in
  (n ++ "=http://localhost:2380")%string.

(** [NewRestorationConfig]. *)
Definition NewRestorationConfig : RestorationConfig := {|
  InitialCluster := initialClusterFromName defaultName;
  InitialClusterToken := defaultInitialClusterToken;
  DataDir := (defaultName ++ ".etcd")%string;
  TempSnapshotsDir := (defaultName ++ ".restoration.tmp")%string;
  InitialAdvertisePeerURLs := [defaultInitialAdvertisePeerURLs];
  Name := defaultName;
  SkipHashCheck := false;
  MaxFetchers := defaultMaxFetchers;
  MaxCallSendMsgSize := defaultMaxCallSendMsgSize;
  MaxRequestBytes := defaultMaxRequestBytes;
  MaxTxnOps := defaultMaxTxnOps;
  EmbeddedEtcdQuotaBytes := defaultEmbeddedEtcdQuotaBytes;
  AutoCompactionMode := defaultAutoCompactionMode;
  AutoCompactionRetention := defaultAutoCompactionRetention
|}.

(** [func (i *InitIndex) ConsistentIndex() uint64]: the conversion of an
    [int] to [uint64] keeps the bits, so it wraps around [2^64]. *)
Definition ConsistentIndex (i : Z) : Z := i mod 2 ^ 64.

End Types.


(* ================================================================= *)
(** ** Package [restorer]: data *)

Module Restorer.

(** Modelled from the spec: the snapshot handle [brtypes.Snapshot], whose
    declaration is in a file of package [types] that is not part of the
    sources at hand.  The spec lists its attributes: kind, directory, name,
    start revision, last revision and compression suffix. *)
Record Snapshot : Type := mkSnapshot {
  Kind : string;
  SnapDir : string;
  SnapName : string;
  StartRevision : Z;
  LastRevision : Z;
  CompressionSuffix : string
}.

(** [mvccpb.Event_EventType], an [int32] with two named values. *)
Inductive EventType : Type :=
| PUT
| DELETE
| EventType_other (n : Z).

(** The fields of [mvccpb.KeyValue] the restorer reads. *)
Record KeyValue : Type := mkKeyValue {
  Key : list byte;
  Value : list byte;
  ModRevision : Z
}.

(** [clientv3.Event]. *)
Record EtcdEvent_t : Type := mkEtcdEvent {
  Type_ : EventType;
  Kv : KeyValue
}.

(** [brtypes.Event]: the etcd event and the time it was seen.  In Go
    [EtcdEvent] and its [Kv] are pointers, which the restorer dereferences
    for every event it applies; the events are taken with both set, as the
    snapshotter writes them. *)
Record Event : Type := mkEvent {
  EtcdEvent : EtcdEvent_t;
  Time : string
}.

(** [clientv3.Op], as built by [clientv3.OpPut] and [clientv3.OpDelete]. *)
Inductive Op : Type :=
| OpPut (key val : string)
| OpDelete (key : string).

(** [brtypes.FetcherInfo] and [brtypes.ApplierInfo]. *)
Record FetcherInfo : Type := mkFetcherInfo {
  fiSnapshot : Snapshot;
  fiSnapIndex : Z
}.

Record ApplierInfo : Type := mkApplierInfo {
  SnapFilePath : string;
  SnapIndex : Z
}.

(** The response of [Maintenance.Status], as far as it is read. *)
Record StatusResponse : Type := mkStatusResponse {
  DbSize : Z;
  DbSizeInUse : Z
}.

(** Go errors.  [ErrExternal] is an error value handed back by a
    collaborator; every other constructor is one [fmt.Errorf] of the
    package, named after its message. *)
Inductive error : Type :=
| ErrExternal (msg : string)
(* Restore, restoreFromBaseSnapshot *)
| ErrRestoreFromBase (cause : error)
| ErrFetchBase (cause : error)
| ErrCompressionPolicy (cause : error)
| ErrDecompressBase (cause : error)
| ErrCreateTemp (cause : error)
| ErrCopySnapshot (cause : error)
| ErrRestoreDatabase (cause : error)
(* fetchSnaps, applyFirstDeltaSnapshot *)
| ErrFetchDelta (snapName : string) (cause : error)
| ErrPersistDelta (snapName path : string) (cause : error)
| ErrReadFirstDelta (snapName : string) (cause : error)
| ErrUnmarshalFirstDelta (snapName : string) (cause : error)
| ErrLatestRevision (cause : error)
(* applySnaps *)
| ErrSnapIndexMismatch (fetched expected : Z)
| ErrReadEvents (path : string) (cause : error)
| ErrUnmarshalEvents (snapName : string) (cause : error)
(* applyEventsAndVerify, applyEventsToEtcd, verifySnapshotRevision *)
| ErrApplyEvents (snapName : string) (cause : error)
| ErrVerifyRevision (snapName : string) (cause : error)
| ErrUnexpectedEventType
| ErrConnectKV (cause : error)
| ErrMismatchedRevision (expected applied : Z)
(* persistRawDeltaSnapshot *)
| ErrCreateTempFile (path : string)
(* readSnapshotContentsFromReadCloser, readSnapshotContentsFromFile *)
| ErrDecompressDelta (snapName : string) (cause : error)
| ErrUnableToDecompress (cause : error)
| ErrParseContents (snapName : string) (cause : error)
| ErrMissingHash
| ErrShaMismatch (expected got : list byte)
| ErrOpenFile (path snapName : string) (cause : error)
(* MakeEtcdLeanAndCheckAlarm *)
| ErrCompact (cause : error)
| ErrStatus (cause : error)
| ErrDisalarm.

(** An [io.ReadCloser]: the bytes it yields until the end of the stream,
    the error reading it runs into, if any, and the error of [Close]. *)
Record ReadCloser : Type := mkReadCloser {
  rcBytes : list byte;
  rcReadErr : option error;
  rcCloseErr : option error
}.

(** Functions of the Go library and of packages outside the restorer:
    [crypto/sha256], [encoding/json], [path/filepath], [path] and the package
    [compressor]. *)
Class GoLib : Type := {
  sha256_Sum : list byte -> list byte;
  json_Unmarshal : list byte -> error + list Event;
  filepath_Join : string -> string -> string;
  path_Join : string -> string -> string;
  IsSnapshotCompressed : string -> error + (bool * string);
  DecompressSnapshot : ReadCloser -> string -> error + ReadCloser
}.

(** [sha256.Size]. *)
Definition sha256_Size : Z := 32.

#[export] Instance byte_eq_dec : EqDecision byte := Byte.byte_eq_dec.

(* ----------------------------------------------------------------- *)
(** *** The integrity reader *)

Section IntegrityReader.

Context {G : GoLib}.

(** [getNormalizedSnapshotReadCloser]: the four results of the Go function,
    in its order. *)
Definition getNormalizedSnapshotReadCloser (rc : ReadCloser) (snap : Snapshot)
  : ReadCloser * bool * string * option error :=
  match IsSnapshotCompressed (CompressionSuffix snap) with
  | inl err => (rc, false, "", Some err)
  | inr (isCompressed, compressionPolicy) =>
      if isCompressed then
        match DecompressSnapshot rc compressionPolicy with
        | inl err => (rc, true, compressionPolicy, Some (ErrUnableToDecompress err))
        | inr rc' => (rc', isCompressed, compressionPolicy, None)
        end
      else (rc, isCompressed, compressionPolicy, None)
  end.

(** [readSnapshotContentsFromReadCloser].  [buf.ReadFrom] reads the stream
    to its end; [h.Write] of a hash never fails, so that branch is gone;
    [reflect.DeepEqual] on two byte slices is equality of their contents. *)
Definition readSnapshotContentsFromReadCloser (rc : ReadCloser) (snap : Snapshot)
  : error + list byte :=
  match getNormalizedSnapshotReadCloser rc snap with
  | (_, _, _, Some err) => inl (ErrDecompressDelta (SnapName snap) err)
  | (rc, _, _, None) =>
      match rcReadErr rc with
      | Some err => inl (ErrParseContents (SnapName snap) err)
      | None =>
          let sha := rcBytes rc in
          let bufSize := Z.of_nat (length sha) in
          if bufSize <=? sha256_Size then inl ErrMissingHash
          else
            let data := take (Z.to_nat (bufSize - sha256_Size)) sha in
            let snapHash := drop (Z.to_nat (bufSize - sha256_Size)) sha in
            let computedSha := sha256_Sum data in
            if bool_decide (snapHash = computedSha) then inr data
            else inl (ErrShaMismatch snapHash computedSha)
      end
  end.

End IntegrityReader.

(* ----------------------------------------------------------------- *)
(** *** The world the restorer runs in *)

(** [brtypes.RestoreOptions], without the client factory function. *)
Record RestoreOptions : Type := mkRestoreOptions {
  Config : Types.RestorationConfig;
  ClusterURLs : list (string * list string);
  BaseSnapshot : Snapshot;
  PeerURLs : list string;
  DeltaSnapList : list Snapshot;
  OriginalClusterSize : Z
}.

(** [snapshot.RestoreConfig] of etcd. *)
Record RestoreConfig : Type := mkRestoreConfig {
  rcSnapshotPath : string;
  rcName : string;
  rcPeerURLs : list string;
  rcInitialCluster : string;
  rcInitialClusterToken : string;
  rcOutputDataDir : string;
  rcSkipHashCheck : bool
}.

(** [*embed.Etcd]: the addresses of its client listeners. *)
Record Etcd : Type := mkEtcd {
  Clients : list string
}.

(** What the restorer does to the outside, in the order it does it: calls
    to the etcd clients, the snapshot store and the file system, sends on
    its channels, and the log line that announces a delta. *)
Inductive Obs : Type :=
| ObsTxnCommit (ops : list Op) (res : option error)
| ObsGet (key : string) (withLastRev : bool) (res : error + Z)
| ObsCompact (revision : Z) (res : option error)
| ObsStatus (endPoint : string) (res : error + StatusResponse)
| ObsDefragment (endPoint : string) (res : option error)
| ObsFetch (snap : Snapshot) (res : option error)
| ObsMkdirAll (path : string) (res : option error)
| ObsRemoveAll (path : string)
| ObsOpen (path : string)
| ObsCreate (path : string) (res : option error)
| ObsReadFrom (path : string) (res : option error)
| ObsRemove (path : string)
| ObsCreateTemp (dir pattern : string)
| ObsCopy (path : string)
| ObsSnapshotRestore (cfg : RestoreConfig) (res : option error)
| ObsStartEmbeddedEtcd
| ObsNewClient (kind : string)
| ObsCloseClient (kind : string)
| ObsUpdateMemberPeerURL
| ObsErrCh (err : option error)
| ObsApplierInfoCh (info : ApplierInfo)
| ObsSnapLocationsCh (path : string)
| ObsAlarmCh (endPoint : string)
| ObsDisarmCh (ok : bool)
| ObsLogApplying (currSnapIndex : Z).

(** The collaborators, as functions on a state [W] of the outside world:
    the clients of the embedded etcd ([client.KVCloser],
    [client.MaintenanceCloser], [client.Factory]), the snapshot store
    ([brtypes.SnapStore]), the file system, etcd's snapshot restore and
    [miscellaneous.StartEmbeddedEtcd], and the member control. *)
Class Env (W : Type) : Type := {
  KV_Txn_Commit : list Op -> W -> option error * W;
  KV_Get : string -> bool -> W -> (error + Z) * W;
  KV_Compact : Z -> W -> option error * W;
  Maintenance_Status : string -> W -> (error + StatusResponse) * W;
  Maintenance_Defragment : string -> W -> option error * W;
  Store_Fetch : Snapshot -> W -> (error + ReadCloser) * W;
  os_MkdirAll : string -> W -> option error * W;
  os_RemoveAll : string -> W -> option error * W;
  os_Open : string -> W -> (error + ReadCloser) * W;
  os_Create : string -> W -> option error * W;
  File_ReadFrom : string -> ReadCloser -> W -> option error * W;
  os_Remove : string -> W -> option error * W;
  os_CreateTemp : string -> string -> W -> (error + string) * W;
  io_Copy : string -> ReadCloser -> W -> option error * W;
  snapshot_Restore : RestoreConfig -> W -> option error * W;
  StartEmbeddedEtcd : RestoreOptions -> W -> (option Etcd * option error) * W;
  Factory_New : string -> W -> option error * W;
  Client_Close : string -> W -> option error * W;
  UpdateMemberPeerURL : W -> option error * W
}.

(** The state of a run: the outside world and the observations so far. *)
Record State (W : Type) : Type := mkState {
  world : W;
  trace : list Obs
}.

Arguments mkState {W} _ _.
Arguments world {W} _.
Arguments trace {W} _.

(** A Go call either returns or panics. *)
Inductive outcome (A : Type) : Type :=
| Ok (a : A)
| Panic (msg : string).

Arguments Ok {A} _.
Arguments Panic {A} _.

(** Computations over the state that may panic. *)
Definition M (W A : Type) : Type := State W -> outcome A * State W.

Definition ret {W A} (a : A) : M W A := fun s => (Ok a, s).

Definition bind {W A B} (m : M W A) (k : A -> M W B) : M W B :=
  fun s =>
    match m s with
    | (Ok a, s') => k a s'
    | (Panic msg, s') => (Panic msg, s')
    end.

Definition panic {W A} (msg : string) : M W A := fun s => (Panic msg, s).

(** A call to a collaborator, observed together with its result. *)
Definition call {W A} (f : W -> A * W) (o : A -> Obs) : M W A :=
  fun s =>
    let (a, w) := f (world s) in
    (Ok a, mkState w (trace s ++ [o a])).

(** A send on a channel, a log line. *)
Definition emit {W} (o : Obs) : M W unit :=
  fun s => (Ok tt, mkState (world s) (trace s ++ [o])).

Declare Scope go_scope.
Delimit Scope go_scope with go.
Notation "x <- m ;; k" := (bind m (fun x => k))
  (at level 20, m at level 99, k at level 200, only parsing) : go_scope.
Notation "m ;;; k" := (bind m (fun _ => k))
  (at level 100, k at level 200, right associativity, only parsing) : go_scope.
Local Open Scope go_scope.

(* ----------------------------------------------------------------- *)
(** *** Applying the events of a delta *)

Section Apply.

Context {G : GoLib} {W : Type} {E : Env W}.

(** The operation an event of kind PUT or DELETE turns into. *)
Definition opOfEvent (e : Event) : option Op :=
  let ev := EtcdEvent e in
  match Type_ ev with
  | PUT => Some (OpPut (string_of_list_byte (Key (Kv ev)))
                       (string_of_list_byte (Value (Kv ev))))
  | DELETE => Some (OpDelete (string_of_list_byte (Key (Kv ev))))
  | EventType_other _ => None
  end.

(** [clientKV.Txn(ctx).Then(ops...).Commit()]. *)
Definition Txn_Then_Commit (ops : list Op) : M W (option error) :=
  call (KV_Txn_Commit ops) (ObsTxnCommit ops).

(** The loop of [applyEventsToEtcd] over the events left, with the local
    variables [lastRev] and [ops]; after the last event the residual batch
    is committed and the result of that commit is returned. *)
Fixpoint applyEventsToEtcd_loop (events : list Event) (lastRev : Z)
  (ops : list Op) : M W (option error) :=
  match events with
  | [] => Txn_Then_Commit ops
  | e :: events' =>
      let nextRev := ModRevision (Kv (EtcdEvent e)) in
      r <- (if negb (lastRev =? 0) && (nextRev >? lastRev) then
              err <- Txn_Then_Commit ops ;;
              ret (match err with
                   | Some err => inl err
                   | None => inr []
                   end)
            else ret (inr ops)) ;;
      match r with
      | inl err => ret (Some err)
      | inr ops =>
          let lastRev := nextRev in
          match opOfEvent e with
          | Some op => applyEventsToEtcd_loop events' lastRev (ops ++ [op])
          | None => ret (Some ErrUnexpectedEventType)
          end
      end
  end.

(** [applyEventsToEtcd]: [lastRev] starts at the zero value, [ops] empty. *)
Definition applyEventsToEtcd (events : list Event) : M W (option error) :=
  applyEventsToEtcd_loop events 0 [].

(** [verifySnapshotRevision]. *)
Definition verifySnapshotRevision (snap : Snapshot) : M W (option error) :=
  getResponse <- call (KV_Get "foo" false) (ObsGet "foo" false) ;;
  match getResponse with
  | inl err => ret (Some (ErrConnectKV err))
  | inr etcdRevision =>
      if negb (LastRevision snap =? etcdRevision) then
        ret (Some (ErrMismatchedRevision (LastRevision snap) etcdRevision))
      else ret None
  end.

(** [applyEventsAndVerify]. *)
Definition applyEventsAndVerify (events : list Event) (snap : Snapshot)
  : M W (option error) :=
  err <- applyEventsToEtcd events ;;
  match err with
  | Some err => ret (Some (ErrApplyEvents (SnapName snap) err))
  | None =>
      err <- verifySnapshotRevision snap ;;
      match err with
      | Some err => ret (Some (ErrVerifyRevision (SnapName snap) err))
      | None => ret None
      end
  end.

(** The scan of [applyFirstDeltaSnapshot] for [newRevisionIndex]: the index
    of the first event whose revision is above [lastRevision]; the variable
    keeps its zero value when the loop ends without a [break]. *)
Fixpoint newRevisionIndex_scan (events : list Event) (index : nat)
  (lastRevision : Z) : nat :=
  match events with
  | [] => 0%nat
  | event :: events' =>
      if ModRevision (Kv (EtcdEvent event)) >? lastRevision then index
      else newRevisionIndex_scan events' (S index) lastRevision
  end.

(** [r.store.Fetch]: a store hands back a reader or an error, and with an
    error the reader is nil, as the stores of the repository do (the
    interface [brtypes.SnapStore] alone does not demand it). *)
Definition Fetch (snap : Snapshot) : M W (error + ReadCloser) :=
  call (Store_Fetch snap)
    (fun r => ObsFetch snap (match r with inl err => Some err | inr _ => None end)).

(** [applyFirstDeltaSnapshot]. *)
Definition applyFirstDeltaSnapshot (snap : Snapshot) : M W (option error) :=
  fetched <- Fetch snap ;;
  match fetched with
  | inl err => ret (Some (ErrFetchDelta (SnapName snap) err))
  | inr rc =>
      match readSnapshotContentsFromReadCloser rc snap with
      | inl err => ret (Some (ErrReadFirstDelta (SnapName snap) err))
      | inr eventsData =>
          match json_Unmarshal eventsData with
          | inl err => ret (Some (ErrUnmarshalFirstDelta (SnapName snap) err))
          | inr events =>
              resp <- call (KV_Get "" true) (ObsGet "" true) ;;
              match resp with
              | inl err => ret (Some (ErrLatestRevision err))
              | inr lastRevision =>
                  if lastRevision =? LastRevision snap then ret None
                  else
                    let newRevisionIndex :=
                      newRevisionIndex_scan events 0 lastRevision in
                    applyEventsToEtcd (drop newRevisionIndex events)
              end
          end
      end
  end.

(** [readSnapshotContentsFromFile]. *)
Definition readSnapshotContentsFromFile (filePath : string) (snap : Snapshot)
  : M W (error + list byte) :=
  file <- call (os_Open filePath) (fun _ => ObsOpen filePath) ;;
  match file with
  | inl err => ret (inl (ErrOpenFile filePath (SnapName snap) err))
  | inr file => ret (readSnapshotContentsFromReadCloser file snap)
  end.

End Apply.

(* ----------------------------------------------------------------- *)
(** *** The fetchers *)

Section Fetchers.

Context {G : GoLib} {W : Type} {E : Env W}.

(** [persistRawDeltaSnapshot]; [rc] is [None] for the nil reader that comes
    with a failed fetch, and [tempFile.ReadFrom] on it is a nil
    dereference. *)
Definition persistRawDeltaSnapshot (rc : option ReadCloser)
  (tempFilePath : string) : M W (option error) :=
  err <- call (os_Create tempFilePath) (ObsCreate tempFilePath) ;;
  match err with
  | Some _ => ret (Some (ErrCreateTempFile tempFilePath))
  | None =>
      match rc with
      | None => panic "nil pointer dereference"
      | Some rc =>
          err <- call (File_ReadFrom tempFilePath rc) (ObsReadFrom tempFilePath) ;;
          match err with
          | Some err => ret (Some err)
          | None => ret (rcCloseErr rc)
          end
      end
  end.

(** The sentinel a fetcher sends to the applier after an error. *)
Definition sentinelApplierInfo : ApplierInfo := mkApplierInfo "" (-1).

(** The [default] branch of the [select] in [fetchSnaps]: what a fetcher
    does with one [FetcherInfo]. *)
Definition fetchSnaps_default (tempDir : string) (fetcherInfo : FetcherInfo)
  : M W unit :=
  let snap := fiSnapshot fetcherInfo in
  fetched <- Fetch snap ;;
  (match fetched with
   | inl err =>
       emit (ObsErrCh (Some (ErrFetchDelta (SnapName snap) err))) ;;;
       emit (ObsApplierInfoCh sentinelApplierInfo)
   | inr _ => ret tt
   end) ;;;
  let rc := match fetched with inl _ => None | inr rc => Some rc end in
  let snapTempFilePath := filepath_Join tempDir (SnapName snap) in
  err <- persistRawDeltaSnapshot rc snapTempFilePath ;;
  (match err with
   | Some err =>
       emit (ObsErrCh (Some (ErrPersistDelta (SnapName snap) snapTempFilePath err))) ;;;
       emit (ObsApplierInfoCh sentinelApplierInfo)
   | None => ret tt
   end) ;;;
  emit (ObsSnapLocationsCh snapTempFilePath) ;;;
  emit (ObsApplierInfoCh (mkApplierInfo snapTempFilePath (fiSnapIndex fetcherInfo))).

(** [fetchSnaps]: the [FetcherInfo]s this fetcher takes from its channel,
    each with whether [stopCh] is closed by then; the range ends when the
    channel is closed and drained. *)
Fixpoint fetchSnaps (tempDir : string) (work : list (bool * FetcherInfo))
  : M W unit :=
  match work with
  | [] => ret tt
  | (stopClosed, fetcherInfo) :: work' =>
      if stopClosed then ret tt
      else
        fetchSnaps_default tempDir fetcherInfo ;;;
        fetchSnaps tempDir work'
  end.

End Fetchers.

(* ----------------------------------------------------------------- *)
(** *** Keeping the embedded etcd lean *)

(** Go's [float64]: IEEE 754 binary64, round to nearest even. *)
Abbreviation float64 := spec_float.

Definition float64_of_int (z : Z) : float64 := binary_normalize 53 1024 z 0 false.
Definition float64_mul (x y : float64) : float64 := SFmul 53 1024 x y.
Definition float64_div (x y : float64) : float64 := SFdiv 53 1024 x y.
Definition float64_gt (x y : float64) : bool := SFltb y x.

(** The constants of the package that the model uses. *)
Definition periodicallyMakeEtcdLeanDeltaSnapshotInterval : Z := 10.

Definition thresholdPercentageForDBSizeAlarm : float64 :=
  float64_div (float64_of_int 80) (float64_of_int 100).

Section Lean.

Context {W : Type} {E : Env W}.

(** One turn of the loop of [HandleAlarm], after it has received
    [endPoint] on [dbSizeAlarmCh]: the value it sends on
    [dbSizeAlarmDisarmCh]. *)
Definition HandleAlarm_alarm (endPoint : string) : M W bool :=
  err <- call (Maintenance_Defragment endPoint) (ObsDefragment endPoint) ;;
  match err with
  | Some _ => ret false
  | None => ret true
  end.

(** The loop of [MakeEtcdLeanAndCheckAlarm] over the endpoints.  Both
    channels are unbuffered, so the send on [dbSizeAlarmCh] hands the
    endpoint to [HandleAlarm] and the receive on [dbSizeAlarmDisarmCh]
    takes its answer.  The status asked after a defragmentation is only
    logged. *)
Fixpoint raiseAlarm_loop (endPoints : list string) : M W (option error) :=
  match endPoints with
  | [] => ret None
  | endPoint :: endPoints' =>
      emit (ObsAlarmCh endPoint) ;;;
      ok <- HandleAlarm_alarm endPoint ;;
      emit (ObsDisarmCh ok) ;;;
      if negb ok then ret (Some ErrDisalarm)
      else
        call (Maintenance_Status endPoint) (ObsStatus endPoint) ;;;
        raiseAlarm_loop endPoints'
  end.

(** The test of [MakeEtcdLeanAndCheckAlarm] on the sizes of the database. *)
Definition dbSizeCrossesThreshold (status : StatusResponse)
  (embeddedEtcdQuotaBytes : float64) : bool :=
  float64_gt (float64_of_int (DbSizeInUse status))
             (float64_mul thresholdPercentageForDBSizeAlarm embeddedEtcdQuotaBytes)
  || float64_gt (float64_of_int (DbSize status))
                (float64_mul thresholdPercentageForDBSizeAlarm embeddedEtcdQuotaBytes).

(** [MakeEtcdLeanAndCheckAlarm]. *)
Definition MakeEtcdLeanAndCheckAlarm (revision : Z) (endPoints : list string)
  (embeddedEtcdQuotaBytes : float64) : M W (option error) :=
  err <- call (KV_Compact revision) (ObsCompact revision) ;;
  match err with
  | Some err => ret (Some (ErrCompact err))
  | None =>
      match endPoints with
      | [] => panic "index out of range"
      | endPoint0 :: _ =>
          status <- call (Maintenance_Status endPoint0) (ObsStatus endPoint0) ;;
          match status with
          | inl err => ret (Some (ErrStatus err))
          | inr status =>
              if dbSizeCrossesThreshold status embeddedEtcdQuotaBytes
              then raiseAlarm_loop endPoints
              else ret None
          end
      end
  end.

End Lean.

(* ----------------------------------------------------------------- *)
(** *** The applier *)

(** The local variables of [applySnaps]. *)
Record applier : Type := mkApplier {
  pathList : list string;
  nextSnapIndexToApply : Z;
  numberOfDeltaSnapApplied : Z;
  prevAttemptToMakeEtcdLeanFailed : bool
}.

(** How a piece of [applySnaps] ends: it goes on with the variables as they
    are now, or the goroutine returns. *)
Inductive flow : Type :=
| Continue (a : applier)
| Return_.

(** What a turn of the [select] of [applySnaps] receives: from [stopCh]
    (a value, or the closing of the channel) or from [applierInfoCh]. *)
Inductive selected : Type :=
| FromStopCh (more : bool)
| FromApplierInfoCh (applierInfo : ApplierInfo).

(** Where the goroutine is once its input is used up: it has returned, or
    it waits in the [select]. *)
Inductive applierStatus : Type :=
| Returned
| Waiting (a : applier).

Section Applier.

Context {G : GoLib} {W : Type} {E : Env W}.

Variable remainingSnaps : list Snapshot.
Variable endPoints : list string.
Variable embeddedEtcdQuotaBytes : float64.

(** The body of the [for] loop of [applySnaps] for the delta at
    [currSnapIndex], once its path is known not to be empty. *)
Definition applySnaps_body (currSnapIndex : Z) (snap : Snapshot)
  (filePath : string) (a : applier) : M W flow :=
  let snapName := SnapName snap in
  eventsData <- readSnapshotContentsFromFile filePath snap ;;
  match eventsData with
  | inl err => emit (ObsErrCh (Some (ErrReadEvents filePath err))) ;;; ret Return_
  | inr eventsData =>
      match json_Unmarshal eventsData with
      | inl err =>
          emit (ObsErrCh (Some (ErrUnmarshalEvents snapName err))) ;;; ret Return_
      | inr events =>
          emit (ObsLogApplying currSnapIndex) ;;;
          err <- applyEventsAndVerify events snap ;;
          match err with
          | Some err => emit (ObsErrCh (Some err)) ;;; ret Return_
          | None =>
              call (os_Remove filePath) (fun _ => ObsRemove filePath) ;;;
              let next := nextSnapIndexToApply a + 1 in
              if next =? Z.of_nat (length remainingSnaps) then
                emit (ObsErrCh None) ;;; ret Return_
              else
                let applied := numberOfDeltaSnapApplied a + 1 in
                if (Z.rem applied periodicallyMakeEtcdLeanDeltaSnapshotInterval =? 0)
                   || prevAttemptToMakeEtcdLeanFailed a
                then
                  err <- MakeEtcdLeanAndCheckAlarm (LastRevision snap) endPoints
                           embeddedEtcdQuotaBytes ;;
                  match err with
                  | Some _ => ret (Continue (mkApplier (pathList a) next applied true))
                  | None => ret (Continue (mkApplier (pathList a) next applied false))
                  end
                else
                  ret (Continue (mkApplier (pathList a) next applied
                                   (prevAttemptToMakeEtcdLeanFailed a)))
          end
      end
  end.

(** The [for] loop of [applySnaps] from [currSnapIndex]; [fuel] is
    [len(remainingSnaps) - currSnapIndex], so that it is used up exactly
    when the condition of the loop fails. *)
Fixpoint applySnaps_for (fuel : nat) (currSnapIndex : Z) (a : applier)
  : M W flow :=
  match fuel with
  | O => ret (Continue a)
  | S fuel' =>
      match pathList a !! Z.to_nat currSnapIndex,
            remainingSnaps !! Z.to_nat currSnapIndex with
      | Some filePath, Some snap =>
          if String.eqb filePath "" then ret (Continue a)
          else
            r <- applySnaps_body currSnapIndex snap filePath a ;;
            match r with
            | Return_ => ret Return_
            | Continue a' => applySnaps_for fuel' (currSnapIndex + 1) a'
            end
      | _, _ => panic "index out of range"
      end
  end.

(** What [applySnaps] does with one [ApplierInfo]. *)
Definition applySnaps_applierInfo (applierInfo : ApplierInfo) (a : applier)
  : M W flow :=
  if SnapIndex applierInfo =? -1 then ret Return_
  else
    let fetchedSnapIndex := SnapIndex applierInfo in
    if (fetchedSnapIndex <? 0)
       || (Z.of_nat (length (pathList a)) <=? fetchedSnapIndex)
    then panic "index out of range"
    else
      let a := mkApplier
                 (<[Z.to_nat fetchedSnapIndex := SnapFilePath applierInfo]> (pathList a))
                 (nextSnapIndexToApply a) (numberOfDeltaSnapApplied a)
                 (prevAttemptToMakeEtcdLeanFailed a) in
      if fetchedSnapIndex <? nextSnapIndexToApply a then
        emit (ObsErrCh (Some (ErrSnapIndexMismatch fetchedSnapIndex
                                (nextSnapIndexToApply a)))) ;;;
        ret Return_
      else if fetchedSnapIndex =? nextSnapIndexToApply a then
        applySnaps_for
          (Z.to_nat (Z.of_nat (length remainingSnaps) - fetchedSnapIndex))
          fetchedSnapIndex a
      else ret (Continue a).

(** The endless loop of [applySnaps] around its [select], over what the
    two channels deliver, in the order the [select] takes it. *)
Fixpoint applySnaps_select (input : list selected) (a : applier)
  : M W applierStatus :=
  match input with
  | [] => ret (Waiting a)
  | FromStopCh more :: input' =>
      if more then applySnaps_select input' a else ret Returned
  | FromApplierInfoCh applierInfo :: input' =>
      r <- applySnaps_applierInfo applierInfo a ;;
      match r with
      | Return_ => ret Returned
      | Continue a' => applySnaps_select input' a'
      end
  end.

(** The variables of [applySnaps] as it enters its loop. *)
Definition applier_init : applier :=
  mkApplier (replicate (length remainingSnaps) "") 0 1 false.

(** [applySnaps]. *)
Definition applySnaps (input : list selected) : M W applierStatus :=
  applySnaps_select input applier_init.

End Applier.

(* ----------------------------------------------------------------- *)
(** *** The orchestrator *)

(** [defer]: [d] runs when [m] is over, whether it returned or panicked. *)
Definition defer {W A} (d : M W unit) (m : M W A) : M W A :=
  fun s =>
    match m s with
    | (r, s') =>
        match d s' with
        | (Ok _, s'') => (r, s'')
        | (Panic msg, s'') => (Panic msg, s'')
        end
    end.

(** A piece of the program that returns whenever it is over. *)
Definition returned {W A} (f : State W -> A * State W) : M W A :=
  fun s => let (a, s') := f s in (Ok a, s').

Section Orchestrator.

Context {G : GoLib} {W : Type} {E : Env W}.

(** The concurrent phase of [applyDeltaSnapshots], from [go r.applySnaps]
    to the receive on [errCh] and the call of [cleanup]: the error taken
    from [errCh].  Its goroutines are embedded one by one above; how the
    Go scheduler interleaves them is left open here.  The phase is taken
    as far as it returns: nothing recovers a panic of a goroutine started
    with [go], so such a panic ends the process, no deferred call of
    [applyDeltaSnapshots] or of [Restore] runs, and there is no result to
    speak of. *)
Variable pipeline
  : list Snapshot -> list string -> float64 -> State W -> option error * State W.

(** [restoreFromBaseSnapshot]. *)
Definition restoreFromBaseSnapshot (ro : RestoreOptions) : M W (option error) :=
  let base := BaseSnapshot ro in
  let baseSnapshotPath := path_Join (SnapDir base) (SnapName base) in
  if String.eqb baseSnapshotPath "" then ret None
  else
    fetched <- Fetch base ;;
    match fetched with
    | inl err => ret (Some (ErrFetchBase err))
    | inr rc =>
        match IsSnapshotCompressed (CompressionSuffix base) with
        | inl err => ret (Some (ErrCompressionPolicy err))
        | inr (isCompressed, compressionPolicy) =>
            match (if isCompressed then DecompressSnapshot rc compressionPolicy
                   else inr rc) with
            | inl err => ret (Some (ErrDecompressBase err))
            | inr rc =>
                let tempDir := Types.TempSnapshotsDir (Config ro) in
                db <- call (os_CreateTemp tempDir "snapshot-*.db")
                        (fun _ => ObsCreateTemp tempDir "snapshot-*.db") ;;
                match db with
                | inl err => ret (Some (ErrCreateTemp err))
                | inr db =>
                    defer (call (os_Remove db) (fun _ => ObsRemove db) ;;; ret tt)
                      (err <- call (io_Copy db rc) (fun _ => ObsCopy db) ;;
                       match err with
                       | Some err => ret (Some (ErrCopySnapshot err))
                       | None =>
                           let restoreCfg :=
                             mkRestoreConfig db (Types.Name (Config ro))
                               (PeerURLs ro)
                               (Types.InitialCluster (Config ro))
                               (Types.InitialClusterToken (Config ro))
                               (Types.DataDir (Config ro))
                               (Types.SkipHashCheck (Config ro)) in
                           err <- call (snapshot_Restore restoreCfg)
                                    (ObsSnapshotRestore restoreCfg) ;;
                           match err with
                           | Some err => ret (Some (ErrRestoreDatabase err))
                           | None => ret None
                           end
                       end)
                end
            end
        end
    end.

(** Closing a client when the function is over; the error is only logged. *)
Definition closeClient (kind : string) : M W unit :=
  call (Client_Close kind) (fun _ => ObsCloseClient kind) ;;; ret tt.

(** [applyDeltaSnapshots]. *)
Definition applyDeltaSnapshots (endPoints : list string) (ro : RestoreOptions)
  : M W (option error) :=
  err <- call (Factory_New "KV") (fun _ => ObsNewClient "KV") ;;
  match err with
  | Some err => ret (Some err)
  | None =>
      defer (closeClient "KV")
        (err <- call (Factory_New "Maintenance") (fun _ => ObsNewClient "Maintenance") ;;
         match err with
         | Some err => ret (Some err)
         | None =>
             defer (closeClient "Maintenance")
               (let snapList := DeltaSnapList ro in
                match snapList with
                | [] => panic "index out of range"
                | firstDeltaSnap :: remainingSnaps =>
                    err <- applyFirstDeltaSnapshot firstDeltaSnap ;;
                    match err with
                    | Some err => ret (Some err)
                    | None =>
                        let embeddedEtcdQuotaBytes :=
                          float64_of_int (Types.EmbeddedEtcdQuotaBytes (Config ro)) in
                        err <- verifySnapshotRevision firstDeltaSnap ;;
                        match err with
                        | Some err => ret (Some err)
                        | None =>
                            match remainingSnaps with
                            | [] => ret None
                            | _ :: _ =>
                                returned (pipeline remainingSnaps endPoints
                                            embeddedEtcdQuotaBytes)
                            end
                        end
                    end
                end)
         end)
  end.

(** [Restore]; [m] tells whether a member control was handed in.  The two
    results of the Go function are paired. *)
Definition Restore (ro : RestoreOptions) (m : bool)
  : M W (option Etcd * option error) :=
  let tempDir := Types.TempSnapshotsDir (Config ro) in
  err <- call (os_MkdirAll tempDir) (ObsMkdirAll tempDir) ;;
  match err with
  | Some err => ret (None, Some err)
  | None =>
      defer (call (os_RemoveAll tempDir) (fun _ => ObsRemoveAll tempDir) ;;; ret tt)
        (err <- restoreFromBaseSnapshot ro ;;
         match err with
         | Some err => ret (None, Some (ErrRestoreFromBase err))
         | None =>
             if (length (DeltaSnapList ro) =? 0)%nat then ret (None, None)
             else
               started <- call (StartEmbeddedEtcd ro) (fun _ => ObsStartEmbeddedEtcd) ;;
               match started with
               | (e, Some err) => ret (e, Some err)
               | (None, None) => panic "nil pointer dereference"
               | (Some e, None) =>
                   match Clients e with
                   | [] => panic "index out of range"
                   | addr :: _ =>
                       let embeddedEtcdEndpoints := [addr] in
                       err <- applyDeltaSnapshots embeddedEtcdEndpoints ro ;;
                       match err with
                       | Some err => ret (Some e, Some err)
                       | None =>
                           if m then
                             err <- call (Factory_New "Cluster")
                                      (fun _ => ObsNewClient "Cluster") ;;
                             match err with
                             | Some err => ret (Some e, Some err)
                             | None =>
                                 defer (closeClient "Cluster")
                                   (err <- call UpdateMemberPeerURL
                                             (fun _ => ObsUpdateMemberPeerURL) ;;
                                    match err with
                                    | Some err => ret (Some e, Some err)
                                    | None => ret (Some e, None)
                                    end)
                             end
                           else ret (Some e, None)
                       end
                   end
               end
         end)
  end.

End Orchestrator.

(* ----------------------------------------------------------------- *)
(** *** The alarm handler, the clean-up and the wrapper of [Restore] *)

(** What a turn of the [select] of [HandleAlarm] receives: something from
    [stopHandleAlarmCh] (a value or its closing), or an endpoint from
    [dbSizeAlarmCh]. *)
Inductive alarmSelected : Type :=
| FromStopHandleAlarmCh
| FromDbSizeAlarmCh (endPoint : string).

(** The errors [cleanup] builds with [fmt.Errorf]. *)
Inductive cleanupError : Type :=
| ErrUnableToStat (filePath : string) (cause : error)
| ErrUnableToRemove (filePath : string) (cause : error).

(** The calls of [cleanup] to the file system, with their results. *)
Inductive cleanupCall : Type :=
| CallStat (filePath : string) (res : option error)
| CallRemove (filePath : string) (res : option error).

(** What [cleanup] and [ErrorArrayToError] use besides: [os.Stat], of which
    only the error is read, [os.IsNotExist], the method [Error] of an error
    value and [strings.TrimSpace]. *)
Class CleanupLib (W : Type) : Type := {
  os_Stat : string -> W -> option error * W;
  os_IsNotExist : error -> bool;
  error_Error : error -> string;
  strings_TrimSpace : string -> string
}.

(** [embeddedEtcd.Server.Stop()] and [embeddedEtcd.Close()]. *)
Class EmbeddedEtcd (W : Type) : Type := {
  Server_Stop : Etcd -> W -> W;
  Etcd_Close : Etcd -> W -> W
}.

(** The line feed of ["%s\n%s"]. *)
Definition newline : string := String "010"%char "".

(** [ErrorArrayToError], for error values with the method [Error]: the
    message of the error it returns, [None] for nil.  [fmt.Errorf("%s", m)]
    is the error with the message [m]. *)
Definition ErrorArrayToError {A : Type} (Error : A -> string)
  (TrimSpace : string -> string) (errs : list A) : option string :=
  if (length errs =? 0)%nat then None
  else
    let errString :=
      fold_left (fun errString e => (errString ++ newline ++ Error e)%string)
        errs "" in
    Some (TrimSpace errString).

Section Housekeeping.

Context {G : GoLib} {W : Type} {E : Env W}.

(** [HandleAlarm], over what its two channels deliver, in the order the
    [select] takes it: after an endpoint it defragments and sends the
    answer on [dbSizeAlarmDisarmCh]; the result tells whether it has
    returned ([true]) or waits in the [select] ([false]). *)
Fixpoint HandleAlarm (input : list alarmSelected) : M W bool :=
  match input with
  | [] => ret false
  | FromStopHandleAlarmCh :: _ => ret true
  | FromDbSizeAlarmCh endPoint :: input' =>
      ok <- HandleAlarm_alarm endPoint ;;
      emit (ObsDisarmCh ok) ;;;
      HandleAlarm input'
  end.

Context {C : CleanupLib W}.

(** The message of an error of [cleanup]. *)
Definition cleanupError_Error (e : cleanupError) : string :=
  match e with
  | ErrUnableToStat filePath cause =>
      ("unable to stat file " ++ filePath ++ ": " ++ error_Error cause)%string
  | ErrUnableToRemove filePath cause =>
      ("unable to remove file " ++ filePath ++ ": " ++ error_Error cause)%string
  end.

(** The loop of [cleanup] over the paths left in [snapLocationsCh] once it
    is closed, with the local variable [errs]; its calls to the file system
    are logged in [calls]. *)
Fixpoint cleanup_range (paths : list string) (errs : list cleanupError)
  (w : W) (calls : list cleanupCall)
  : list cleanupError * W * list cleanupCall :=
  match paths with
  | [] => (errs, w, calls)
  | filePath :: paths' =>
      let (statErr, w1) := os_Stat filePath w in
      let calls := calls ++ [CallStat filePath statErr] in
      match statErr with
      | Some err =>
          if negb (os_IsNotExist err)
          then cleanup_range paths' (errs ++ [ErrUnableToStat filePath err]) w1 calls
          else cleanup_range paths' errs w1 calls
      | None =>
          let (rmErr, w2) := os_Remove filePath w1 in
          let calls := calls ++ [CallRemove filePath rmErr] in
          match rmErr with
          | Some err =>
              cleanup_range paths' (errs ++ [ErrUnableToRemove filePath err]) w2 calls
          | None => cleanup_range paths' errs w2 calls
          end
      end
  end.

(** [cleanup], once the goroutines have stopped: [snapLocations] is what
    [snapLocationsCh] holds.  It returns the message of its error, [None]
    for nil, the world it leaves and its calls to the file system. *)
Definition cleanup (snapLocations : list string) (w : W)
  : option string * W * list cleanupCall :=
  let '(errs, w', calls) := cleanup_range snapLocations [] w [] in
  if negb (length errs =? 0)%nat
  then (ErrorArrayToError cleanupError_Error strings_TrimSpace errs, w', calls)
  else (None, w', calls).

Context {D : EmbeddedEtcd W}.

(** [RestoreAndStopEtcd]: the deferred function stops and closes the etcd
    that [Restore] handed back.  The [defer] statement comes after the call
    of [Restore], so nothing is deferred when [Restore] panics. *)
Definition RestoreAndStopEtcd
  (pipeline : list Snapshot -> list string -> float64 ->
              State W -> option error * State W)
  (ro : RestoreOptions) (m : bool) : M W (option error) :=
  fun s =>
    match Restore pipeline ro m s with
    | (Ok (embeddedEtcd, err), s') =>
        (Ok err,
         match embeddedEtcd with
         | Some e => mkState (Etcd_Close e (Server_Stop e (world s'))) (trace s')
         | None => s'
         end)
    | (Panic msg, s') => (Panic msg, s')
    end.

End Housekeeping.

End Restorer.

(* ================================================================= *)
(** ** Sample collaborators

    A small simulated world on which the model runs: an etcd that counts
    revisions, a flat file system that also serves as the snapshot store,
    and stand-ins for the library functions.  They serve the examples
    below; no theorem about the restorer depends on them. *)

Module Sample.

Import Restorer.

(** A stand-in for SHA-256: 31 zero bytes and the last byte of the data. *)
Definition sample_sha (data : list byte) : list byte :=
  replicate 31 Byte.x00 ++ [List.last data Byte.x00].

(** A stand-in for the JSON decoder: every byte is one PUT event, with the
    byte as its key and as its revision. *)
Definition sample_event (b : byte) : Event :=
  mkEvent (mkEtcdEvent PUT (mkKeyValue [b] [] (Z.of_N (Byte.to_N b)))) "".

Definition sample_join (a b : string) : string :=
  if String.eqb a "" then b else if String.eqb b "" then a
  else (a ++ "/" ++ b)%string.

#[export] Instance sample_lib : GoLib := {
  sha256_Sum := sample_sha;
  json_Unmarshal := fun data => inr (map sample_event data);
  filepath_Join := sample_join;
  path_Join := sample_join;
  IsSnapshotCompressed := fun _ => inr (false, "");
  DecompressSnapshot := fun rc _ => inr rc
}.

(** The simulated world. *)
Record Sim : Type := mkSim {
  simRevision : Z;
  simFiles : list (string * list byte);
  simCreateFails : bool;
  simDbSize : Z;
  simDefragOk : bool
}.

Fixpoint sim_lookup (name : string) (files : list (string * list byte))
  : option (list byte) :=
  match files with
  | [] => None
  | (n, data) :: files' =>
      if String.eqb n name then Some data else sim_lookup name files'
  end.

Definition sim_commit (ops : list Op) (w : Sim) : option error * Sim :=
  match ops with
  | [] => (None, w)
  | _ :: _ =>
      (None, mkSim (simRevision w + 1) (simFiles w) (simCreateFails w)
               (simDbSize w) (simDefragOk w))
  end.

Definition sim_fetch (snap : Snapshot) (w : Sim) : (error + ReadCloser) * Sim :=
  match sim_lookup (SnapName snap) (simFiles w) with
  | Some data => (inr (mkReadCloser data None None), w)
  | None => (inl (ErrExternal "no such snapshot"), w)
  end.

Definition sim_open (path : string) (w : Sim) : (error + ReadCloser) * Sim :=
  match sim_lookup path (simFiles w) with
  | Some data => (inr (mkReadCloser data None None), w)
  | None => (inl (ErrExternal "no such file"), w)
  end.

Definition sim_write (path : string) (rc : ReadCloser) (w : Sim)
  : option error * Sim :=
  (rcReadErr rc,
   mkSim (simRevision w) ((path, rcBytes rc) :: simFiles w) (simCreateFails w)
     (simDbSize w) (simDefragOk w)).

#[export] Instance sample_env : Env Sim := {
  KV_Txn_Commit := sim_commit;
  KV_Get := fun _ _ w => (inr (simRevision w), w);
  KV_Compact := fun _ w => (None, w);
  Maintenance_Status := fun _ w =>
    (inr (mkStatusResponse (simDbSize w) (simDbSize w)), w);
  Maintenance_Defragment := fun _ w =>
    (if simDefragOk w then None else Some (ErrExternal "defragment failed"), w);
  Store_Fetch := sim_fetch;
  os_MkdirAll := fun _ w => (None, w);
  os_RemoveAll := fun _ w => (None, w);
  os_Open := sim_open;
  os_Create := fun _ w =>
    (if simCreateFails w then Some (ErrExternal "permission denied") else None, w);
  File_ReadFrom := sim_write;
  os_Remove := fun _ w => (None, w);
  os_CreateTemp := fun dir pattern w => (inr (sample_join dir pattern), w);
  io_Copy := fun _ _ w => (None, w);
  snapshot_Restore := fun _ w => (None, w);
  StartEmbeddedEtcd := fun _ w => ((Some (mkEtcd ["localhost:2379"]), None), w);
  Factory_New := fun _ w => (None, w);
  Client_Close := fun _ w => (None, w);
  UpdateMemberPeerURL := fun w => (None, w)
}.

(** A world at revision [rev] with the given files. *)
Definition sim_at (rev : Z) (files : list (string * list byte)) : State Sim :=
  mkState (mkSim rev files false 0 true) [].

(** A blob: the payload followed by its stand-in hash. *)
Definition sample_blob (payload : list byte) : list byte :=
  payload ++ sample_sha payload.

(** A PUT of [key] at revision [rev]. *)
Definition sample_put (key : byte) (rev : Z) : Event :=
  mkEvent (mkEtcdEvent PUT (mkKeyValue [key] [] rev)) "".

Definition sample_snapshot (name : string) (lastRevision : Z) : Snapshot :=
  mkSnapshot "Incr" "" name 0 lastRevision "".

(** Three event lists: revisions 5, 5, 6; revisions 5, 6, 5; revisions
    0, 1. *)
Definition events_5_5_6 : list Event :=
  [sample_put Byte.x61 5; sample_put Byte.x62 5; sample_put Byte.x63 6].

Definition events_5_6_5 : list Event :=
  [sample_put Byte.x61 5; sample_put Byte.x62 6; sample_put Byte.x63 5].

Definition events_0_1 : list Event :=
  [sample_put Byte.x61 0; sample_put Byte.x62 1].

(** A chain of deltas after the first: delta [i] is the file [p<i>], holds
    one event at revision [11 + i], and has that as its last revision. *)
Definition sample_names : list string :=
  ["p0"; "p1"; "p2"; "p3"; "p4"; "p5"; "p6"; "p7"; "p8"; "p9"; "p10"; "p11"].

Definition sample_bytes : list byte :=
  [Byte.x0b; Byte.x0c; Byte.x0d; Byte.x0e; Byte.x0f; Byte.x10;
   Byte.x11; Byte.x12; Byte.x13; Byte.x14; Byte.x15; Byte.x16].

Definition sample_remaining (n : nat) : list Snapshot :=
  zip_with (fun name b => sample_snapshot name (Z.of_N (Byte.to_N b)))
    (take n sample_names) (take n sample_bytes).

Definition sample_files (n : nat) : list (string * list byte) :=
  zip_with (fun name b => (name, sample_blob [b]))
    (take n sample_names) (take n sample_bytes).

(** The message of the fetcher for delta [i]. *)
Definition sample_message (i : nat) : selected :=
  FromApplierInfoCh (mkApplierInfo (nth i sample_names "") (Z.of_nat i)).

(** The default quota of the embedded etcd, 8 GiB, as a [float64]. *)
Definition sample_quota : float64 := float64_of_int 8589934592.

(** The applier on the first [n] deltas of the chain, with the simulated
    etcd at revision 10. *)
Definition sample_applySnaps (n : nat) (input : list selected)
  : outcome applierStatus * State Sim :=
  applySnaps (sample_remaining n) ["localhost:2379"] sample_quota input
    (sim_at 10 (sample_files n)).

Definition sample_url_lib : Types.UrlLib := {|
  Types.NewURLsMap := fun s => if String.eqb s "" then Some "empty" else None;
  Types.NewURLs := fun l => match l with [] => Some "empty" | _ => None end;
  Types.path_Clean := fun s => if String.eqb s "" then "." else s
|}.

Definition sample_config : Types.RestorationConfig :=
  Types.mkRestorationConfig "default=http://localhost:2380" "etcd-cluster"
    "default.etcd" "default.restoration.tmp" "default" "30m" "periodic"
    ["http://localhost:2380"] 10240 10485760 10485760 8589934592 6 false.

(** An event that is neither a PUT nor a DELETE. *)
Definition sample_other (key : byte) (rev : Z) : Event :=
  mkEvent (mkEtcdEvent (EventType_other 2) (mkKeyValue [key] [] rev)) "".

(** A stand-in for [strings.TrimSpace]: it drops one leading line feed. *)
Definition sample_trim (s : string) : string :=
  match s with
  | String "010"%char rest => rest
  | _ => s
  end.

#[export] Instance sample_cleanup_lib : CleanupLib Sim := {
  os_Stat := fun path w =>
    (match sim_lookup path (simFiles w) with
     | Some _ => None
     | None => Some (ErrExternal "no such file")
     end, w);
  os_IsNotExist := fun err =>
    match err with
    | ErrExternal msg => String.eqb msg "no such file"
    | _ => false
    end;
  error_Error := fun err =>
    match err with
    | ErrExternal msg => msg
    | _ => "error"
    end;
  strings_TrimSpace := sample_trim
}.

(** Stopping the simulated etcd empties its database. *)
#[export] Instance sample_embedded_etcd : EmbeddedEtcd Sim := {
  Server_Stop := fun _ w =>
    mkSim (simRevision w) (simFiles w) (simCreateFails w) 0 (simDefragOk w);
  Etcd_Close := fun _ w => w
}.

(** Options with the default configuration, a base snapshot and deltas. *)
Definition sample_options (base : string) (deltas : list Snapshot)
  : RestoreOptions :=
  mkRestoreOptions sample_config [] (sample_snapshot base 5) [] deltas 1.

(** The concurrent phase left out: it hands back nil at once. *)
Definition sample_pipeline
  : list Snapshot -> list string -> float64 ->
    State Sim -> option error * State Sim :=
  fun _ _ _ s => (None, s).

(** The world and the options of a restoration from the base snapshot
    [base] and one delta [d0] with events at revisions 5, 6 and 7. *)
Definition sample_restore_world : State Sim :=
  sim_at 5 [("base", [Byte.x00]);
            ("d0", sample_blob [Byte.x05; Byte.x06; Byte.x07])].

Definition sample_restore_options : RestoreOptions :=
  sample_options "base" [sample_snapshot "d0" 7].

(** What a fetcher finds on [fetcherInfoCh]: two deltas, and then [stopCh]
    closed before the third. *)
Definition sample_work : list (bool * FetcherInfo) :=
  [(false, mkFetcherInfo (sample_snapshot "p0" 11) 0);
   (false, mkFetcherInfo (sample_snapshot "p1" 12) 1);
   (true, mkFetcherInfo (sample_snapshot "p2" 13) 2)].

(** What the alarm handler receives: two alarms, the stop, and one alarm
    more. *)
Definition sample_alarms : list alarmSelected :=
  [FromDbSizeAlarmCh "a"; FromDbSizeAlarmCh "b"; FromStopHandleAlarmCh;
   FromDbSizeAlarmCh "c"].

(** A concurrent phase that fails at once. *)
Definition sample_failing_pipeline
  : list Snapshot -> list string -> float64 ->
    State Sim -> option error * State Sim :=
  fun _ _ _ s => (Some ErrUnexpectedEventType, s).

End Sample.

(* ================================================================= *)
(** ** Reading a run

    Functions on traces and event lists in which the properties below are
    stated. *)

Module Run.

Import Restorer.

(** The revision of an event. *)
Definition revOf (e : Event) : Z := ModRevision (Kv (EtcdEvent e)).

(** The batch of a commit that succeeded. *)
Definition committedBatch (o : Obs) : option (list Op) :=
  match o with
  | ObsTxnCommit ops None => Some ops
  | _ => None
  end.

(** The batches of the transactions committed with success, in order. *)
Definition committedTxns (tr : list Obs) : list (list Op) :=
  omap committedBatch tr.

(** A commit of [ops] that succeeded, as it shows in the trace. *)
Definition okCommit (ops : list Op) : Obs := ObsTxnCommit ops None.

(** The index of the transaction that holds the [k]-th operation of the
    run, counting operations across the transactions in order. *)
Fixpoint txnIndexOf (txns : list (list Op)) (k : nat) : option nat :=
  match txns with
  | [] => None
  | batch :: txns' =>
      if (k <? length batch)%nat then Some 0%nat
      else option_map S (txnIndexOf txns' (k - length batch))
  end.

(** The test of [applyEventsToEtcd] that ends a batch: the last revision
    seen is not 0 and the next one is above it. *)
Definition startsNewTxn (lastRev nextRev : Z) : bool :=
  negb (lastRev =? 0) && (nextRev >? lastRev).

(** The number of batches ended up to and including event [i], when the
    loop is entered with [lastRev]: the number of pairs of neighbours, up
    to event [i], that pass the test. *)
Fixpoint txnsEndedBy (lastRev : Z) (events : list Event) (i : nat) : nat :=
  match events with
  | [] => 0
  | e :: events' =>
      (if startsNewTxn lastRev (revOf e) then 1 else 0) +
      match i with
      | O => 0
      | S i' => txnsEndedBy (revOf e) events' i'
      end
  end%nat.

(** The batches [applyEventsToEtcd] commits from [lastRev] and the pending
    [ops] when every event is a PUT or a DELETE and no commit fails. *)
Fixpoint batchesFrom (events : list Event) (lastRev : Z) (ops : list Op)
  : list (list Op) :=
  match events with
  | [] => [ops]
  | e :: events' =>
      match opOfEvent e with
      | None => []
      | Some op =>
          if startsNewTxn lastRev (revOf e)
          then ops :: batchesFrom events' (revOf e) [op]
          else batchesFrom events' (revOf e) (ops ++ [op])
      end
  end.

(** The index of the delta a log line announces. *)
Definition appliedIndex (o : Obs) : option Z :=
  match o with
  | ObsLogApplying i => Some i
  | _ => None
  end.

(** The deltas the applier announced, in order. *)
Definition appliedIndices (tr : list Obs) : list Z := omap appliedIndex tr.

(** The value of a send on [errCh]. *)
Definition errChSend (o : Obs) : option (option error) :=
  match o with
  | ObsErrCh e => Some e
  | _ => None
  end.

(** What was sent on [errCh], in order. *)
Definition errChSends (tr : list Obs) : list (option error) := omap errChSend tr.

(** The revision of a call to [Compact]. *)
Definition compaction (o : Obs) : option Z :=
  match o with
  | ObsCompact rev _ => Some rev
  | _ => None
  end.

(** The revisions at which a compaction was asked for, in order. *)
Definition compactions (tr : list Obs) : list Z := omap compaction tr.

(** The endpoint of a send on [dbSizeAlarmCh]. *)
Definition alarmRaised (o : Obs) : option string :=
  match o with
  | ObsAlarmCh ep => Some ep
  | _ => None
  end.

(** The endpoints sent on [dbSizeAlarmCh], in order. *)
Definition alarmsRaised (tr : list Obs) : list string := omap alarmRaised tr.

(** The start of the embedded etcd. *)
Definition etcdStart (o : Obs) : option unit :=
  match o with
  | ObsStartEmbeddedEtcd => Some tt
  | _ => None
  end.

(** The starts of the embedded etcd. *)
Definition etcdStarts (tr : list Obs) : list unit := omap etcdStart tr.

(** What the trace shows of the alarm raised for one endpoint: the send on
    [dbSizeAlarmCh], the defragmentation [HandleAlarm] runs, its answer on
    [dbSizeAlarmDisarmCh] and, after the answer true, the status asked for
    the log. *)
Definition alarmRound (endPoint : string)
  (round : option error * (error + StatusResponse)) : list Obs :=
  match round with
  | (None, after) =>
      [ObsAlarmCh endPoint; ObsDefragment endPoint None; ObsDisarmCh true;
       ObsStatus endPoint after]
  | (Some err, _) =>
      [ObsAlarmCh endPoint; ObsDefragment endPoint (Some err); ObsDisarmCh false]
  end.

(** Whatever [m] does, it only adds observations that satisfy [P]. *)
Definition emits {W : Type} (P : Obs -> Prop) {A : Type} (m : M W A) : Prop :=
  forall s : State W, exists tr : list Obs,
    trace (snd (m s)) = trace s ++ tr /\ Forall P tr.

(** [m] never panics. *)
Definition safe {W A : Type} (m : M W A) : Prop :=
  forall (s : State W) (msg : string), fst (m s) <> Panic msg.

(** The observations of calls on the KV client made when applying. *)
Definition kvCall (o : Obs) : Prop :=
  match o with
  | ObsTxnCommit _ _ | ObsGet _ _ _ => True
  | _ => False
  end.

(** Observations that are neither a log line of the applier, nor a send on
    [errCh], nor a compaction. *)
Definition silent (o : Obs) : Prop :=
  appliedIndex o = None /\ errChSend o = None /\ compaction o = None.

(** Whether the lean-keeper is due once the counter has become [applied],
    with the retry flag [prev]. *)
Definition leanDue (applied : Z) (prev : bool) : bool :=
  (Z.rem applied periodicallyMakeEtcdLeanDeltaSnapshotInterval =? 0) || prev.

(** The path of a send on [snapLocationsCh]. *)
Definition snapLocationSent (o : Obs) : option string :=
  match o with
  | ObsSnapLocationsCh p => Some p
  | _ => None
  end.

(** The paths sent on [snapLocationsCh], in order. *)
Definition snapLocationsSent (tr : list Obs) : list string := omap snapLocationSent tr.

(** The value of a send on [applierInfoCh]. *)
Definition applierInfoSent (o : Obs) : option ApplierInfo :=
  match o with
  | ObsApplierInfoCh info => Some info
  | _ => None
  end.

(** What was sent on [applierInfoCh], in order. *)
Definition applierInfosSent (tr : list Obs) : list ApplierInfo := omap applierInfoSent tr.

(** The path of a call to [os.Open], and of a call to [os.Remove]. *)
Definition opened (o : Obs) : option string :=
  match o with
  | ObsOpen p => Some p
  | _ => None
  end.

Definition removed (o : Obs) : option string :=
  match o with
  | ObsRemove p => Some p
  | _ => None
  end.

(** The files opened and the files removed, in order. *)
Definition filesOpened (tr : list Obs) : list string := omap opened tr.
Definition filesRemoved (tr : list Obs) : list string := omap removed tr.

(** A call of [Commit], whatever its result. *)
Definition isCommit (o : Obs) : Prop :=
  match o with
  | ObsTxnCommit _ _ => True
  | _ => False
  end.

(** The endpoint and the result of a call to [Defragment]. *)
Definition defragmentation (o : Obs) : option (string * option error) :=
  match o with
  | ObsDefragment ep res => Some (ep, res)
  | _ => None
  end.

(** The defragmentations, in order. *)
Definition defragmentations (tr : list Obs) : list (string * option error) :=
  omap defragmentation tr.

(** The value of a send on [dbSizeAlarmDisarmCh]. *)
Definition disarmSent (o : Obs) : option bool :=
  match o with
  | ObsDisarmCh ok => Some ok
  | _ => None
  end.

(** The answers sent on [dbSizeAlarmDisarmCh], in order. *)
Definition disarmsSent (tr : list Obs) : list bool := omap disarmSent tr.

(** The endpoints [HandleAlarm] receives before it is told to stop. *)
Fixpoint alarmsBeforeStop (input : list alarmSelected) : list string :=
  match input with
  | [] => []
  | FromStopHandleAlarmCh :: _ => []
  | FromDbSizeAlarmCh endPoint :: input' => endPoint :: alarmsBeforeStop input'
  end.

(** The work a fetcher takes before it finds [stopCh] closed. *)
Fixpoint fetched (work : list (bool * FetcherInfo)) : list FetcherInfo :=
  match work with
  | [] => []
  | (stopClosed, fetcherInfo) :: work' =>
      if stopClosed then [] else fetcherInfo :: fetched work'
  end.

(** The paths [cleanup] asks [os.Stat] about, and the paths it hands to
    [os.Remove]. *)
Definition statted (c : cleanupCall) : option string :=
  match c with
  | CallStat p _ => Some p
  | CallRemove _ _ => None
  end.

Definition cleanupRemoved (c : cleanupCall) : option string :=
  match c with
  | CallStat _ _ => None
  | CallRemove p _ => Some p
  end.

(** The paths [os.Stat] found. *)
Definition foundByStat (c : cleanupCall) : option string :=
  match c with
  | CallStat p None => Some p
  | _ => None
  end.

(** The error [cleanup] keeps for a call that went wrong: a [Stat] that
    failed otherwise than for a missing file, or a [Remove] that failed. *)
Definition cleanupErrorOf {W : Type} {C : CleanupLib W} (c : cleanupCall)
  : option cleanupError :=
  match c with
  | CallStat p (Some err) =>
      if negb (os_IsNotExist err) then Some (ErrUnableToStat p err) else None
  | CallRemove p (Some err) => Some (ErrUnableToRemove p err)
  | _ => None
  end.

(** The messages of a list of errors, each after a line feed. *)
Definition joinedMessages {A : Type} (Error : A -> string) (errs : list A)
  : string :=
  fold_right (fun e rest => (newline ++ Error e ++ rest)%string) "" errs.

(** The path a fetcher persists a delta to, and the message it sends to the
    applier for it. *)
Definition snapTempFilePathOf {G : GoLib} (tempDir : string)
  (fetcherInfo : FetcherInfo) : string :=
  filepath_Join tempDir (SnapName (fiSnapshot fetcherInfo)).

Definition applierInfoOf {G : GoLib} (tempDir : string)
  (fetcherInfo : FetcherInfo) : ApplierInfo :=
  mkApplierInfo (snapTempFilePathOf tempDir fetcherInfo) (fiSnapIndex fetcherInfo).

(** A commit whose operations are of the batch [ops] or of [events]. *)
Definition commitsFrom (ops : list Op) (events : list Event) (o : Obs) : Prop :=
  exists (batch : list Op) (res : option error),
    o = ObsTxnCommit batch res /\
    forall op, op ∈ batch ->
      op ∈ ops \/ exists e, e ∈ events /\ opOfEvent e = Some op.

(** Whether [HandleAlarm] is told to stop by what it receives. *)
Fixpoint toldToStop (input : list alarmSelected) : bool :=
  match input with
  | [] => false
  | FromStopHandleAlarmCh :: _ => true
  | FromDbSizeAlarmCh _ :: input' => toldToStop input'
  end.

(** What the trace shows of [HandleAlarm] answering one alarm: the
    defragmentation and the answer on [dbSizeAlarmDisarmCh], true when the
    defragmentation returned nil. *)
Definition disarmRound (endPoint : string) (res : option error) : list Obs :=
  [ObsDefragment endPoint res;
   ObsDisarmCh (match res with None => true | Some _ => false end)].

(** The configuration [restoreFromBaseSnapshot] hands to etcd's snapshot
    restore for the temporary file [db]. *)
Definition restoreCfgOf (ro : RestoreOptions) (db : string) : RestoreConfig :=
  mkRestoreConfig db (Types.Name (Config ro)) (PeerURLs ro)
    (Types.InitialCluster (Config ro)) (Types.InitialClusterToken (Config ro))
    (Types.DataDir (Config ro)) (Types.SkipHashCheck (Config ro)).

(** The observations of the lean-keeper: the compaction, the status
    queries, and the rounds of the alarm. *)
Definition leanObs (o : Obs) : Prop :=
  match o with
  | ObsCompact _ _ | ObsStatus _ _ | ObsAlarmCh _ | ObsDefragment _ _
  | ObsDisarmCh _ => True
  | _ => False
  end.

(** Observations that are neither the opening nor the removal of a file nor
    a send on [errCh]. *)
Definition offFiles (o : Obs) : Prop :=
  opened o = None /\ removed o = None /\ errChSend o = None.

(** Every file opened is removed again ([tidy]), or every file but the
    last one opened ([oneLeft]). *)
Definition tidy (tr : list Obs) : Prop := filesRemoved tr = filesOpened tr.

Definition oneLeft (tr : list Obs) : Prop :=
  exists p, filesOpened tr = filesRemoved tr ++ [p].

(** What is left of the files when the applier has stopped: nothing, or
    the file of the delta for which it sent an error. *)
Definition tidyOrFailed (tr : list Obs) : Prop :=
  tidy tr \/ (oneLeft tr /\ exists err, errChSends tr = [Some err]).

Section Turns.

Context {G : GoLib} {W : Type} {E : Env W}.

Variable remainingSnaps : list Snapshot.
Variable endPoints : list string.
Variable embeddedEtcdQuotaBytes : float64.

(** What [applierInfoCh] and [stopCh] deliver to the applier. *)
Variable input : list selected.

(** The path [filePath] has come on [applierInfoCh] for the delta [i]. *)
Definition received (i : Z) (filePath : string) : Prop :=
  FromApplierInfoCh (mkApplierInfo filePath i) ∈ input.

(** The deltas [i], ..., [j - 1] applied in a row, each without error and
    none of them the last one.  The turn of the loop for a delta runs the
    body of the loop on a path received for that delta and on the handle
    of that delta in [remainingSnaps], with [nextSnapIndexToApply] at the
    index of the delta, and from the state, the counter and the retry flag
    the turn before has left. *)
Inductive turns
  : Z -> Z -> bool -> State W -> Z -> Z -> bool -> State W -> Prop :=
| turns_nil (i counter : Z) (failed : bool) (s : State W) :
    turns i counter failed s i counter failed s
| turns_cons (i counter : Z) (failed : bool) (s : State W)
    (filePath : string) (snap : Snapshot) (paths : list string)
    (a1 : applier) (s1 : State W)
    (j counter' : Z) (failed' : bool) (s' : State W) :
    received i filePath -> filePath <> "" ->
    0 <= i -> remainingSnaps !! Z.to_nat i = Some snap ->
    applySnaps_body remainingSnaps endPoints embeddedEtcdQuotaBytes
      i snap filePath (mkApplier paths i counter failed) s
    = (Ok (Continue a1), s1) ->
    turns (i + 1) (numberOfDeltaSnapApplied a1)
      (prevAttemptToMakeEtcdLeanFailed a1) s1 j counter' failed' s' ->
    turns i counter failed s j counter' failed' s'.

(** How the applier ends once it has applied the deltas below [j] and is
    in the state [mid]: it waits in the [select]; or it has returned or
    panicked with nothing done since (the closing of [stopCh], the
    sentinel, an index out of range); or it has sent the ordering error
    for an index below [j]; or the body of the loop on the delta [j], on a
    path received for it and on its handle, has returned or panicked. *)
Definition ending (j counter : Z) (failed : bool) (mid : State W)
  (r : outcome applierStatus) (s' : State W) : Prop :=
  match r with
  | Ok (Waiting a) =>
      s' = mid /\ nextSnapIndexToApply a = j /\
      numberOfDeltaSnapApplied a = counter /\
      prevAttemptToMakeEtcdLeanFailed a = failed
  | _ =>
      s' = mid \/
      (exists idx : Z,
          0 <= idx < j /\ r = Ok Returned /\
          s' = mkState (world mid)
                 (trace mid ++ [ObsErrCh (Some (ErrSnapIndexMismatch idx j))])) \/
      (exists (filePath : string) (snap : Snapshot) (paths : list string)
              (r0 : outcome flow),
          received j filePath /\ filePath <> "" /\
          remainingSnaps !! Z.to_nat j = Some snap /\
          applySnaps_body remainingSnaps endPoints embeddedEtcdQuotaBytes
            j snap filePath (mkApplier paths j counter failed) mid
          = (r0, s') /\
          match r0 with
          | Ok (Continue _) => False
          | Ok Return_ => r = Ok Returned
          | Panic msg => r = Panic msg
          end)
  end.

End Turns.

End Run.

(* ================================================================= *)
(** ** Package [types]: deep copies

    [DeepCopy] and its companions are about what two values share, so they
    are embedded over a memory.  A pointer is the index of a cell of the
    heap; [new], [make] and a variable whose address is taken add a cell at
    the end, and nothing is ever freed.  A slice is its backing array, the
    offset of its first element and its length; the nil slice and the nil
    pointer are [None].  The dereference of nil and an index out of range
    are panics. *)

Module Memory.

Import Restorer.

Definition ptr : Type := nat.

Record slice : Type := mkSlice {
  sArray : ptr;
  sOffset : nat;
  sLen : nat
}.

(** [len] of a slice that may be nil. *)
Definition len (sl : option slice) : nat :=
  match sl with
  | None => 0%nat
  | Some sl => sLen sl
  end.

(** [url.Userinfo] and [url.URL] of the Go library. *)
Record Userinfo : Type := mkUserinfo {
  username : string;
  password : string;
  passwordSet : bool
}.

Record URL : Type := mkURL {
  Scheme : string;
  Opaque : string;
  User : option ptr;
  Host : string;
  Path : string;
  RawPath : string;
  ForceQuery : bool;
  RawQuery : string;
  Fragment : string
}.

(** [RestorationConfig] as it lies in memory: the field
    [InitialAdvertisePeerURLs] is a slice, every other field a value. *)
Record RestorationConfigMem : Type := mkRestorationConfigMem {
  mInitialCluster : string;
  mInitialClusterToken : string;
  mDataDir : string;
  mTempSnapshotsDir : string;
  mName : string;
  mAutoCompactionRetention : string;
  mAutoCompactionMode : string;
  mInitialAdvertisePeerURLs : option slice;
  mMaxTxnOps : Z;
  mMaxRequestBytes : Z;
  mMaxCallSendMsgSize : Z;
  mEmbeddedEtcdQuotaBytes : Z;
  mMaxFetchers : Z;
  mSkipHashCheck : bool
}.

(** The cells of the heap. *)
Inductive Cell : Type :=
| StringArray (elems : list string)
| URLArray (elems : list URL)
| SnapshotPtrArray (elems : list (option ptr))
| URLCell (u : URL)
| UserinfoCell (u : Userinfo)
| SnapshotCell (snap : Snapshot)
| ConfigCell (c : RestorationConfigMem).

Definition Heap : Type := list Cell.

(** The zero values [new] and [make] fill in. *)
Definition zeroURL : URL := mkURL "" "" None "" "" "" false "" "".
Definition zeroUserinfo : Userinfo := mkUserinfo "" "" false.
Definition zeroConfig : RestorationConfigMem :=
  mkRestorationConfigMem "" "" "" "" "" "" "" None 0 0 0 0 0 false.

(** Computations on the heap that may panic ([None]). *)
Definition H (A : Type) : Type := Heap -> option (A * Heap).

Definition hret {A} (a : A) : H A := fun h => Some (a, h).

Definition hbind {A B} (m : H A) (k : A -> H B) : H B :=
  fun h =>
    match m h with
    | Some (a, h') => k a h'
    | None => None
    end.

Definition hpanic {A} : H A := fun _ => None.

Declare Scope heap_scope.
Delimit Scope heap_scope with heap.
Notation "x <- m ;; k" := (hbind m (fun x => k))
  (at level 20, m at level 99, k at level 200, only parsing) : heap_scope.
Notation "m ;;; k" := (hbind m (fun _ => k))
  (at level 100, k at level 200, right associativity, only parsing) : heap_scope.
Local Open Scope heap_scope.

(** [new(T)], [make] of one array, a variable whose address is taken. *)
Definition alloc (c : Cell) : H ptr := fun h => Some (length h, h ++ [c]).

Definition load (p : ptr) : H Cell :=
  fun h =>
    match h !! p with
    | Some c => Some (c, h)
    | None => None
    end.

Definition store (p : ptr) (c : Cell) : H unit :=
  fun h => if (p <? length h)%nat then Some (tt, <[p := c]> h) else None.

Definition loadConfig (p : ptr) : H RestorationConfigMem :=
  c <- load p ;;
  match c with
  | ConfigCell v => hret v
  | _ => hpanic
  end.

Definition loadURL (p : ptr) : H URL :=
  c <- load p ;;
  match c with
  | URLCell v => hret v
  | _ => hpanic
  end.

Definition loadSnapshot (p : ptr) : H Snapshot :=
  c <- load p ;;
  match c with
  | SnapshotCell v => hret v
  | _ => hpanic
  end.

(** The elements of a slice: [len] elements of its array from its offset. *)
Definition window {A : Type} (sl : slice) (elems : list A) : option (list A) :=
  if (sOffset sl + sLen sl <=? length elems)%nat
  then Some (take (sLen sl) (drop (sOffset sl) elems))
  else None.

(** [copy(dst, src)] on the arrays: the first [min(len(dst), len(src))]
    elements of [src] overwrite those of [dst]. *)
Definition overwrite {A : Type} (dst : slice) (vals elems : list A) : list A :=
  let n := Nat.min (sLen dst) (length vals) in
  take (sOffset dst) elems ++ take n vals ++ drop (sOffset dst + n) elems.

Definition readStrings (sl : option slice) : H (list string) :=
  match sl with
  | None => hret []
  | Some sl =>
      c <- load (sArray sl) ;;
      match c with
      | StringArray elems =>
          match window sl elems with
          | Some vals => hret vals
          | None => hpanic
          end
      | _ => hpanic
      end
  end.

Definition copyStrings (dst src : option slice) : H unit :=
  vals <- readStrings src ;;
  match dst with
  | None => hret tt
  | Some dst =>
      c <- load (sArray dst) ;;
      match c with
      | StringArray elems => store (sArray dst) (StringArray (overwrite dst vals elems))
      | _ => hpanic
      end
  end.

Definition readURLs (sl : option slice) : H (list URL) :=
  match sl with
  | None => hret []
  | Some sl =>
      c <- load (sArray sl) ;;
      match c with
      | URLArray elems =>
          match window sl elems with
          | Some vals => hret vals
          | None => hpanic
          end
      | _ => hpanic
      end
  end.

Definition readSnapshotPtrs (sl : option slice) : H (list (option ptr)) :=
  match sl with
  | None => hret []
  | Some sl =>
      c <- load (sArray sl) ;;
      match c with
      | SnapshotPtrArray elems =>
          match window sl elems with
          | Some vals => hret vals
          | None => hpanic
          end
      | _ => hpanic
      end
  end.

(** [out[i] = v] for a slice of URLs, and for a slice of snapshot
    pointers. *)
Definition setURL (out : slice) (i : nat) (v : URL) : H unit :=
  c <- load (sArray out) ;;
  match c with
  | URLArray elems =>
      if (i <? sLen out)%nat && (sOffset out + i <? length elems)%nat
      then store (sArray out) (URLArray (<[(sOffset out + i)%nat := v]> elems))
      else hpanic
  | _ => hpanic
  end.

Definition setSnapshotPtr (out : slice) (i : nat) (v : option ptr) : H unit :=
  c <- load (sArray out) ;;
  match c with
  | SnapshotPtrArray elems =>
      if (i <? sLen out)%nat && (sOffset out + i <? length elems)%nat
      then store (sArray out) (SnapshotPtrArray (<[(sOffset out + i)%nat := v]> elems))
      else hpanic
  | _ => hpanic
  end.

(** The assignment to the field [InitialAdvertisePeerURLs] and to the field
    [User]. *)
Definition withPeerURLs (c : RestorationConfigMem) (sl : option slice)
  : RestorationConfigMem :=
  mkRestorationConfigMem (mInitialCluster c) (mInitialClusterToken c)
    (mDataDir c) (mTempSnapshotsDir c) (mName c) (mAutoCompactionRetention c)
    (mAutoCompactionMode c) sl (mMaxTxnOps c) (mMaxRequestBytes c)
    (mMaxCallSendMsgSize c) (mEmbeddedEtcdQuotaBytes c) (mMaxFetchers c)
    (mSkipHashCheck c).

Definition withUser (u : URL) (user : option ptr) : URL :=
  mkURL (Scheme u) (Opaque u) user (Host u) (Path u) (RawPath u)
    (ForceQuery u) (RawQuery u) (Fragment u).

(** [func (c *RestorationConfig) DeepCopyInto(out *RestorationConfig)].
    Every read of [*c] and of [*out] goes to the heap, as [c] and [out]
    may be one pointer. *)
Definition RestorationConfig_DeepCopyInto (c out : ptr) : H unit :=
  cv <- loadConfig c ;;
  store out (ConfigCell cv) ;;;
  cv <- loadConfig c ;;
  match mInitialAdvertisePeerURLs cv with
  | None => hret tt
  | Some src =>
      arr <- alloc (StringArray (replicate (sLen src) "")) ;;
      ov <- loadConfig out ;;
      store out (ConfigCell (withPeerURLs ov (Some (mkSlice arr 0 (sLen src))))) ;;;
      ov <- loadConfig out ;;
      cv <- loadConfig c ;;
      copyStrings (mInitialAdvertisePeerURLs ov) (mInitialAdvertisePeerURLs cv)
  end.

(** [func (c *RestorationConfig) DeepCopy() *RestorationConfig]. *)
Definition RestorationConfig_DeepCopy (c : option ptr) : H (option ptr) :=
  match c with
  | None => hret None
  | Some c =>
      out <- alloc (ConfigCell zeroConfig) ;;
      RestorationConfig_DeepCopyInto c out ;;;
      hret (Some out)
  end.

(** [DeepCopyURL]: [in] and [out] in the branch are pointers to the fields
    [User], so [*out = *in] copies the pointer held in the field. *)
Definition DeepCopyURL (in_ : ptr) : H ptr :=
  out <- alloc (URLCell zeroURL) ;;
  u <- loadURL in_ ;;
  store out (URLCell u) ;;;
  u <- loadURL in_ ;;
  match User u with
  | None => hret out
  | Some _ =>
      user <- alloc (UserinfoCell zeroUserinfo) ;;
      o <- loadURL out ;;
      store out (URLCell (withUser o (Some user))) ;;;
      u <- loadURL in_ ;;
      o <- loadURL out ;;
      store out (URLCell (withUser o (User u))) ;;;
      hret out
  end.

(** The loop of [DeepCopyURLs] from index [i]: [u] is the variable of the
    [range], whose address is taken. *)
Fixpoint DeepCopyURLs_range (out : slice) (i : nat) (elems : list URL) : H unit :=
  match elems with
  | [] => hret tt
  | u :: elems' =>
      pu <- alloc (URLCell u) ;;
      copied <- DeepCopyURL pu ;;
      v <- loadURL copied ;;
      setURL out i v ;;;
      DeepCopyURLs_range out (S i) elems'
  end.

(** [DeepCopyURLs]. *)
Definition DeepCopyURLs (in_ : option slice) : H (option slice) :=
  arr <- alloc (URLArray (replicate (len in_) zeroURL)) ;;
  let out := mkSlice arr 0 (len in_) in
  elems <- readURLs in_ ;;
  DeepCopyURLs_range out 0 elems ;;;
  hret (Some out).

(** The loop of [DeepCopySnapList] from index [i]: [cpv] is a variable of
    its own for every element that is not nil. *)
Fixpoint DeepCopySnapList_range (out : slice) (i : nat)
  (elems : list (option ptr)) : H unit :=
  match elems with
  | [] => hret tt
  | v :: elems' =>
      (match v with
       | None => hret tt
       | Some v =>
           snap <- loadSnapshot v ;;
           cpv <- alloc (SnapshotCell snap) ;;
           setSnapshotPtr out i (Some cpv)
       end) ;;;
      DeepCopySnapList_range out (S i) elems'
  end.

(** [DeepCopySnapList]. *)
Definition DeepCopySnapList (in_ : option slice) : H (option slice) :=
  arr <- alloc (SnapshotPtrArray (replicate (len in_) None)) ;;
  let out := mkSlice arr 0 (len in_) in
  elems <- readSnapshotPtrs in_ ;;
  DeepCopySnapList_range out 0 elems ;;;
  hret (Some out).

(** What a pointer to a configuration stands for: the configuration with
    the peer URLs read from its slice. *)
Definition configAt (h : Heap) (p : ptr) : option Types.RestorationConfig :=
  match h !! p with
  | Some (ConfigCell c) =>
      match readStrings (mInitialAdvertisePeerURLs c) h with
      | Some (urls, _) =>
          Some (Types.mkRestorationConfig (mInitialCluster c)
                  (mInitialClusterToken c) (mDataDir c) (mTempSnapshotsDir c)
                  (mName c) (mAutoCompactionRetention c) (mAutoCompactionMode c)
                  urls (mMaxTxnOps c) (mMaxRequestBytes c)
                  (mMaxCallSendMsgSize c) (mEmbeddedEtcdQuotaBytes c)
                  (mMaxFetchers c) (mSkipHashCheck c))
      | None => None
      end
  | _ => None
  end.

(** The slice of the peer URLs of the configuration at [p]. *)
Definition peerURLsAt (h : Heap) (p : ptr) : option slice :=
  match h !! p with
  | Some (ConfigCell c) => mInitialAdvertisePeerURLs c
  | _ => None
  end.

(** Two heaps agree below [n]. *)
Definition agreeBelow (n : nat) (h h' : Heap) : Prop :=
  forall p : ptr, (p < n)%nat -> h' !! p = h !! p.

(** The URLs and the snapshot pointers a slice holds. *)
Definition urlsAt (h : Heap) (sl : option slice) : option (list URL) :=
  option_map fst (readURLs sl h).

Definition snapshotPtrsAt (h : Heap) (sl : option slice)
  : option (list (option ptr)) :=
  option_map fst (readSnapshotPtrs sl h).

Definition snapshotAt (h : Heap) (p : ptr) : option Snapshot :=
  match h !! p with
  | Some (SnapshotCell snap) => Some snap
  | _ => None
  end.

(** A small memory: the array of the peer URLs of the configuration in
    cell 1, a [Userinfo], a URL with that [Userinfo], an array of two URLs,
    a snapshot, and an array of snapshot pointers that holds the snapshot
    twice and nil once. *)
Definition sample_url (host : string) (user : option ptr) : URL :=
  mkURL "http" "" user host "" "" false "" "".

Definition sample_heap : Heap :=
  [StringArray ["http://a:2380"; "http://b:2380"];
   ConfigCell (mkRestorationConfigMem "a=http://a:2380" "token" "a.etcd"
                 "a.tmp" "a" "30m" "periodic" (Some (mkSlice 0%nat 0%nat 2%nat))
                 10240 10485760 10485760 8589934592 6 false);
   UserinfoCell (mkUserinfo "root" "secret" true);
   URLCell (sample_url "a:2380" (Some 2%nat));
   URLArray [sample_url "a:2380" (Some 2%nat); sample_url "b:2380" None];
   SnapshotCell (mkSnapshot "Incr" "" "d0" 0 7 "");
   SnapshotPtrArray [Some 5%nat; None; Some 5%nat]].

End Memory.
(* ================================================================= *)
(** * Properties *)

Import Restorer.
Local Open Scope go_scope.

(* ----------------------------------------------------------------- *)
(** ** The configuration *)

Section ValidateFacts.

Context {L : Types.UrlLib}.

(** C10.  When [Validate] returns nil, the configuration it leaves behind
    has [DataDir] and [TempSnapshotsDir] replaced by their [path.Clean]
    forms and every other field as it was; when it returns an error, the
    configuration is the one it was given. *)
Theorem Validate_frame (c : Types.RestorationConfig) :
  match snd (Types.Validate c) with
  | None =>
      Types.DataDir (fst (Types.Validate c)) = Types.path_Clean (Types.DataDir c) /\
      Types.TempSnapshotsDir (fst (Types.Validate c))
        = Types.path_Clean (Types.TempSnapshotsDir c) /\
      Types.same_other_fields c (fst (Types.Validate c))
  | Some _ => fst (Types.Validate c) = c
  end.
Proof.
  unfold Types.Validate.
  destruct (Types.NewURLsMap _); [reflexivity|].
  destruct (Types.NewURLs _); [reflexivity|].
  repeat match goal with
         | |- context [if ?b then _ else _] => destruct b; [reflexivity|]
         end.
  cbn. unfold Types.same_other_fields. cbn. tauto.
Qed.

End ValidateFacts.

(* ----------------------------------------------------------------- *)
(** ** The integrity reader *)

Section IntegrityFacts.

Context {G : GoLib}.

(** C4.  Let [rc'] be the stream after the optional decompression and
    [buf] the bytes read from it.  With at most 32 bytes the reader fails
    for want of a hash.  With more, it splits [buf] into the payload
    [buf[:len-32]] and the hash [buf[len-32:]]; it fails exactly when the
    SHA-256 of the payload is not that hash, with the mismatch error, and
    otherwise returns the payload and nothing else. *)
Theorem readSnapshotContents_integrity (rc rc' : ReadCloser) (snap : Snapshot)
  (wasCompressed : bool) (compressionPolicy : string) :
  getNormalizedSnapshotReadCloser rc snap
    = (rc', wasCompressed, compressionPolicy, None) ->
  rcReadErr rc' = None ->
  let buf := rcBytes rc' in
  let payload := take (length buf - 32) buf in
  let trailing := drop (length buf - 32) buf in
  ((length buf <= 32)%nat ->
     readSnapshotContentsFromReadCloser rc snap = inl ErrMissingHash) /\
  ((32 < length buf)%nat ->
     ((exists err, readSnapshotContentsFromReadCloser rc snap = inl err)
        <-> sha256_Sum payload <> trailing) /\
     (sha256_Sum payload <> trailing ->
        readSnapshotContentsFromReadCloser rc snap
          = inl (ErrShaMismatch trailing (sha256_Sum payload))) /\
     (sha256_Sum payload = trailing ->
        readSnapshotContentsFromReadCloser rc snap = inr payload)).
Proof.
  intros Hnorm Hread buf payload trailing.
  unfold readSnapshotContentsFromReadCloser. rewrite Hnorm, Hread.
  fold buf. unfold sha256_Size.
  split.
  - intros Hlen. destruct (Z.leb_spec (Z.of_nat (length buf)) 32); [reflexivity | lia].
  - intros Hlen.
    destruct (Z.leb_spec (Z.of_nat (length buf)) 32); [lia|].
    replace (Z.to_nat (Z.of_nat (length buf) - 32)) with (length buf - 32)%nat by lia.
    fold payload trailing.
    destruct (bool_decide_reflect (trailing = sha256_Sum payload)) as [Heq | Hne].
    + repeat split.
      * intros [err Herr]. discriminate.
      * intros Hne. congruence.
      * intros Hne. congruence.
    + repeat split.
      * intros _ Heq. congruence.
      * intros _. eauto.
      * intros Heq. congruence.
Qed.

End IntegrityFacts.


(* ----------------------------------------------------------------- *)
(** ** Events into transactions *)

Import Run.

Section ApplyFacts.

Context {G : GoLib} {W : Type} {E : Env W}.

Lemma applyEventsToEtcd_loop_ok (events : list Event) :
  forall (lastRev : Z) (ops : list Op) (s s' : State W),
    applyEventsToEtcd_loop events lastRev ops s = (Ok None, s') ->
    Forall (fun e => opOfEvent e <> None) events /\
    trace s' = trace s ++ map okCommit (batchesFrom events lastRev ops).
Proof.
  induction events as [|e events IH]; intros lastRev ops s s' Hrun; cbn in Hrun.
  - unfold Txn_Then_Commit, call in Hrun.
    destruct (KV_Txn_Commit ops (world s)) as [err w] eqn:Hc.
    inversion Hrun; subst. split; [constructor | reflexivity].
  - unfold bind in Hrun. cbn [batchesFrom]. unfold startsNewTxn, revOf.
    destruct (negb (lastRev =? 0) && (ModRevision (Kv (EtcdEvent e)) >? lastRev)) eqn:Hnew.
    + unfold Txn_Then_Commit, call, ret in Hrun.
      destruct (KV_Txn_Commit ops (world s)) as [[err|] w] eqn:Hc; [discriminate|].
      destruct (opOfEvent e) as [op|] eqn:Hop; [|discriminate].
      apply IH in Hrun as [Hall Htr]. split.
      * constructor; [congruence | exact Hall].
      * rewrite Htr. cbn. rewrite <- app_assoc. reflexivity.
    + unfold ret in Hrun.
      destruct (opOfEvent e) as [op|] eqn:Hop; [|discriminate].
      apply IH in Hrun as [Hall Htr]. split.
      * constructor; [congruence | exact Hall].
      * exact Htr.
Qed.

Lemma batchesFrom_concat (events : list Event) :
  forall (lastRev : Z) (ops : list Op),
    Forall (fun e => opOfEvent e <> None) events ->
    map Some (concat (batchesFrom events lastRev ops))
    = map Some ops ++ map opOfEvent events.
Proof.
  induction events as [|e events IH]; intros lastRev ops Hall; cbn.
  - rewrite !app_nil_r. reflexivity.
  - inversion Hall as [|? ? He Hall']; subst.
    destruct (opOfEvent e) as [op|]; [|congruence].
    destruct (startsNewTxn lastRev (revOf e)); cbn.
    + rewrite map_app, IH by assumption. reflexivity.
    + rewrite IH by assumption. rewrite map_app, <- app_assoc. reflexivity.
Qed.

Lemma txnIndexOf_pending (events : list Event) :
  forall (lastRev : Z) (ops : list Op) (k : nat),
    Forall (fun e => opOfEvent e <> None) events ->
    (k < length ops)%nat ->
    txnIndexOf (batchesFrom events lastRev ops) k = Some 0%nat.
Proof.
  induction events as [|e events IH]; intros lastRev ops k Hall Hk;
    cbn [batchesFrom txnIndexOf].
  - destruct (Nat.ltb_spec k (length ops)); [reflexivity | lia].
  - inversion Hall as [|? ? He Hall']; subst.
    destruct (opOfEvent e) as [op|]; [|congruence].
    destruct (startsNewTxn lastRev (revOf e)); cbn [txnIndexOf].
    + destruct (Nat.ltb_spec k (length ops)); [reflexivity | lia].
    + apply IH; [assumption|]. rewrite length_app. cbn. lia.
Qed.

Lemma txnIndexOf_batchesFrom (events : list Event) :
  forall (lastRev : Z) (ops : list Op) (i : nat),
    Forall (fun e => opOfEvent e <> None) events ->
    (i < length events)%nat ->
    txnIndexOf (batchesFrom events lastRev ops) (length ops + i)
    = Some (txnsEndedBy lastRev events i).
Proof.
  induction events as [|e events IH]; intros lastRev ops i Hall Hi; cbn in Hi; [lia|].
  inversion Hall as [|? ? He Hall']; subst.
  cbn [batchesFrom txnsEndedBy].
  destruct (opOfEvent e) as [op|]; [|congruence].
  destruct (startsNewTxn lastRev (revOf e)); cbn [txnIndexOf].
  - destruct (Nat.ltb_spec (length ops + i) (length ops)); [lia|].
    replace (length ops + i - length ops)%nat with i by lia.
    destruct i as [|i].
    + rewrite txnIndexOf_pending by (cbn; auto). reflexivity.
    + pose proof (IH (revOf e) [op] i Hall' ltac:(lia)) as Hrec.
      cbn [length Nat.add] in Hrec. rewrite Hrec. reflexivity.
  - destruct i as [|i].
    + rewrite txnIndexOf_pending; [reflexivity | assumption |].
      rewrite length_app. cbn. lia.
    + replace (length ops + S i)%nat with (length (ops ++ [op]) + i)%nat
        by (rewrite length_app; cbn; lia).
      rewrite IH by (auto; lia). reflexivity.
Qed.

Lemma txnsEndedBy_step (events : list Event) :
  forall (lastRev : Z) (i : nat) (e e' : Event),
    events !! i = Some e ->
    events !! S i = Some e' ->
    txnsEndedBy lastRev events (S i)
    = (txnsEndedBy lastRev events i
       + (if startsNewTxn (revOf e) (revOf e') then 1 else 0))%nat.
Proof.
  induction events as [|e0 events IH]; intros lastRev i e e' Hi Hi'; [discriminate|].
  destruct i as [|i]; cbn in Hi, Hi'.
  - inversion Hi; subst. destruct events as [|e1 events]; [discriminate|].
    cbn in Hi'. inversion Hi'; subst. cbn. lia.
  - cbn [txnsEndedBy]. rewrite (IH (revOf e0) i e e') by assumption.
    cbn [txnsEndedBy]. lia.
Qed.

Lemma txnsEndedBy_sorted (events : list Event) (lastRev : Z) :
  (forall e, e ∈ events -> revOf e <> 0) ->
  (forall i j ei ej, (i <= j)%nat -> events !! i = Some ei ->
     events !! j = Some ej -> revOf ei <= revOf ej) ->
  forall (d i : nat) (ei ej : Event),
    events !! i = Some ei ->
    events !! (i + d)%nat = Some ej ->
    (txnsEndedBy lastRev events i <= txnsEndedBy lastRev events (i + d))%nat /\
    (txnsEndedBy lastRev events (i + d) = txnsEndedBy lastRev events i
       <-> revOf ej = revOf ei).
Proof.
  intros Hnz Hsorted. induction d as [|d IH]; intros i ei ej Hi Hj.
  - rewrite Nat.add_0_r in *. replace ej with ei by congruence.
    split; [lia | tauto].
  - replace (i + S d)%nat with (S (i + d)) in * by lia.
    destruct (events !! (i + d)%nat) as [em|] eqn:Hm.
    2:{ apply lookup_ge_None in Hm. apply lookup_lt_Some in Hj. lia. }
    destruct (IH i ei em Hi Hm) as [Hle Hiff].
    rewrite (txnsEndedBy_step events lastRev (i + d) em ej Hm Hj).
    assert (Hnzm : revOf em <> 0) by (apply Hnz; eapply list_elem_of_lookup_2; eauto).
    assert (H1 : revOf ei <= revOf em) by (apply (Hsorted i (i + d)%nat); auto; lia).
    assert (H2 : revOf em <= revOf ej) by (apply (Hsorted (i + d)%nat (S (i + d))); auto).
    unfold startsNewTxn.
    destruct (Z.eqb_spec (revOf em) 0); [contradiction|]. cbn [negb andb].
    destruct (Z.gtb_spec (revOf ej) (revOf em)); (split; [lia|]).
    + split; intros Heq; lia.
    + split.
      * intros Heq. assert (revOf em = revOf ei) by (apply Hiff; lia). lia.
      * intros Heq. assert (Hmi : revOf em = revOf ei) by lia.
        apply Hiff in Hmi. lia.
Qed.

Lemma batchesFrom_nonempty (events : list Event) :
  forall (lastRev : Z) (ops : list Op),
    Forall (fun e => opOfEvent e <> None) events ->
    batchesFrom events lastRev ops <> [].
Proof.
  induction events as [|e events IH]; intros lastRev ops Hall; cbn; [discriminate|].
  inversion Hall as [|? ? He Hall']; subst.
  destruct (opOfEvent e) as [op|]; [|congruence].
  destruct (startsNewTxn lastRev (revOf e)); [discriminate | auto].
Qed.

(** C1, as the code has it.  When [applyEventsToEtcd] returns nil, what it
    did to etcd is a run of commits that all succeeded, and nothing else.
    Their batches, one after the other, are the operations of the events
    in list order, every event being a PUT or a DELETE.  The residual batch
    is committed always, so there is at least one transaction.  The first
    event is in the first transaction, and an event is in the transaction
    of the event before it unless that event's revision is not 0 and its
    own is strictly above: then it opens the next transaction.  Hence, when
    no revision is 0 and the revisions never decrease along the list, two
    events are in one transaction exactly when their revisions are equal. *)
Theorem applyEventsToEtcd_transactions (events : list Event) (s s' : State W) :
  applyEventsToEtcd events s = (Ok None, s') ->
  exists txns : list (list Op),
    trace s' = trace s ++ map okCommit txns /\
    map Some (concat txns) = map opOfEvent events /\
    txns <> [] /\
    (events <> [] -> txnIndexOf txns 0 = Some 0%nat) /\
    (forall (i : nat) (e e' : Event),
        events !! i = Some e -> events !! S i = Some e' ->
        txnIndexOf txns (S i)
        = if negb (revOf e =? 0) && (revOf e' >? revOf e)
          then option_map S (txnIndexOf txns i)
          else txnIndexOf txns i) /\
    ((forall e, e ∈ events -> revOf e <> 0) ->
     (forall i j ei ej, (i <= j)%nat -> events !! i = Some ei ->
        events !! j = Some ej -> revOf ei <= revOf ej) ->
     forall (i j : nat) (ei ej : Event),
       events !! i = Some ei -> events !! j = Some ej ->
       (txnIndexOf txns i = txnIndexOf txns j <-> revOf ei = revOf ej)).
Proof.
  intros Hrun. apply applyEventsToEtcd_loop_ok in Hrun as [Hall Htr].
  exists (batchesFrom events 0 []).
  assert (Hidx : forall i, (i < length events)%nat ->
            txnIndexOf (batchesFrom events 0 []) i = Some (txnsEndedBy 0 events i)).
  { intros i Hi. apply (txnIndexOf_batchesFrom events 0 [] i Hall Hi). }
  split; [exact Htr|]. split; [apply (batchesFrom_concat events 0 [] Hall)|].
  split; [apply (batchesFrom_nonempty events 0 [] Hall)|].
  split.
  { intros Hne. destruct events as [|e events]; [congruence|].
    rewrite Hidx by (cbn; lia). reflexivity. }
  split.
  { intros i e e' Hi Hi'.
    rewrite !Hidx by (eapply lookup_lt_Some; eauto).
    rewrite (txnsEndedBy_step events 0 i e e' Hi Hi').
    fold (startsNewTxn (revOf e) (revOf e')).
    destruct (startsNewTxn (revOf e) (revOf e')); cbn; f_equal; lia. }
  intros Hnz Hsorted i j ei ej Hi Hj.
  rewrite !Hidx by (eapply lookup_lt_Some; eauto).
  destruct (Nat.le_ge_cases i j) as [Hij | Hji].
  - replace j with (i + (j - i))%nat in Hj |- * by lia.
    destruct (txnsEndedBy_sorted events 0 Hnz Hsorted (j - i) i ei ej Hi Hj) as [_ Hiff].
    split.
    + intros Heq. inversion Heq as [Heq']. symmetry. apply Hiff. lia.
    + intros Heq. f_equal. symmetry. apply Hiff. lia.
  - replace i with (j + (i - j))%nat in Hi |- * by lia.
    destruct (txnsEndedBy_sorted events 0 Hnz Hsorted (i - j) j ej ei Hj Hi) as [_ Hiff].
    split.
    + intros Heq. inversion Heq as [Heq']. apply Hiff. lia.
    + intros Heq. f_equal. apply Hiff. lia.
Qed.
End ApplyFacts.

(* ----------------------------------------------------------------- *)
(** ** Traces of computations *)

Section TraceFacts.

Context {W : Type}.

Lemma emits_ret (P : Obs -> Prop) {A : Type} (a : A) : emits (W := W) P (ret a).
Proof. intros s. exists []. cbn. rewrite app_nil_r. auto. Qed.

Lemma emits_panic (P : Obs -> Prop) {A : Type} (msg : string) :
  emits (W := W) P (panic (A := A) msg).
Proof. intros s. exists []. cbn. rewrite app_nil_r. auto. Qed.

Lemma emits_emit (P : Obs -> Prop) (o : Obs) : P o -> emits (W := W) P (emit o).
Proof. intros Ho s. exists [o]. cbn. auto. Qed.

Lemma emits_call (P : Obs -> Prop) {A : Type} (f : W -> A * W) (o : A -> Obs) :
  (forall a, P (o a)) -> emits P (call f o).
Proof.
  intros Ho s. unfold call. destruct (f (world s)) as [a w].
  exists [o a]. cbn. auto.
Qed.

Lemma emits_bind (P : Obs -> Prop) {A B : Type} (m : M W A) (k : A -> M W B) :
  emits P m -> (forall a, emits P (k a)) -> emits P (bind m k).
Proof.
  intros Hm Hk s. unfold bind. destruct (Hm s) as (tr1 & Htr1 & HP1).
  destruct (m s) as [[a | msg] s1]; cbn in Htr1.
  - destruct (Hk a s1) as (tr2 & Htr2 & HP2).
    exists (tr1 ++ tr2). rewrite Htr2, Htr1, app_assoc.
    split; [reflexivity | apply Forall_app; auto].
  - exists tr1. auto.
Qed.

Lemma emits_defer (P : Obs -> Prop) {A : Type} (d : M W unit) (m : M W A) :
  emits P d -> emits P m -> emits P (defer d m).
Proof.
  intros Hd Hm s. unfold defer. destruct (Hm s) as (tr1 & Htr1 & HP1).
  destruct (m s) as [r s1]; cbn in Htr1.
  destruct (Hd s1) as (tr2 & Htr2 & HP2).
  destruct (d s1) as [[u | msg] s2]; cbn in Htr2 |- *;
    exists (tr1 ++ tr2); rewrite Htr2, Htr1, app_assoc;
    (split; [reflexivity | apply Forall_app; auto]).
Qed.

Lemma emits_weaken (P Q : Obs -> Prop) {A : Type} (m : M W A) :
  (forall o, P o -> Q o) -> emits P m -> emits Q m.
Proof.
  intros HPQ Hm s. destruct (Hm s) as (tr & Htr & HP).
  exists tr. split; [exact Htr | eapply Forall_impl; eauto].
Qed.

Lemma emits_run (P : Obs -> Prop) {A : Type} (m : M W A) (s s' : State W)
  (r : outcome A) :
  emits P m -> m s = (r, s') ->
  exists tr, trace s' = trace s ++ tr /\ Forall P tr.
Proof. intros Hm Hrun. specialize (Hm s). rewrite Hrun in Hm. exact Hm. Qed.

Lemma omap_silent {A : Type} (f : Obs -> option A) (tr : list Obs) :
  Forall (fun o => f o = None) tr -> omap f tr = [].
Proof.
  induction 1 as [|o tr Ho _ IH]; [reflexivity|].
  cbn. rewrite Ho. exact IH.
Qed.

End TraceFacts.

Ltac emits_step :=
  match goal with
  | |- emits _ (ret _) => apply emits_ret
  | |- emits _ (panic _) => apply emits_panic
  | |- emits _ (emit _) => apply emits_emit
  | |- emits _ (call _ _) => apply emits_call; intros
  | |- emits _ (bind _ _) => apply emits_bind; [|intros]
  | |- emits _ (defer _ _) => apply emits_defer
  | |- emits _ (match ?x with _ => _ end) => destruct x
  | |- emits _ (if ?b then _ else _) => destruct b
  | |- emits _ (let _ := _ in _) => cbv zeta
  end.

Ltac emits_auto := repeat emits_step; try (cbn; solve [auto | reflexivity]).

Section FunctionTraces.

Context {G : GoLib} {W : Type} {E : Env W}.

Lemma applyEventsToEtcd_loop_emits (events : list Event) :
  forall lastRev ops, emits kvCall (applyEventsToEtcd_loop (W := W) events lastRev ops).
Proof.
  induction events as [|e events IH]; intros lastRev ops; cbn [applyEventsToEtcd_loop].
  - unfold Txn_Then_Commit. emits_auto.
  - unfold Txn_Then_Commit. emits_auto.
Qed.

Lemma applyEventsAndVerify_emits (events : list Event) (snap : Snapshot) :
  emits kvCall (applyEventsAndVerify (W := W) events snap).
Proof.
  unfold applyEventsAndVerify, applyEventsToEtcd, verifySnapshotRevision.
  apply emits_bind; [apply applyEventsToEtcd_loop_emits|]. intros.
  emits_auto.
Qed.

End FunctionTraces.

(* ----------------------------------------------------------------- *)
(** ** The first delta *)

Section FirstDeltaFacts.

Context {G : GoLib} {W : Type} {E : Env W}.

(** When some event is above [lastRevision], the scan stops at the first
    such event. *)
Lemma newRevisionIndex_scan_found (events : list Event) (lastRevision : Z) :
  forall (index : nat),
    Exists (fun e => revOf e > lastRevision) events ->
    exists (j : nat) (e : Event),
      newRevisionIndex_scan events index lastRevision = (index + j)%nat /\
      events !! j = Some e /\ revOf e > lastRevision /\
      forall (i : nat) (ei : Event),
        (i < j)%nat -> events !! i = Some ei -> revOf ei <= lastRevision.
Proof.
  induction events as [|e0 events IH]; intros index Hex; [inversion Hex|].
  cbn [newRevisionIndex_scan]. fold (revOf e0).
  destruct (Z.gtb_spec (revOf e0) lastRevision) as [Hgt | Hle].
  - exists 0%nat, e0. repeat split; [lia | lia |]. intros i ei Hi. lia.
  - inversion Hex as [? ? Hhd | ? ? Htl]; subst; [lia|].
    destruct (IH (S index) Htl) as (j & e & Hscan & Hj & Hrev & Hmin).
    exists (S j), e. repeat split; [lia | exact Hj | exact Hrev |].
    intros [|i] ei Hi Hlookup; cbn in Hlookup.
    + inversion Hlookup; subst. exact Hle.
    + apply (Hmin i ei); [lia | exact Hlookup].
Qed.

(** When no event is above [lastRevision], the loop never breaks and the
    index keeps its zero value. *)
Lemma newRevisionIndex_scan_none (events : list Event) (lastRevision : Z) :
  forall (index : nat),
    Forall (fun e => revOf e <= lastRevision) events ->
    newRevisionIndex_scan events index lastRevision = 0%nat.
Proof.
  induction events as [|e0 events IH]; intros index Hall; [reflexivity|].
  inversion Hall as [|? ? Hhd Htl]; subst.
  cbn [newRevisionIndex_scan]. fold (revOf e0).
  destruct (Z.gtb_spec (revOf e0) lastRevision); [lia | auto].
Qed.

(** What [applyFirstDeltaSnapshot] does once the delta is fetched, read and
    decoded and etcd has told its latest revision: nothing when that is the
    last revision of the delta, and otherwise it applies the events from
    the index the scan returns. *)
Lemma applyFirstDeltaSnapshot_run (snap : Snapshot) (s : State W)
  (rc : ReadCloser) (w1 w2 : W) (eventsData : list byte) (events : list Event)
  (lastRevision : Z) :
  Store_Fetch snap (world s) = (inr rc, w1) ->
  readSnapshotContentsFromReadCloser rc snap = inr eventsData ->
  json_Unmarshal eventsData = inr events ->
  KV_Get "" true w1 = (inr lastRevision, w2) ->
  let s2 := mkState w2 (trace s ++ [ObsFetch snap None; ObsGet "" true (inr lastRevision)]) in
  applyFirstDeltaSnapshot snap s
  = if lastRevision =? LastRevision snap then (Ok None, s2)
    else applyEventsToEtcd
           (drop (newRevisionIndex_scan events 0 lastRevision) events) s2.
Proof.
  intros Hfetch Hread Hjson Hget s2.
  unfold applyFirstDeltaSnapshot, Fetch, bind, call.
  rewrite Hfetch. cbn. rewrite Hread, Hjson. cbn. rewrite Hget. cbn.
  rewrite <- app_assoc. cbn.
  destruct (lastRevision =? LastRevision snap); reflexivity.
Qed.

(** When some event is above the latest revision of etcd, the events from
    the first such event on are applied. *)
Lemma applyFirstDeltaSnapshot_newer_events (snap : Snapshot) (s : State W)
  (rc : ReadCloser) (w1 w2 : W) (eventsData : list byte) (events : list Event)
  (lastRevision : Z) :
  Store_Fetch snap (world s) = (inr rc, w1) ->
  readSnapshotContentsFromReadCloser rc snap = inr eventsData ->
  json_Unmarshal eventsData = inr events ->
  KV_Get "" true w1 = (inr lastRevision, w2) ->
  lastRevision <> LastRevision snap ->
  Exists (fun e => revOf e > lastRevision) events ->
  exists (j : nat) (e : Event),
    events !! j = Some e /\ revOf e > lastRevision /\
    (forall (i : nat) (ei : Event),
        (i < j)%nat -> events !! i = Some ei -> revOf ei <= lastRevision) /\
    applyFirstDeltaSnapshot snap s
    = applyEventsToEtcd (drop j events)
        (mkState w2 (trace s ++ [ObsFetch snap None;
                                 ObsGet "" true (inr lastRevision)])).
Proof.
  intros Hfetch Hread Hjson Hget Hne Hex.
  destruct (newRevisionIndex_scan_found events lastRevision 0 Hex)
    as (j & e & Hscan & Hj & Hrev & Hmin).
  exists j, e. repeat split; try assumption.
  rewrite (applyFirstDeltaSnapshot_run snap s rc w1 w2 eventsData events
             lastRevision Hfetch Hread Hjson Hget).
  cbv zeta. destruct (Z.eqb_spec lastRevision (LastRevision snap)); [contradiction|].
  rewrite Hscan. reflexivity.
Qed.

(** When no event is above the latest revision of etcd and that is not the
    last revision of the delta, every event is applied. *)
Lemma applyFirstDeltaSnapshot_no_newer_events (snap : Snapshot) (s : State W)
  (rc : ReadCloser) (w1 w2 : W) (eventsData : list byte) (events : list Event)
  (lastRevision : Z) :
  Store_Fetch snap (world s) = (inr rc, w1) ->
  readSnapshotContentsFromReadCloser rc snap = inr eventsData ->
  json_Unmarshal eventsData = inr events ->
  KV_Get "" true w1 = (inr lastRevision, w2) ->
  lastRevision <> LastRevision snap ->
  Forall (fun e => revOf e <= lastRevision) events ->
  applyFirstDeltaSnapshot snap s
  = applyEventsToEtcd events
      (mkState w2 (trace s ++ [ObsFetch snap None;
                               ObsGet "" true (inr lastRevision)])).
Proof.
  intros Hfetch Hread Hjson Hget Hne Hall.
  rewrite (applyFirstDeltaSnapshot_run snap s rc w1 w2 eventsData events
             lastRevision Hfetch Hread Hjson Hget).
  cbv zeta. destruct (Z.eqb_spec lastRevision (LastRevision snap)); [contradiction|].
  rewrite (newRevisionIndex_scan_none events lastRevision 0 Hall). reflexivity.
Qed.

End FirstDeltaFacts.


(* ----------------------------------------------------------------- *)
(** ** The applier *)

Section Safety.
Context {W : Type}.

Lemma safe_ret {A : Type} (a : A) : safe (W := W) (ret a).
Proof. intros s msg. discriminate. Qed.

Lemma safe_emit (o : Obs) : safe (W := W) (emit o).
Proof. intros s msg. discriminate. Qed.

Lemma safe_call {A : Type} (f : W -> A * W) (o : A -> Obs) : safe (call f o).
Proof. intros s msg. unfold call. destruct (f (world s)). discriminate. Qed.

Lemma safe_bind {A B : Type} (m : M W A) (k : A -> M W B) :
  safe m -> (forall a, safe (k a)) -> safe (bind m k).
Proof.
  intros Hm Hk s msg. unfold bind. specialize (Hm s).
  destruct (m s) as [[a | msg'] s1]; cbn in *.
  - apply Hk.
  - exfalso. apply (Hm msg'). reflexivity.
Qed.

End Safety.

Ltac safe_step :=
  match goal with
  | |- safe (ret _) => apply safe_ret
  | |- safe (emit _) => apply safe_emit
  | |- safe (call _ _) => apply safe_call
  | |- safe (bind _ _) => apply safe_bind; [|intros]
  | |- safe (match ?x with _ => _ end) => destruct x
  | |- safe (if ?b then _ else _) => destruct b
  end.

Section ApplierFacts.

Context {G : GoLib} {W : Type} {E : Env W}.

Lemma applyEventsToEtcd_loop_safe (events : list Event) :
  forall lastRev ops, safe (applyEventsToEtcd_loop (W := W) events lastRev ops).
Proof.
  induction events as [|e events IH]; intros lastRev ops; cbn [applyEventsToEtcd_loop];
    unfold Txn_Then_Commit; repeat safe_step; auto.
Qed.

Lemma applyEventsAndVerify_safe (events : list Event) (snap : Snapshot) :
  safe (applyEventsAndVerify (W := W) events snap).
Proof.
  unfold applyEventsAndVerify, applyEventsToEtcd, verifySnapshotRevision.
  apply safe_bind; [apply applyEventsToEtcd_loop_safe|]. intros.
  repeat safe_step.
Qed.

Lemma silent_projections (tr : list Obs) :
  Forall silent tr ->
  appliedIndices tr = [] /\ errChSends tr = [] /\ compactions tr = [].
Proof.
  intros Hall. repeat split; apply omap_silent;
    (eapply Forall_impl; [exact Hall | intros o (H1 & H2 & H3); assumption]).
Qed.

Lemma applyEventsAndVerify_silent (events : list Event) (snap : Snapshot) :
  emits silent (applyEventsAndVerify (W := W) events snap).
Proof.
  eapply emits_weaken; [|apply applyEventsAndVerify_emits].
  intros [] Hkv; cbn in Hkv; try contradiction; repeat split.
Qed.

Lemma run_bind_call {A B : Type} (f : W -> A * W) (o : A -> Obs)
  (k : A -> M W B) (s s' : State W) (r : outcome B) :
  bind (call f o) k s = (r, s') ->
  exists (a : A) (w : W),
    f (world s) = (a, w) /\ k a (mkState w (trace s ++ [o a])) = (r, s').
Proof.
  unfold bind, call. destruct (f (world s)) as [a w]. intros Hrun. eauto.
Qed.

Lemma run_bind_emit {B : Type} (o : Obs) (k : unit -> M W B)
  (s s' : State W) (r : outcome B) :
  bind (emit o) k s = (r, s') ->
  k tt (mkState (world s) (trace s ++ [o])) = (r, s').
Proof. unfold bind, emit. auto. Qed.

Lemma raiseAlarm_loop_silent (endPoints : list string) :
  emits silent (raiseAlarm_loop (W := W) endPoints).
Proof.
  induction endPoints as [|ep eps IH]; cbn [raiseAlarm_loop];
    unfold HandleAlarm_alarm; emits_auto; repeat split.
Qed.

(** The lean-keeper asks for one compaction, at [revision], and otherwise
    does nothing the applier's bookkeeping can see. *)
Lemma MakeEtcdLeanAndCheckAlarm_trace (revision : Z) (endPoints : list string)
  (quota : float64) (s s' : State W) (r : outcome (option error)) :
  MakeEtcdLeanAndCheckAlarm revision endPoints quota s = (r, s') ->
  exists tr, trace s' = trace s ++ tr /\
             appliedIndices tr = [] /\ errChSends tr = [] /\
             compactions tr = [revision].
Proof.
  intros Hrun. unfold MakeEtcdLeanAndCheckAlarm in Hrun.
  apply run_bind_call in Hrun as (res & w1 & Hc & Hrun).
  eapply emits_run in Hrun as (tr & Htr & Hall).
  2:{ instantiate (1 := silent). emits_auto; try (repeat split);
      apply raiseAlarm_loop_silent. }
  cbn [trace] in Htr.
  destruct (silent_projections tr Hall) as (Ha & He & Hco).
  exists (ObsCompact revision res :: tr).
  split; [rewrite Htr, <- app_assoc; reflexivity|].
  unfold appliedIndices, errChSends, compactions in *. cbn.
  rewrite Ha, He, Hco. auto.
Qed.

Lemma run_bind {A B : Type} (m : M W A) (k : A -> M W B)
  (s s' : State W) (r : outcome B) :
  bind m k s = (r, s') ->
  (exists (a : A) (s1 : State W), m s = (Ok a, s1) /\ k a s1 = (r, s')) \/
  (exists msg : string, m s = (Panic msg, s') /\ r = Panic msg).
Proof.
  unfold bind. destruct (m s) as [[a | msg] s1]; intros Hrun.
  - left. eauto.
  - right. inversion Hrun; subst. eauto.
Qed.

Lemma run_bind_safe {A B : Type} (m : M W A) (k : A -> M W B)
  (s s' : State W) (r : outcome B) :
  safe m -> bind m k s = (r, s') ->
  exists (a : A) (s1 : State W), m s = (Ok a, s1) /\ k a s1 = (r, s').
Proof.
  intros Hsafe Hrun. apply run_bind in Hrun as [Hok | (msg & Hm & _)]; [exact Hok|].
  exfalso. apply (Hsafe s msg). rewrite Hm. reflexivity.
Qed.

Lemma readSnapshotContentsFromFile_run (filePath : string) (snap : Snapshot)
  (s s1 : State W) (r : outcome (error + list byte)) :
  readSnapshotContentsFromFile filePath snap s = (r, s1) ->
  trace s1 = trace s ++ [ObsOpen filePath] /\ exists res, r = Ok res.
Proof.
  unfold readSnapshotContentsFromFile. intros Hrun.
  apply run_bind_call in Hrun as ([err | file] & w & _ & Hrun);
    inversion Hrun; subst; cbn; eauto.
Qed.

Section Body.

Variable remainingSnaps : list Snapshot.
Variable endPoints : list string.
Variable embeddedEtcdQuotaBytes : float64.

Let len : Z := Z.of_nat (length remainingSnaps).

Lemma applySnaps_body_spec (currSnapIndex : Z) (snap : Snapshot)
  (filePath : string) (a : applier) (s s' : State W) (r : outcome flow) :
  applySnaps_body remainingSnaps endPoints embeddedEtcdQuotaBytes
    currSnapIndex snap filePath a s = (r, s') ->
  exists tr : list Obs,
    trace s' = trace s ++ tr /\
    match r with
    | Ok (Continue a') =>
        pathList a' = pathList a /\
        nextSnapIndexToApply a' = nextSnapIndexToApply a + 1 /\
        nextSnapIndexToApply a + 1 <> len /\
        numberOfDeltaSnapApplied a' = numberOfDeltaSnapApplied a + 1 /\
        appliedIndices tr = [currSnapIndex] /\ errChSends tr = [] /\
        compactions tr
        = (if leanDue (numberOfDeltaSnapApplied a + 1)
                (prevAttemptToMakeEtcdLeanFailed a)
           then [LastRevision snap] else []) /\
        (leanDue (numberOfDeltaSnapApplied a + 1)
           (prevAttemptToMakeEtcdLeanFailed a) = false ->
         prevAttemptToMakeEtcdLeanFailed a' = false)
    | Ok Return_ =>
        compactions tr = [] /\
        (appliedIndices tr = [] \/ appliedIndices tr = [currSnapIndex]) /\
        exists x, errChSends tr = [x] /\
                  (x = None ->
                   appliedIndices tr = [currSnapIndex] /\
                   nextSnapIndexToApply a + 1 = len)
    | Panic _ =>
        appliedIndices tr = [currSnapIndex] /\ errChSends tr = []
    end.
Proof.
  intros Hrun. unfold applySnaps_body in Hrun.
  apply run_bind in Hrun as [(data & s1 & Hread & Hrun) | (msg & Hread & _)].
  2:{ apply readSnapshotContentsFromFile_run in Hread as [_ [res Hres]]. discriminate. }
  apply readSnapshotContentsFromFile_run in Hread as [Htr1 _].
  destruct data as [err | eventsData].
  { apply run_bind_emit in Hrun. inversion Hrun; subst. cbn [trace]. rewrite Htr1.
    eexists. rewrite <- app_assoc. split; [reflexivity|].
    cbn. split; [reflexivity|]. split; [auto|]. eexists. split; [reflexivity|]. discriminate. }
  destruct (json_Unmarshal eventsData) as [err | events].
  { apply run_bind_emit in Hrun. inversion Hrun; subst. cbn [trace]. rewrite Htr1.
    eexists. rewrite <- app_assoc. split; [reflexivity|].
    cbn. split; [reflexivity|]. split; [auto|]. eexists. split; [reflexivity|]. discriminate. }
  apply run_bind_emit in Hrun.
  apply run_bind_safe in Hrun as (err & s2 & Hav & Hrun);
    [|apply applyEventsAndVerify_safe].
  eapply emits_run in Hav as (tr2 & Htr2 & Hall2); [|apply applyEventsAndVerify_silent].
  cbn [trace] in Htr2. destruct (silent_projections tr2 Hall2) as (Ha2 & He2 & Hc2).
  unfold appliedIndices, errChSends, compactions in *.
  destruct err as [err|].
  { apply run_bind_emit in Hrun. inversion Hrun; subst. cbn [trace].
    rewrite Htr2, Htr1. eexists. rewrite <- !app_assoc. split; [reflexivity|].
    rewrite !omap_app, Ha2, He2, Hc2. cbn.
    split; [reflexivity|]. split; [auto|]. eexists. split; [reflexivity|]. discriminate. }
  apply run_bind_call in Hrun as (rmErr & w3 & _ & Hrun). cbn [trace] in Hrun.
  fold len in Hrun.
  destruct (Z.eqb_spec (nextSnapIndexToApply a + 1) len) as [Hlast | Hmore].
  { apply run_bind_emit in Hrun. inversion Hrun; subst. cbn [trace].
    rewrite Htr2, Htr1. eexists. rewrite <- !app_assoc. split; [reflexivity|].
    rewrite !omap_app, Ha2, He2, Hc2. cbn.
    split; [reflexivity|]. split; [auto|]. eexists. split; [reflexivity|]. auto. }
  fold (leanDue (numberOfDeltaSnapApplied a + 1) (prevAttemptToMakeEtcdLeanFailed a)) in Hrun.
  destruct (leanDue (numberOfDeltaSnapApplied a + 1) (prevAttemptToMakeEtcdLeanFailed a))
    eqn:Hdue.
  - apply run_bind in Hrun as [(err & s4 & Hlean & Hrun) | (msg & Hlean & ->)];
      apply MakeEtcdLeanAndCheckAlarm_trace in Hlean as (tr4 & Htr4 & Ha4 & He4 & Hc4);
      cbn [trace] in Htr4; unfold appliedIndices, errChSends, compactions in *.
    + assert (Hs : s' = s4) by (destruct err; inversion Hrun; reflexivity). subst s4.
      rewrite Htr4, Htr2, Htr1. eexists. rewrite <- !app_assoc. split; [reflexivity|].
      rewrite !omap_app, Ha2, He2, Hc2, Ha4, He4, Hc4.
      destruct err; inversion Hrun; subst; cbn; repeat split; auto; discriminate.
    + rewrite Htr4, Htr2, Htr1. eexists. rewrite <- !app_assoc. split; [reflexivity|].
      rewrite !omap_app, Ha2, He2, Ha4, He4. cbn. auto.
  - inversion Hrun; subst. cbn [trace].
    rewrite Htr2, Htr1. eexists. rewrite <- !app_assoc. split; [reflexivity|].
    rewrite !omap_app, Ha2, He2, Hc2. cbn. repeat split; auto.
    unfold leanDue in Hdue. apply orb_false_iff in Hdue as [_ Hprev]. auto.
Qed.

Lemma applySnaps_for_spec (fuel : nat) :
  forall (currSnapIndex : Z) (a : applier) (s s' : State W) (r : outcome flow),
    currSnapIndex = nextSnapIndexToApply a ->
    0 <= currSnapIndex ->
    Z.of_nat fuel = len - currSnapIndex ->
    length (pathList a) = length remainingSnaps ->
    applySnaps_for remainingSnaps endPoints embeddedEtcdQuotaBytes
      fuel currSnapIndex a s = (r, s') ->
    exists (tr : list Obs) (n : Z),
      trace s' = trace s ++ tr /\ 0 <= n /\ currSnapIndex + n <= len /\
      appliedIndices tr = seqZ currSnapIndex n /\
      match r with
      | Ok (Continue a') =>
          pathList a' = pathList a /\
          nextSnapIndexToApply a' = currSnapIndex + n /\
          numberOfDeltaSnapApplied a' = numberOfDeltaSnapApplied a + n /\
          errChSends tr = [] /\
          (forall i, currSnapIndex <= i < currSnapIndex + n ->
                     exists p, pathList a !! Z.to_nat i = Some p /\ p <> "") /\
          (pathList a !! Z.to_nat (currSnapIndex + n) = Some ""
           \/ (currSnapIndex = len /\ n = 0))
      | Ok Return_ =>
          exists x, errChSends tr = [x] /\ (x = None -> currSnapIndex + n = len)
      | Panic _ => errChSends tr = []
      end.
Proof.
  induction fuel as [|fuel IH]; intros curr a s s' r Hcurr Hpos Hfuel Hlen Hrun;
    cbn [applySnaps_for] in Hrun.
  - inversion Hrun; subst r s'. exists [], 0. rewrite app_nil_r.
    repeat split; try reflexivity; lia.
  - assert (Hlt : (Z.to_nat curr < length remainingSnaps)%nat) by (unfold len in Hfuel; lia).
    destruct (lookup_lt_is_Some_2 (pathList a) (Z.to_nat curr)) as [filePath Hpath];
      [lia|].
    destruct (lookup_lt_is_Some_2 remainingSnaps (Z.to_nat curr)) as [snap Hsnap];
      [lia|].
    rewrite Hpath, Hsnap in Hrun.
    destruct (String.eqb_spec filePath "") as [Hempty | Hfull].
    { inversion Hrun; subst r s'. exists [], 0. rewrite app_nil_r, Z.add_0_r.
      repeat split; try reflexivity; try lia.
      left. subst filePath. exact Hpath. }
    apply run_bind in Hrun as [(fl & s1 & Hbody & Hrun) | (msg & Hbody & ->)];
      apply applySnaps_body_spec in Hbody as (tr1 & Htr1 & Hspec); fold len in Hspec.
    + destruct fl as [a1|].
      * destruct Hspec as (Hpl & Hnext & Hmore & Hcount & Ha1 & He1 & _).
        apply IH in Hrun as (tr2 & n2 & Htr2 & Hn2 & Hle2 & Ha2 & Hres);
          [|lia|lia|lia|congruence].
        exists (tr1 ++ tr2), (1 + n2).
        split; [rewrite Htr2, Htr1, app_assoc; reflexivity|].
        split; [lia|]. split; [lia|].
        split.
        { unfold appliedIndices in *. rewrite omap_app, Ha1, Ha2.
          rewrite (seqZ_cons curr (1 + n2)) by lia. cbn. do 2 f_equal; lia. }
        destruct r as [[a2|]|msg].
        -- destruct Hres as (Hpl2 & Hnext2 & Hcount2 & He2 & Hfull2 & Hstop).
           unfold errChSends in *. rewrite omap_app, He1, He2.
           repeat split; try congruence; try lia.
           ++ intros i Hi. destruct (Z.eq_dec i curr) as [-> | Hne].
              ** exists filePath. auto.
              ** rewrite <- Hpl. apply Hfull2. lia.
           ++ rewrite <- Hpl. replace (curr + (1 + n2)) with (curr + 1 + n2) by lia.
              destruct Hstop as [Hstop | [Hend _]]; [left; exact Hstop | lia].
        -- destruct Hres as (x & He2 & Hx). exists x.
           unfold errChSends in *. rewrite omap_app, He1, He2.
           split; [reflexivity|]. intros Hnone. apply Hx in Hnone. lia.
        -- unfold errChSends in *. rewrite omap_app, He1, Hres. reflexivity.
      * inversion Hrun; subst r s'.
        destruct Hspec as (_ & Happlied & x & He1 & Hx).
        destruct Happlied as [Ha1 | Ha1].
        -- exists tr1, 0. rewrite Z.add_0_r.
           repeat split; try assumption; try lia.
           exists x. split; [exact He1|]. intros Hnone.
           destruct (Hx Hnone) as [Hcontra _]. congruence.
        -- exists tr1, 1.
           repeat split; try assumption; try lia.
           exists x. split; [exact He1|]. intros Hnone.
           destruct (Hx Hnone) as [_ Hend]. lia.
    + destruct Hspec as (Ha1 & He1).
      exists tr1, 1. repeat split; try assumption; lia.
Qed.

Lemma applySnaps_applierInfo_spec (applierInfo : ApplierInfo) (a : applier)
  (s s' : State W) (r : outcome flow) :
  length (pathList a) = length remainingSnaps ->
  0 <= nextSnapIndexToApply a <= len ->
  applySnaps_applierInfo remainingSnaps endPoints embeddedEtcdQuotaBytes
    applierInfo a s = (r, s') ->
  exists (tr : list Obs) (n : Z),
    trace s' = trace s ++ tr /\ 0 <= n /\
    nextSnapIndexToApply a + n <= len /\
    appliedIndices tr = seqZ (nextSnapIndexToApply a) n /\
    match r with
    | Ok (Continue a') =>
        length (pathList a') = length remainingSnaps /\
        nextSnapIndexToApply a' = nextSnapIndexToApply a + n /\
        numberOfDeltaSnapApplied a' = numberOfDeltaSnapApplied a + n /\
        errChSends tr = []
    | Ok Return_ =>
        errChSends tr = [] \/
        exists x, errChSends tr = [x] /\
                  (x = None -> nextSnapIndexToApply a + n = len)
    | Panic _ => errChSends tr = []
    end.
Proof.
  intros Hlen Hnext Hrun. unfold applySnaps_applierInfo in Hrun.
  destruct (SnapIndex applierInfo =? -1).
  { inversion Hrun; subst. exists [], 0. rewrite app_nil_r.
    repeat split; try reflexivity; try lia. left. reflexivity. }
  destruct ((SnapIndex applierInfo <? 0)
            || (Z.of_nat (length (pathList a)) <=? SnapIndex applierInfo)) eqn:Hrange.
  { inversion Hrun; subst. exists [], 0. rewrite app_nil_r.
    repeat split; try reflexivity; lia. }
  apply orb_false_iff in Hrange as [Hlo Hhi].
  apply Z.ltb_ge in Hlo. apply Z.leb_gt in Hhi.
  cbn [nextSnapIndexToApply] in Hrun.
  destruct (SnapIndex applierInfo <? nextSnapIndexToApply a).
  { apply run_bind_emit in Hrun. inversion Hrun; subst. cbn [trace].
    eexists _, 0. split; [reflexivity|]. cbn.
    repeat split; try reflexivity; try lia. right. eexists. split; [reflexivity|].
    discriminate. }
  destruct (Z.eqb_spec (SnapIndex applierInfo) (nextSnapIndexToApply a)) as [Heq | Hne].
  - assert (Hidx : SnapIndex applierInfo < len) by (unfold len; lia).
    apply applySnaps_for_spec in Hrun as (tr & n & Htr & Hn & Hle & Happlied & Hres);
      cbn [nextSnapIndexToApply pathList numberOfDeltaSnapApplied];
      [ | exact Heq | lia | fold len; lia | rewrite length_insert; exact Hlen ].
    rewrite Heq in *.
    exists tr, n. repeat split; try assumption.
    destruct r as [[a'|]|msg]; [| |exact Hres].
    + destruct Hres as (Hpl & Hnx & Hct & He & _).
      cbn [pathList numberOfDeltaSnapApplied] in *.
      repeat split; try assumption. rewrite Hpl, length_insert. exact Hlen.
    + right. exact Hres.
  - inversion Hrun; subst. exists [], 0. rewrite app_nil_r. cbn [pathList].
    repeat split; try reflexivity; try (cbn; lia). rewrite length_insert. exact Hlen.
Qed.

Lemma applySnaps_select_spec (input : list selected) :
  forall (a : applier) (s s' : State W) (r : outcome applierStatus),
    length (pathList a) = length remainingSnaps ->
    0 <= nextSnapIndexToApply a <= len ->
    applySnaps_select remainingSnaps endPoints embeddedEtcdQuotaBytes
      input a s = (r, s') ->
    exists (tr : list Obs) (k : Z),
      trace s' = trace s ++ tr /\ 0 <= k /\
      nextSnapIndexToApply a + k <= len /\
      appliedIndices tr = seqZ (nextSnapIndexToApply a) k /\
      match r with
      | Ok (Waiting a') =>
          nextSnapIndexToApply a' = nextSnapIndexToApply a + k /\
          numberOfDeltaSnapApplied a' = numberOfDeltaSnapApplied a + k /\
          errChSends tr = []
      | Ok Returned =>
          errChSends tr = [] \/
          exists x, errChSends tr = [x] /\
                    (x = None -> nextSnapIndexToApply a + k = len)
      | Panic _ => errChSends tr = []
      end.
Proof.
  induction input as [|sel input IH]; intros a s s' r Hlen Hnext Hrun;
    cbn [applySnaps_select] in Hrun.
  - inversion Hrun; subst. exists [], 0. rewrite app_nil_r.
    repeat split; try reflexivity; lia.
  - destruct sel as [more | applierInfo].
    + destruct more; [apply IH; assumption|].
      inversion Hrun; subst. exists [], 0. rewrite app_nil_r.
      repeat split; try reflexivity; try lia. left. reflexivity.
    + apply run_bind in Hrun as [(fl & s1 & Hstep & Hrun) | (msg & Hstep & ->)];
        apply applySnaps_applierInfo_spec in Hstep
          as (tr1 & n & Htr1 & Hn & Hle & Ha1 & Hres); try assumption.
      2:{ exists tr1, n. repeat split; assumption. }
      destruct fl as [a1|].
      * destruct Hres as (Hlen1 & Hnext1 & Hcount1 & He1).
        apply IH in Hrun as (tr2 & k & Htr2 & Hk & Hle2 & Ha2 & Hres2);
          [|assumption|lia].
        exists (tr1 ++ tr2), (n + k).
        split; [rewrite Htr2, Htr1, app_assoc; reflexivity|].
        split; [lia|]. split; [lia|].
        split.
        { unfold appliedIndices in *. rewrite omap_app, Ha1, Ha2, Hnext1.
          symmetry. apply seqZ_app; lia. }
        unfold errChSends in *.
        destruct r as [[|a2]|msg]; rewrite omap_app, He1; cbn [app].
        -- destruct Hres2 as [He2 | (x & He2 & Hx)]; [left; exact He2|].
           right. exists x. split; [exact He2|]. intros Hnone. apply Hx in Hnone. lia.
        -- destruct Hres2 as (Hnext2 & Hcount2 & He2). repeat split; try lia. exact He2.
        -- exact Hres2.
      * inversion Hrun; subst. exists tr1, n. repeat split; assumption.
Qed.

(** The body of the loop for a delta that is read, decoded, applied and
    verified without error. *)
Lemma applySnaps_body_applied (currSnapIndex : Z) (snap : Snapshot)
  (filePath : string) (a : applier) (s s2 : State W) (file : ReadCloser)
  (w1 w3 : W) (eventsData : list byte) (events : list Event)
  (rmErr : option error) :
  os_Open filePath (world s) = (inr file, w1) ->
  readSnapshotContentsFromReadCloser file snap = inr eventsData ->
  json_Unmarshal eventsData = inr events ->
  applyEventsAndVerify events snap
    (mkState w1 (trace s ++ [ObsOpen filePath; ObsLogApplying currSnapIndex]))
  = (Ok None, s2) ->
  os_Remove filePath (world s2) = (rmErr, w3) ->
  let s3 := mkState w3 (trace s2 ++ [ObsRemove filePath]) in
  let next := nextSnapIndexToApply a + 1 in
  let applied := numberOfDeltaSnapApplied a + 1 in
  applySnaps_body remainingSnaps endPoints embeddedEtcdQuotaBytes
    currSnapIndex snap filePath a s
  = if next =? len then
      (Ok Return_, mkState w3 (trace s3 ++ [ObsErrCh None]))
    else if leanDue applied (prevAttemptToMakeEtcdLeanFailed a) then
      match MakeEtcdLeanAndCheckAlarm (LastRevision snap) endPoints
              embeddedEtcdQuotaBytes s3 with
      | (Ok (Some _), s4) =>
          (Ok (Continue (mkApplier (pathList a) next applied true)), s4)
      | (Ok None, s4) =>
          (Ok (Continue (mkApplier (pathList a) next applied false)), s4)
      | (Panic msg, s4) => (Panic msg, s4)
      end
    else
      (Ok (Continue (mkApplier (pathList a) next applied
                       (prevAttemptToMakeEtcdLeanFailed a))), s3).
Proof.
  intros Hopen Hread Hjson Happly Hremove s3 next applied.
  unfold applySnaps_body, readSnapshotContentsFromFile, bind, call, emit, ret.
  rewrite Hopen. cbv beta iota. cbn [world trace]. rewrite Hread.
  cbv beta iota. rewrite Hjson. cbv beta iota. cbn [world trace].
  rewrite <- app_assoc. cbn [app]. rewrite Happly.
  cbv beta iota. rewrite Hremove. cbv beta iota. cbn [world trace].
  fold len next applied s3.
  destruct (next =? len); [reflexivity|].
  fold (leanDue applied (prevAttemptToMakeEtcdLeanFailed a)).
  destruct (leanDue applied (prevAttemptToMakeEtcdLeanFailed a)); [|reflexivity].
  destruct (MakeEtcdLeanAndCheckAlarm _ _ _ s3) as [[[err|]|msg] s4]; reflexivity.
Qed.

(** The body of the loop goes on to the next delta only once it has opened
    the file, read its contents and verified their hash, decoded the
    events, applied them and verified the revision against the handle, and
    removed the file. *)
Lemma applySnaps_body_continue (currSnapIndex : Z) (snap : Snapshot)
  (filePath : string) (a a1 : applier) (s s1 : State W) :
  applySnaps_body remainingSnaps endPoints embeddedEtcdQuotaBytes
    currSnapIndex snap filePath a s = (Ok (Continue a1), s1) ->
  exists (file : ReadCloser) (w1 w3 : W) (eventsData : list byte)
         (events : list Event) (s2 : State W) (rmErr : option error)
         (tr : list Obs),
    os_Open filePath (world s) = (inr file, w1) /\
    readSnapshotContentsFromReadCloser file snap = inr eventsData /\
    json_Unmarshal eventsData = inr events /\
    applyEventsAndVerify events snap
      (mkState w1 (trace s ++ [ObsOpen filePath; ObsLogApplying currSnapIndex]))
    = (Ok None, s2) /\
    os_Remove filePath (world s2) = (rmErr, w3) /\
    trace s1 = trace s2 ++ ObsRemove filePath :: tr.
Proof.
  intros Hrun. unfold applySnaps_body, readSnapshotContentsFromFile in Hrun.
  unfold bind at 1 in Hrun. unfold bind at 1, call at 1 in Hrun.
  destruct (os_Open filePath (world s)) as [[err | file] w1] eqn:Hopen;
    cbn [ret] in Hrun; [discriminate Hrun|].
  destruct (readSnapshotContentsFromReadCloser file snap) as [err | eventsData]
    eqn:Hread; [discriminate Hrun|].
  destruct (json_Unmarshal eventsData) as [err | events] eqn:Hjson;
    [discriminate Hrun|].
  apply run_bind_emit in Hrun. cbn [world trace] in Hrun.
  rewrite <- app_assoc in Hrun. cbn [app] in Hrun.
  apply run_bind in Hrun as [(err & s2 & Happly & Hrun) | (msg & _ & Hbad)];
    [|discriminate Hbad].
  destruct err as [err|].
  { apply run_bind_emit in Hrun. discriminate Hrun. }
  apply run_bind_call in Hrun as (rmErr & w3 & Hremove & Hrun).
  exists file, w1, w3, eventsData, events, s2, rmErr.
  assert (Htail : exists tr, trace s1 = (trace s2 ++ [ObsRemove filePath]) ++ tr).
  { destruct (nextSnapIndexToApply a + 1 =? Z.of_nat (length remainingSnaps)).
    { apply run_bind_emit in Hrun. discriminate Hrun. }
    destruct ((Z.rem (numberOfDeltaSnapApplied a + 1)
                 periodicallyMakeEtcdLeanDeltaSnapshotInterval =? 0)
              || prevAttemptToMakeEtcdLeanFailed a).
    - apply run_bind in Hrun as [(err & s4 & Hlean & Hrun) | (msg & _ & Hbad)];
        [|discriminate Hbad].
      apply MakeEtcdLeanAndCheckAlarm_trace in Hlean as (tr4 & Htr4 & _).
      cbn [trace] in Htr4. exists tr4.
      destruct err; inversion Hrun; subst; exact Htr4.
    - inversion Hrun; subst. exists []. rewrite app_nil_r. reflexivity. }
  destruct Htail as (tr & Htr). exists tr.
  rewrite <- app_assoc in Htr. auto 10.
Qed.

(** Turns in a row add up. *)
Lemma turns_app (input : list selected) (i c : Z) (f : bool) (s : State W)
  (j c' : Z) (f' : bool) (s' : State W) (k c'' : Z) (f'' : bool) (s'' : State W) :
  turns remainingSnaps endPoints embeddedEtcdQuotaBytes input i c f s j c' f' s' ->
  turns remainingSnaps endPoints embeddedEtcdQuotaBytes input j c' f' s' k c'' f'' s'' ->
  turns remainingSnaps endPoints embeddedEtcdQuotaBytes input i c f s k c'' f'' s''.
Proof.
  induction 1 as [|i c f s filePath snap paths a1 s1 j c' f' s'
                    Hrec Hfull Hpos Hsnap Hbody Hrest IH]; intros Hnext;
    [exact Hnext|].
  eapply turns_cons; eauto.
Qed.

(** Every turn moves on by one delta and counts it. *)
Lemma turns_counter (input : list selected) (i c : Z) (f : bool) (s : State W)
  (j c' : Z) (f' : bool) (s' : State W) :
  turns remainingSnaps endPoints embeddedEtcdQuotaBytes input i c f s j c' f' s' ->
  i <= j /\ c' - c = j - i.
Proof.
  induction 1 as [|i c f s filePath snap paths a1 s1 j c' f' s'
                    Hrec Hfull Hpos Hsnap Hbody Hrest IH]; [lia|].
  apply applySnaps_body_spec in Hbody as (tr & _ & Hspec).
  cbn [numberOfDeltaSnapApplied] in Hspec.
  destruct Hspec as (_ & _ & _ & Hcount & _). lia.
Qed.

(** The [for] loop is a row of turns, and then the body on the next delta
    if the loop does not go on. *)
Lemma applySnaps_for_turns (input : list selected) (fuel : nat) :
  forall (currSnapIndex : Z) (a : applier) (s s' : State W) (r : outcome flow),
    currSnapIndex = nextSnapIndexToApply a ->
    0 <= currSnapIndex ->
    Z.of_nat fuel = len - currSnapIndex ->
    length (pathList a) = length remainingSnaps ->
    (forall (i : nat) (p : string),
        pathList a !! i = Some p -> p <> "" -> received input (Z.of_nat i) p) ->
    applySnaps_for remainingSnaps endPoints embeddedEtcdQuotaBytes
      fuel currSnapIndex a s = (r, s') ->
    exists (j counter : Z) (failed : bool) (mid : State W),
      turns remainingSnaps endPoints embeddedEtcdQuotaBytes input
        currSnapIndex (numberOfDeltaSnapApplied a)
        (prevAttemptToMakeEtcdLeanFailed a) s j counter failed mid /\
      j <= len /\
      match r with
      | Ok (Continue a') =>
          s' = mid /\ a' = mkApplier (pathList a) j counter failed
      | _ =>
          exists (filePath : string) (snap : Snapshot),
            received input j filePath /\ filePath <> "" /\
            remainingSnaps !! Z.to_nat j = Some snap /\
            applySnaps_body remainingSnaps endPoints embeddedEtcdQuotaBytes
              j snap filePath (mkApplier (pathList a) j counter failed) mid
            = (r, s')
      end.
Proof.
  induction fuel as [|fuel IH]; intros curr a s s' r Hcurr Hpos Hfuel Hlen Hrecv Hrun;
    cbn [applySnaps_for] in Hrun.
  - inversion Hrun; subst r s'.
    exists curr, (numberOfDeltaSnapApplied a), (prevAttemptToMakeEtcdLeanFailed a), s.
    split; [apply turns_nil|]. split; [lia|]. split; [reflexivity|].
    destruct a; cbn in *. congruence.
  - assert (Hlt : (Z.to_nat curr < length remainingSnaps)%nat) by (unfold len in Hfuel; lia).
    destruct (lookup_lt_is_Some_2 (pathList a) (Z.to_nat curr)) as [filePath Hpath];
      [lia|].
    destruct (lookup_lt_is_Some_2 remainingSnaps (Z.to_nat curr)) as [snap Hsnap];
      [lia|].
    rewrite Hpath, Hsnap in Hrun.
    destruct (String.eqb_spec filePath "") as [Hempty | Hfull].
    { inversion Hrun; subst r s'.
      exists curr, (numberOfDeltaSnapApplied a), (prevAttemptToMakeEtcdLeanFailed a), s.
      split; [apply turns_nil|]. split; [unfold len; lia|]. split; [reflexivity|].
      destruct a; cbn in *. congruence. }
    assert (Hrec : received input curr filePath).
    { rewrite <- (Z2Nat.id curr) by lia. apply Hrecv; assumption. }
    assert (Ha : a = mkApplier (pathList a) curr (numberOfDeltaSnapApplied a)
                       (prevAttemptToMakeEtcdLeanFailed a))
      by (destruct a; cbn in *; congruence).
    destruct (applySnaps_body remainingSnaps endPoints embeddedEtcdQuotaBytes
                curr snap filePath a s) as [fl s1] eqn:Hbody.
    unfold bind in Hrun. rewrite Hbody in Hrun.
    destruct fl as [[a1|]|msg].
    + pose proof (applySnaps_body_spec _ _ _ _ _ _ _ Hbody) as (tr1 & _ & Hspec).
      destruct Hspec as (Hpl & Hnext & _ & _).
      apply IH in Hrun as (j & counter & failed & mid & Hturns & Hj & Hres);
        [ | lia | lia | lia | congruence | rewrite Hpl; exact Hrecv ].
      exists j, counter, failed, mid.
      split.
      { rewrite Ha in Hbody. eapply turns_cons; eauto. }
      split; [exact Hj|].
      rewrite Hpl in Hres. exact Hres.
    + inversion Hrun; subst r s'.
      exists curr, (numberOfDeltaSnapApplied a), (prevAttemptToMakeEtcdLeanFailed a), s.
      split; [apply turns_nil|]. split; [unfold len; lia|].
      exists filePath, snap. rewrite <- Ha. auto.
    + inversion Hrun; subst r s'.
      exists curr, (numberOfDeltaSnapApplied a), (prevAttemptToMakeEtcdLeanFailed a), s.
      split; [apply turns_nil|]. split; [unfold len; lia|].
      exists filePath, snap. rewrite <- Ha. auto.
Qed.

(** The whole run of the applier is a row of turns from the delta it
    expects, and an ending. *)
Lemma applySnaps_select_turns (input rest : list selected) :
  forall (a : applier) (s s' : State W) (r : outcome applierStatus),
    (forall sel : selected, sel ∈ rest -> sel ∈ input) ->
    length (pathList a) = length remainingSnaps ->
    0 <= nextSnapIndexToApply a <= len ->
    (forall (i : nat) (p : string),
        pathList a !! i = Some p -> p <> "" -> received input (Z.of_nat i) p) ->
    applySnaps_select remainingSnaps endPoints embeddedEtcdQuotaBytes
      rest a s = (r, s') ->
    exists (j counter : Z) (failed : bool) (mid : State W),
      turns remainingSnaps endPoints embeddedEtcdQuotaBytes input
        (nextSnapIndexToApply a) (numberOfDeltaSnapApplied a)
        (prevAttemptToMakeEtcdLeanFailed a) s j counter failed mid /\
      j <= len /\
      ending remainingSnaps endPoints embeddedEtcdQuotaBytes input
        j counter failed mid r s'.
Proof.
  induction rest as [|sel rest IH]; intros a s s' r Hsub Hlen Hnext Hrecv Hrun;
    cbn [applySnaps_select] in Hrun.
  - inversion Hrun; subst r s'.
    exists (nextSnapIndexToApply a), (numberOfDeltaSnapApplied a),
      (prevAttemptToMakeEtcdLeanFailed a), s.
    split; [apply turns_nil|]. split; [lia|]. cbn. auto.
  - assert (Hsub' : forall sel' : selected, sel' ∈ rest -> sel' ∈ input).
    { intros sel' Hin. apply Hsub. apply list_elem_of_further. exact Hin. }
    destruct sel as [more | applierInfo].
    { destruct more; [apply IH; assumption|].
      inversion Hrun; subst r s'.
      exists (nextSnapIndexToApply a), (numberOfDeltaSnapApplied a),
        (prevAttemptToMakeEtcdLeanFailed a), s.
      split; [apply turns_nil|]. split; [lia|]. cbn. auto. }
    assert (Hmsg : received input (SnapIndex applierInfo) (SnapFilePath applierInfo)).
    { unfold received. destruct applierInfo. apply Hsub. apply list_elem_of_here. }
    unfold bind, applySnaps_applierInfo in Hrun.
    destruct (Z.eqb_spec (SnapIndex applierInfo) (-1)) as [Hsentinel | Hreal].
    { inversion Hrun; subst r s'.
      exists (nextSnapIndexToApply a), (numberOfDeltaSnapApplied a),
        (prevAttemptToMakeEtcdLeanFailed a), s.
      split; [apply turns_nil|]. split; [lia|]. cbn. auto. }
    destruct ((SnapIndex applierInfo <? 0)
              || (Z.of_nat (length (pathList a)) <=? SnapIndex applierInfo)) eqn:Hrange.
    { inversion Hrun; subst r s'.
      exists (nextSnapIndexToApply a), (numberOfDeltaSnapApplied a),
        (prevAttemptToMakeEtcdLeanFailed a), s.
      split; [apply turns_nil|]. split; [lia|]. cbn. auto. }
    apply orb_false_iff in Hrange as [Hlo Hhi].
    apply Z.ltb_ge in Hlo. apply Z.leb_gt in Hhi.
    cbn [nextSnapIndexToApply] in Hrun.
    set (buffered :=
           mkApplier (<[Z.to_nat (SnapIndex applierInfo) := SnapFilePath applierInfo]>
                        (pathList a))
             (nextSnapIndexToApply a) (numberOfDeltaSnapApplied a)
             (prevAttemptToMakeEtcdLeanFailed a)) in *.
    assert (Hrecv' : forall (i : nat) (p : string),
               pathList buffered !! i = Some p -> p <> "" ->
               received input (Z.of_nat i) p).
    { intros i p Hp Hfull. cbn [buffered pathList] in Hp.
      destruct (Nat.eq_dec (Z.to_nat (SnapIndex applierInfo)) i) as [<- | Hne].
      - rewrite list_lookup_insert_eq in Hp by lia.
        injection Hp as <-. rewrite Z2Nat.id by lia. exact Hmsg.
      - rewrite list_lookup_insert_ne in Hp by exact Hne. apply Hrecv; assumption. }
    assert (Hlen' : length (pathList buffered) = length remainingSnaps)
      by (cbn [buffered pathList]; rewrite length_insert; exact Hlen).
    destruct (Z.ltb_spec (SnapIndex applierInfo) (nextSnapIndexToApply a)) as [Hold | Hnew].
    { unfold emit, ret in Hrun. cbn in Hrun. inversion Hrun; subst r s'.
      exists (nextSnapIndexToApply a), (numberOfDeltaSnapApplied a),
        (prevAttemptToMakeEtcdLeanFailed a), s.
      split; [apply turns_nil|]. split; [lia|]. cbn. right. left.
      exists (SnapIndex applierInfo). split; [lia|]. auto. }
    destruct (Z.eqb_spec (SnapIndex applierInfo) (nextSnapIndexToApply a)) as [Heq | Hne].
    + destruct (applySnaps_for remainingSnaps endPoints embeddedEtcdQuotaBytes
                  (Z.to_nat (Z.of_nat (length remainingSnaps) - SnapIndex applierInfo))
                  (SnapIndex applierInfo) buffered s) as [fl s1] eqn:Hfor.
      apply (applySnaps_for_turns input) in Hfor
        as (j & counter & failed & mid & Hturns & Hj & Hres);
        [ | exact Heq | lia | unfold len in *; lia | exact Hlen' | exact Hrecv' ].
      cbn [buffered numberOfDeltaSnapApplied prevAttemptToMakeEtcdLeanFailed pathList]
        in Hturns, Hres.
      rewrite Heq in Hturns.
      pose proof (turns_counter _ _ _ _ _ _ _ _ _ Hturns) as [Hij _].
      destruct fl as [[a1|]|msg].
      * destruct Hres as [-> ->].
        apply IH in Hrun as (k & counter' & failed' & mid' & Hturns' & Hk & Hend);
          [ | exact Hsub' | cbn; rewrite length_insert; exact Hlen | cbn; lia
            | exact Hrecv' ].
        cbn [nextSnapIndexToApply numberOfDeltaSnapApplied
               prevAttemptToMakeEtcdLeanFailed] in Hturns'.
        exists k, counter', failed', mid'.
        split; [eapply turns_app; eauto|]. auto.
      * inversion Hrun; subst r s'.
        destruct Hres as (filePath & snap & Hrec & Hfull & Hsnap & Hbody).
        exists j, counter, failed, mid.
        split; [exact Hturns|]. split; [exact Hj|]. cbn. right. right.
        exists filePath, snap, (pathList buffered), (Ok Return_). auto.
      * inversion Hrun; subst r s'.
        destruct Hres as (filePath & snap & Hrec & Hfull & Hsnap & Hbody).
        exists j, counter, failed, mid.
        split; [exact Hturns|]. split; [exact Hj|]. cbn. right. right.
        exists filePath, snap, (pathList buffered), (Panic msg). auto.
    + unfold ret in Hrun. cbn in Hrun.
      apply IH in Hrun; [ | exact Hsub' | exact Hlen' | cbn; lia | exact Hrecv' ].
      exact Hrun.
Qed.

(** What a turn that goes on has done about the lean-keeper, and the
    variables it leaves. *)
Lemma applySnaps_body_continue_lean (currSnapIndex : Z) (snap : Snapshot)
  (filePath : string) (a a1 : applier) (s s1 : State W) :
  applySnaps_body remainingSnaps endPoints embeddedEtcdQuotaBytes
    currSnapIndex snap filePath a s = (Ok (Continue a1), s1) ->
  let next := nextSnapIndexToApply a + 1 in
  let applied := numberOfDeltaSnapApplied a + 1 in
  next <> len /\
  exists s3 : State W,
    (exists tr, trace s3 = trace s ++ tr /\
                errChSends tr = [] /\ compactions tr = []) /\
    if (Z.rem applied 10 =? 0) || prevAttemptToMakeEtcdLeanFailed a then
      exists lean : option error,
        MakeEtcdLeanAndCheckAlarm (LastRevision snap) endPoints
          embeddedEtcdQuotaBytes s3 = (Ok lean, s1) /\
        a1 = mkApplier (pathList a) next applied
               (match lean with Some _ => true | None => false end)
    else
      s1 = s3 /\ a1 = mkApplier (pathList a) next applied false.
Proof.
  intros Hrun next applied.
  destruct (applySnaps_body_continue _ _ _ _ _ _ _ Hrun)
    as (file & w1 & w3 & eventsData & events & s2 & rmErr & tr
        & Hopen & Hread & Hjson & Happly & Hremove & _).
  rewrite (applySnaps_body_applied currSnapIndex snap filePath a s s2 file w1 w3
             eventsData events rmErr Hopen Hread Hjson Happly Hremove) in Hrun.
  cbv zeta in Hrun. fold next applied in Hrun.
  destruct (Z.eqb_spec next len) as [|Hmore]; [discriminate Hrun|].
  split; [exact Hmore|].
  exists (mkState w3 (trace s2 ++ [ObsRemove filePath])).
  split.
  { eapply emits_run in Happly as (tr2 & Htr2 & Hall2);
      [|apply applyEventsAndVerify_silent].
    destruct (silent_projections tr2 Hall2) as (_ & He2 & Hc2).
    cbn [trace] in Htr2. cbn [trace]. rewrite Htr2.
    eexists. rewrite <- !app_assoc. split; [reflexivity|].
    unfold errChSends, compactions in *. rewrite !omap_app, He2, Hc2. auto. }
  unfold leanDue, periodicallyMakeEtcdLeanDeltaSnapshotInterval in Hrun.
  destruct ((Z.rem applied 10 =? 0) || prevAttemptToMakeEtcdLeanFailed a) eqn:Hdue.
  - destruct (MakeEtcdLeanAndCheckAlarm (LastRevision snap) endPoints
                embeddedEtcdQuotaBytes
                (mkState w3 (trace s2 ++ [ObsRemove filePath])))
      as [[[err|]|msg] s4]; inversion Hrun; subst; eauto.
  - apply orb_false_iff in Hdue as [_ Hprev]. rewrite Hprev in Hrun.
    inversion Hrun; subst. auto.
Qed.


(** C7, as the code has it.  The counter starts at 1 and the retry flag
    at false, and while the applier waits the counter is 1 plus the number
    of deltas it has applied.  After a delta applied without error that is
    not the last one, the counter is incremented; the lean-keeper is called
    exactly when the new counter is divisible by 10 or the retry flag is
    set, with the last revision of that delta; whatever it returns, nothing
    is sent on [errCh] and the loop goes on, with the retry flag set exactly
    when the call returned an error.  (After the last delta the applier
    returns before it touches the counter.)  The counter and the retry
    flag go from one delta to the next: the whole run is a row of turns of
    the loop for the deltas 0, 1, ..., j-1, the first with the counter at 1
    and the flag at false, each other with the counter and the flag the
    turn before has left, so that the counter is 1 + j after them; what
    follows that row calls the lean-keeper no more, unless it panics.  A
    turn that goes on has incremented the counter, has called the
    lean-keeper exactly when the new counter is divisible by 10 or the
    flag it has found is set, and leaves the flag set exactly when that
    call has returned an error. *)
Theorem applySnaps_lean_keeping :
  numberOfDeltaSnapApplied (applier_init remainingSnaps) = 1 /\
  prevAttemptToMakeEtcdLeanFailed (applier_init remainingSnaps) = false /\
  (forall (input : list selected) (s s' : State W) (a : applier),
     applySnaps remainingSnaps endPoints embeddedEtcdQuotaBytes input s
     = (Ok (Waiting a), s') ->
     numberOfDeltaSnapApplied a = 1 + nextSnapIndexToApply a /\
     exists tr, trace s' = trace s ++ tr /\
                appliedIndices tr = seqZ 0 (nextSnapIndexToApply a)) /\
  (forall (currSnapIndex : Z) (snap : Snapshot) (filePath : string)
          (a : applier) (s s2 : State W) (file : ReadCloser) (w1 w3 : W)
          (eventsData : list byte) (events : list Event) (rmErr : option error),
     os_Open filePath (world s) = (inr file, w1) ->
     readSnapshotContentsFromReadCloser file snap = inr eventsData ->
     json_Unmarshal eventsData = inr events ->
     applyEventsAndVerify events snap
       (mkState w1 (trace s ++ [ObsOpen filePath; ObsLogApplying currSnapIndex]))
     = (Ok None, s2) ->
     os_Remove filePath (world s2) = (rmErr, w3) ->
     nextSnapIndexToApply a + 1 <> len ->
     let s3 := mkState w3 (trace s2 ++ [ObsRemove filePath]) in
     let applied := numberOfDeltaSnapApplied a + 1 in
     let body :=
       applySnaps_body remainingSnaps endPoints embeddedEtcdQuotaBytes
         currSnapIndex snap filePath a s in
     (if (Z.rem applied 10 =? 0) || prevAttemptToMakeEtcdLeanFailed a then
        exists (lean : outcome (option error)) (s4 : State W),
          MakeEtcdLeanAndCheckAlarm (LastRevision snap) endPoints
            embeddedEtcdQuotaBytes s3 = (lean, s4) /\
          body = (match lean with
                  | Ok err =>
                      Ok (Continue
                            (mkApplier (pathList a) (nextSnapIndexToApply a + 1)
                               applied
                               (match err with Some _ => true | None => false end)))
                  | Panic msg => Panic msg
                  end, s4) /\
          exists tr, trace s4 = trace s3 ++ tr /\
                     errChSends tr = [] /\
                     compactions tr = [LastRevision snap]
      else
        body = (Ok (Continue
                      (mkApplier (pathList a) (nextSnapIndexToApply a + 1)
                         applied false)), s3)) /\
     exists tr, trace (snd body) = trace s ++ tr /\ errChSends tr = [] /\
                compactions tr
                = if (Z.rem applied 10 =? 0) || prevAttemptToMakeEtcdLeanFailed a
                  then [LastRevision snap] else []) /\
  (forall (input : list selected) (s s' : State W) (r : outcome applierStatus),
     applySnaps remainingSnaps endPoints embeddedEtcdQuotaBytes input s = (r, s') ->
     exists (j : Z) (failed : bool) (mid : State W),
       turns remainingSnaps endPoints embeddedEtcdQuotaBytes input
         0 1 false s j (1 + j) failed mid /\
       (forall a, r = Ok (Waiting a) ->
                  s' = mid /\ nextSnapIndexToApply a = j /\
                  numberOfDeltaSnapApplied a = 1 + j /\
                  prevAttemptToMakeEtcdLeanFailed a = failed) /\
       exists tr, trace s' = trace mid ++ tr /\
                  ((forall msg, r <> Panic msg) -> compactions tr = [])) /\
  (forall (currSnapIndex : Z) (snap : Snapshot) (filePath : string)
          (a a1 : applier) (s s1 : State W),
     applySnaps_body remainingSnaps endPoints embeddedEtcdQuotaBytes
       currSnapIndex snap filePath a s = (Ok (Continue a1), s1) ->
     let next := nextSnapIndexToApply a + 1 in
     let applied := numberOfDeltaSnapApplied a + 1 in
     next <> len /\
     exists s3 : State W,
       (exists tr, trace s3 = trace s ++ tr /\
                   errChSends tr = [] /\ compactions tr = []) /\
       if (Z.rem applied 10 =? 0) || prevAttemptToMakeEtcdLeanFailed a then
         exists lean : option error,
           MakeEtcdLeanAndCheckAlarm (LastRevision snap) endPoints
             embeddedEtcdQuotaBytes s3 = (Ok lean, s1) /\
           a1 = mkApplier (pathList a) next applied
                  (match lean with Some _ => true | None => false end)
       else
         s1 = s3 /\ a1 = mkApplier (pathList a) next applied false).
Proof.
  split; [reflexivity|]. split; [reflexivity|]. split; [|split; [|split]].
  - intros input s s' a Hrun. unfold applySnaps in Hrun.
    apply applySnaps_select_spec in Hrun as (tr & k & Htr & Hk & Hle & Happlied & Hres);
      cbn [applier_init pathList nextSnapIndexToApply numberOfDeltaSnapApplied] in *;
      [ | rewrite length_replicate; reflexivity | fold len; lia ].
    destruct Hres as (Hnext & Hcount & _). rewrite Z.add_0_l in *.
    split; [lia|]. exists tr. rewrite Hnext. auto.
  - intros curr snap filePath a s s2 file w1 w3 eventsData events rmErr
      Hopen Hread Hjson Happly Hremove Hmore s3 applied body.
    pose proof (applySnaps_body_applied curr snap filePath a s s2 file w1 w3
                  eventsData events rmErr Hopen Hread Hjson Happly Hremove) as Hbody.
    cbv zeta in Hbody. fold s3 applied body in Hbody.
    destruct (Z.eqb_spec (nextSnapIndexToApply a + 1) len) as [|_]; [contradiction|].
    unfold leanDue, periodicallyMakeEtcdLeanDeltaSnapshotInterval in Hbody.
    assert (Hpre : exists tr0, trace s3 = trace s ++ tr0 /\ errChSends tr0 = [] /\
                               compactions tr0 = []).
    { eapply emits_run in Happly as (tr2 & Htr2 & Hall2);
        [|apply applyEventsAndVerify_silent].
      destruct (silent_projections tr2 Hall2) as (_ & He2 & Hc2).
      cbn [trace] in Htr2. subst s3. cbn [trace]. rewrite Htr2.
      eexists. rewrite <- !app_assoc. split; [reflexivity|].
      unfold errChSends, compactions in *. rewrite !omap_app, He2, Hc2. auto. }
    destruct Hpre as (tr0 & Htr0 & He0 & Hc0).
    destruct ((Z.rem applied 10 =? 0) || prevAttemptToMakeEtcdLeanFailed a) eqn:Hdue.
    + destruct (MakeEtcdLeanAndCheckAlarm (LastRevision snap) endPoints
                  embeddedEtcdQuotaBytes s3) as [lean s4] eqn:Hlean.
      pose proof (MakeEtcdLeanAndCheckAlarm_trace _ _ _ _ _ _ Hlean)
        as (tr4 & Htr4 & _ & He4 & Hc4).
      split.
      * exists lean, s4. split; [reflexivity|]. split.
        -- rewrite Hbody. destruct lean as [[err|]|msg]; reflexivity.
        -- exists tr4. auto.
      * exists (tr0 ++ tr4).
        assert (Hs4 : snd body = s4)
          by (rewrite Hbody; destruct lean as [[err|]|msg]; reflexivity).
        rewrite Hs4, Htr4, Htr0, <- app_assoc. split; [reflexivity|].
        unfold errChSends, compactions in *. rewrite !omap_app, He0, He4, Hc0, Hc4. auto.
    + apply orb_false_iff in Hdue as [_ Hprev]. rewrite Hprev in Hbody.
      split; [exact Hbody|].
      exists tr0. rewrite Hbody. cbn [snd]. auto.
  - intros input s s' r Hrun. unfold applySnaps in Hrun.
    apply (applySnaps_select_turns input) in Hrun
      as (j & counter & failed & mid & Hturns & Hj & Hend);
      cbn [applier_init pathList nextSnapIndexToApply numberOfDeltaSnapApplied
             prevAttemptToMakeEtcdLeanFailed] in *;
      [ | auto | rewrite length_replicate; reflexivity | fold len; lia
        | intros i p Hp Hfull; apply lookup_replicate in Hp as [Hp _]; congruence ].
    pose proof (turns_counter _ _ _ _ _ _ _ _ _ Hturns) as [_ Hcount].
    assert (Hc : counter = 1 + j) by lia. subst counter.
    exists j, failed, mid. split; [exact Hturns|].
    unfold ending in Hend.
    destruct r as [[|a']|msg].
    + split; [discriminate|].
      destruct Hend as [-> | [(idx & _ & _ & ->) | (filePath & snap & paths & r0 & _ & _ & _ & Hbody & Hr0)]].
      * exists []. rewrite app_nil_r. auto.
      * eexists. cbn [trace]. split; [reflexivity|]. reflexivity.
      * apply applySnaps_body_spec in Hbody as (tr & Htr & Hspec).
        exists tr. split; [exact Htr|]. intros _.
        destruct r0 as [[a1|]|msg]; [contradiction | | discriminate].
        destruct Hspec as [Hc _]. exact Hc.
    + destruct Hend as (-> & Hnext & Hcount' & Hflag).
      split; [intros a [= <-]; auto|].
      exists []. rewrite app_nil_r. auto.
    + split; [discriminate|].
      destruct Hend as [-> | [(idx & _ & Hr & _) | (filePath & snap & paths & r0 & _ & _ & _ & Hbody & Hr0)]].
      * exists []. rewrite app_nil_r. split; [reflexivity|]. intros H. destruct (H msg eq_refl).
      * discriminate.
      * apply applySnaps_body_spec in Hbody as (tr & Htr & _).
        exists tr. split; [exact Htr|]. intros H. destruct (H msg eq_refl).
  - exact applySnaps_body_continue_lean.
Qed.

(** C5, as the code has it.  [verifySnapshotRevision] asks etcd with
    [Get("foo")] and compares the revision of the response with the last
    revision recorded in the snapshot handle: it returns the mismatch error
    exactly when the two differ.  So does [applyEventsAndVerify] once the
    events are applied.  In the applier, on a match the loop moves on to
    the next delta (or reports the end with nil after the last one), and on
    a mismatch the error goes to [errCh] and the applier returns. *)
Theorem verifySnapshotRevision_checks_handle :
  (forall (snap : Snapshot) (s : State W) (resp : error + Z) (w' : W),
     KV_Get "foo" false (world s) = (resp, w') ->
     verifySnapshotRevision snap s
     = (Ok match resp with
           | inl err => Some (ErrConnectKV err)
           | inr etcdRevision =>
               if etcdRevision =? LastRevision snap then None
               else Some (ErrMismatchedRevision (LastRevision snap) etcdRevision)
           end,
        mkState w' (trace s ++ [ObsGet "foo" false resp]))) /\
  (forall (events : list Event) (snap : Snapshot) (s s1 : State W)
          (etcdRevision : Z) (w2 : W),
     applyEventsToEtcd events s = (Ok None, s1) ->
     KV_Get "foo" false (world s1) = (inr etcdRevision, w2) ->
     applyEventsAndVerify events snap s
     = (Ok (if etcdRevision =? LastRevision snap then None
            else Some (ErrVerifyRevision (SnapName snap)
                         (ErrMismatchedRevision (LastRevision snap) etcdRevision))),
        mkState w2 (trace s1 ++ [ObsGet "foo" false (inr etcdRevision)]))) /\
  (forall (currSnapIndex : Z) (snap : Snapshot) (filePath : string)
          (a : applier) (s s1 : State W) (file : ReadCloser) (w1 w2 : W)
          (eventsData : list byte) (events : list Event) (etcdRevision : Z),
     os_Open filePath (world s) = (inr file, w1) ->
     readSnapshotContentsFromReadCloser file snap = inr eventsData ->
     json_Unmarshal eventsData = inr events ->
     applyEventsToEtcd events
       (mkState w1 (trace s ++ [ObsOpen filePath; ObsLogApplying currSnapIndex]))
     = (Ok None, s1) ->
     KV_Get "foo" false (world s1) = (inr etcdRevision, w2) ->
     let body :=
       applySnaps_body remainingSnaps endPoints embeddedEtcdQuotaBytes
         currSnapIndex snap filePath a s in
     let verified := trace s1 ++ [ObsGet "foo" false (inr etcdRevision)] in
     if etcdRevision =? LastRevision snap then
       exists tr, trace (snd body) = verified ++ tr /\
         match fst body with
         | Ok (Continue a') =>
             nextSnapIndexToApply a' = nextSnapIndexToApply a + 1 /\
             errChSends tr = []
         | Ok Return_ =>
             nextSnapIndexToApply a + 1 = len /\ errChSends tr = [None]
         | Panic _ => errChSends tr = []
         end
     else
       body = (Ok Return_,
               mkState w2
                 (verified ++
                  [ObsErrCh (Some (ErrVerifyRevision (SnapName snap)
                                     (ErrMismatchedRevision (LastRevision snap)
                                        etcdRevision)))]))).
Proof.
  assert (Hverify : forall (snap : Snapshot) (s : State W) (resp : error + Z) (w' : W),
     KV_Get "foo" false (world s) = (resp, w') ->
     verifySnapshotRevision snap s
     = (Ok match resp with
           | inl err => Some (ErrConnectKV err)
           | inr etcdRevision =>
               if etcdRevision =? LastRevision snap then None
               else Some (ErrMismatchedRevision (LastRevision snap) etcdRevision)
           end,
        mkState w' (trace s ++ [ObsGet "foo" false resp]))).
  { intros snap s resp w' Hget. unfold verifySnapshotRevision, bind, call.
    rewrite Hget. destruct resp as [err | etcdRevision]; [reflexivity|].
    rewrite (Z.eqb_sym (LastRevision snap)).
    destruct (etcdRevision =? LastRevision snap); reflexivity. }
  assert (Hboth : forall (events : list Event) (snap : Snapshot) (s s1 : State W)
          (etcdRevision : Z) (w2 : W),
     applyEventsToEtcd events s = (Ok None, s1) ->
     KV_Get "foo" false (world s1) = (inr etcdRevision, w2) ->
     applyEventsAndVerify events snap s
     = (Ok (if etcdRevision =? LastRevision snap then None
            else Some (ErrVerifyRevision (SnapName snap)
                         (ErrMismatchedRevision (LastRevision snap) etcdRevision))),
        mkState w2 (trace s1 ++ [ObsGet "foo" false (inr etcdRevision)]))).
  { intros events snap s s1 etcdRevision w2 Happly Hget.
    unfold applyEventsAndVerify, bind. rewrite Happly.
    rewrite (Hverify snap s1 _ _ Hget).
    destruct (etcdRevision =? LastRevision snap); reflexivity. }
  split; [exact Hverify|]. split; [exact Hboth|].
  intros curr snap filePath a s s1 file w1 w2 eventsData events etcdRevision
    Hopen Hread Hjson Happly Hget body verified.
  pose proof (Hboth events snap _ s1 etcdRevision w2 Happly Hget) as Hav.
  fold verified in Hav.
  destruct (etcdRevision =? LastRevision snap).
  - destruct (os_Remove filePath w2) as [rmErr w3] eqn:Hremove.
    pose proof (applySnaps_body_applied curr snap filePath a s _ file w1 w3
                  eventsData events rmErr Hopen Hread Hjson Hav Hremove) as Hbody.
    cbv zeta in Hbody. fold body in Hbody. cbn [trace] in Hbody.
    destruct (Z.eqb_spec (nextSnapIndexToApply a + 1) len) as [Hlast | Hmore].
    { rewrite Hbody. cbn [fst snd trace]. eexists. rewrite <- app_assoc.
      split; [reflexivity|]. cbn. auto. }
    destruct (leanDue _ _).
    + destruct (MakeEtcdLeanAndCheckAlarm _ _ _ _) as [lean s4] eqn:Hlean.
      apply MakeEtcdLeanAndCheckAlarm_trace in Hlean as (tr4 & Htr4 & _ & He4 & _).
      cbn [trace] in Htr4. unfold errChSends in *.
      destruct lean as [[err|]|msg]; rewrite Hbody; cbn [fst snd];
        (eexists; rewrite Htr4, <- app_assoc; split; [reflexivity|]);
        rewrite omap_app, He4; cbn; auto.
    + rewrite Hbody. cbn [fst snd trace]. eexists. split; [reflexivity|]. cbn. auto.
  - subst body. unfold applySnaps_body, readSnapshotContentsFromFile, bind, call, emit, ret.
    rewrite Hopen. cbv beta iota. cbn [world trace]. rewrite Hread.
    cbv beta iota. rewrite Hjson. cbv beta iota. cbn [world trace].
    rewrite <- app_assoc. cbn [app]. rewrite Hav. reflexivity.
Qed.

End Body.

End ApplierFacts.

(* ----------------------------------------------------------------- *)
(** ** The lean-keeper *)

Section LeanFacts.

Context {W : Type} {E : Env W}.

Lemma raiseAlarm_loop_spec (endPoints : list string) :
  forall (s s' : State W) (r : outcome (option error)),
    raiseAlarm_loop endPoints s = (r, s') ->
    exists rounds : list (option error * (error + StatusResponse)),
      trace s' = trace s ++ concat (zip_with alarmRound endPoints rounds) /\
      (length rounds <= length endPoints)%nat /\
      match r with
      | Ok None =>
          length rounds = length endPoints /\
          Forall (fun round => fst round = None) rounds
      | Ok (Some err) =>
          err = ErrDisalarm /\
          exists done cause after,
            rounds = done ++ [(Some cause, after)] /\
            Forall (fun round => fst round = None) done
      | Panic _ => False
      end.
Proof.
  induction endPoints as [|endPoint endPoints IH]; intros s s' r Hrun;
    cbn [raiseAlarm_loop] in Hrun.
  - inversion Hrun; subst. exists []. cbn. rewrite app_nil_r. auto.
  - apply run_bind_emit in Hrun.
    apply run_bind in Hrun as [(ok & s1 & Hhandle & Hrun) | (msg & Hhandle & _)];
      unfold HandleAlarm_alarm in Hhandle;
      apply run_bind_call in Hhandle as (defrag & w1 & Hdefrag & Hhandle);
      cbn [trace world] in Hhandle.
    2:{ destruct defrag; discriminate. }
    apply run_bind_emit in Hrun.
    destruct defrag as [cause|]; inversion Hhandle; subst ok s1; clear Hhandle;
      cbn [negb trace world] in Hrun.
    + inversion Hrun; subst.
      exists [(Some cause, inl cause)]. cbn [zip_with concat alarmRound trace length].
      rewrite zip_with_nil_r. cbn [concat].
      rewrite ?app_nil_r, <- ?app_assoc. cbn [app]. split; [reflexivity|].
      split; [cbn; lia|].
      split; [reflexivity|]. exists [], cause, (inl cause). auto.
    + apply run_bind_call in Hrun as (after & w2 & Hafter & Hrun).
      cbn [trace] in Hrun.
      apply IH in Hrun as (rounds & Htr & Hlen & Hres).
      exists ((None, after) :: rounds).
      cbn [zip_with concat alarmRound trace length]. cbn [trace] in Htr.
      rewrite Htr, <- ?app_assoc. cbn [app]. split; [reflexivity|].
      split; [cbn; lia|].
      destruct r as [[err|]|msg]; [| |exact Hres].
      * destruct Hres as (Herr & done & cause & after' & Hrounds & Hdone).
        split; [exact Herr|]. exists ((None, after) :: done), cause, after'.
        rewrite Hrounds. split; [reflexivity|]. constructor; auto.
      * destruct Hres as (Hlen' & Hall). split; [cbn; lia|]. constructor; auto.
Qed.

(** The constant [80.0 / 100.0] is the [float64] next to 0.8: its mantissa
    [m] has [m / 2^53] within half a unit in the last place of [4 / 5]. *)
Lemma thresholdPercentageForDBSizeAlarm_value :
  thresholdPercentageForDBSizeAlarm = S754_finite false 7205759403792794 (-53) /\
  2 * Z.abs (5 * 7205759403792794 - 4 * 2 ^ 53) < 5.
Proof. split; [vm_compute; reflexivity | vm_compute; reflexivity]. Qed.

End LeanFacts.

(* ----------------------------------------------------------------- *)
(** ** The threshold in [float64]

    [dbSizeCrossesThreshold] computes in [float64].  For a quota of at most
    [2^50] bytes and sizes below [2^53] the rounding of the product
    [0.8 * quota] never changes the outcome of the comparison. *)

Section Float64Facts.

(** The number of binary digits of a positive number. *)
Lemma digits2_pos_bounds (p : positive) :
  2 ^ (Zpos (digits2_pos p) - 1) <= Zpos p < 2 ^ Zpos (digits2_pos p).
Proof.
  induction p as [p IH | p IH |]; cbn [digits2_pos].
  - rewrite Pos2Z.inj_succ.
    replace (Z.succ (Zpos (digits2_pos p)) - 1) with (Zpos (digits2_pos p)) by lia.
    rewrite Z.pow_succ_r by lia.
    assert (Hpow : 2 ^ Zpos (digits2_pos p) = 2 * 2 ^ (Zpos (digits2_pos p) - 1)).
    { rewrite <- Z.pow_succ_r by lia. f_equal. lia. }
    lia.
  - rewrite Pos2Z.inj_succ.
    replace (Z.succ (Zpos (digits2_pos p)) - 1) with (Zpos (digits2_pos p)) by lia.
    rewrite Z.pow_succ_r by lia.
    assert (Hpow : 2 ^ Zpos (digits2_pos p) = 2 * 2 ^ (Zpos (digits2_pos p) - 1)).
    { rewrite <- Z.pow_succ_r by lia. f_equal. lia. }
    lia.
  - cbn. lia.
Qed.

(** The number of binary digits is fixed by the powers of two around. *)
Lemma digits2_pos_unique (p : positive) (d : Z) :
  2 ^ (d - 1) <= Zpos p < 2 ^ d -> Zpos (digits2_pos p) = d.
Proof.
  intros [Hlo Hhi]. pose proof (digits2_pos_bounds p) as [Hlo' Hhi'].
  assert (Hd : 0 < d).
  { destruct (Z.ltb_spec 0 d); [assumption|].
    exfalso. destruct (Z.eq_dec d 0) as [-> | Hne].
    - cbn in Hhi. lia.
    - rewrite Z.pow_neg_r in Hhi by lia. lia. }
  destruct (Z.lt_trichotomy (Zpos (digits2_pos p)) d) as [Hlt | [Heq | Hgt]].
  - exfalso.
    assert (2 ^ Zpos (digits2_pos p) <= 2 ^ (d - 1)) by (apply Z.pow_le_mono_r; lia).
    lia.
  - exact Heq.
  - exfalso.
    assert (2 ^ d <= 2 ^ (Zpos (digits2_pos p) - 1)) by (apply Z.pow_le_mono_r; lia).
    lia.
Qed.

(** [iter_pos] is iteration. *)
Lemma iter_pos_nat {A : Type} (f : A -> A) (n : positive) :
  forall x : A, SpecFloat.iter_pos f n x = Nat.iter (Pos.to_nat n) f x.
Proof.
  induction n as [n IH | n IH |]; intros x; cbn [SpecFloat.iter_pos].
  - rewrite !IH, Pos2Nat.inj_xI.
    replace (S (2 * Pos.to_nat n)) with (Pos.to_nat n + (Pos.to_nat n + 1))%nat by lia.
    rewrite !Nat.iter_add. reflexivity.
  - rewrite !IH, Pos2Nat.inj_xO.
    replace (2 * Pos.to_nat n)%nat with (Pos.to_nat n + Pos.to_nat n)%nat by lia.
    rewrite Nat.iter_add. reflexivity.
  - reflexivity.
Qed.

(** One shift to the right of a non-negative mantissa. *)
Lemma shr_1_nonneg (m : Z) (r s : bool) :
  0 <= m ->
  shr_1 (Build_shr_record m r s) = Build_shr_record (m / 2) (Z.odd m) (r || s).
Proof.
  intros Hm. destruct m as [|p|p]; [reflexivity | | lia].
  destruct p as [p | p |]; cbn [shr_1].
  - f_equal. rewrite Pos2Z.inj_xI.
    apply (Z.div_unique_pos _ _ _ 1); lia.
  - f_equal. rewrite Pos2Z.inj_xO.
    apply (Z.div_unique_pos _ _ _ 0); lia.
  - reflexivity.
Qed.

(** After [j + 1] shifts of [M] the record holds the quotient by
    [2^(j+1)], the bit below it, and whether anything is left below that
    bit. *)
Lemma shr_1_iter (M : Z) :
  0 <= M ->
  forall j : nat,
    let mrs := Nat.iter (S j) shr_1 (Build_shr_record M false false) in
    0 <= shr_m mrs /\
    exists t : Z,
      M = shr_m mrs * 2 ^ (Z.of_nat j + 1)
          + (if shr_r mrs then 2 ^ Z.of_nat j else 0) + t /\
      0 <= t < 2 ^ Z.of_nat j /\
      shr_s mrs = negb (t =? 0).
Proof.
  intros HM. induction j as [|j IH].
  - cbn [Nat.iter]. rewrite shr_1_nonneg by assumption. cbn [shr_m shr_r shr_s orb].
    split; [apply Z.div_pos; lia|]. exists 0.
    change (2 ^ (Z.of_nat 0 + 1)) with 2. change (2 ^ Z.of_nat 0) with 1.
    pose proof (Z.div_mod M 2 ltac:(lia)) as Hdiv.
    pose proof (Zmod_odd M) as Hodd.
    destruct (Z.odd M); repeat split; try lia.
  - cbn zeta in IH |- *. rewrite Nat.iter_succ.
    destruct (Nat.iter (S j) shr_1 (Build_shr_record M false false)) as [m r s].
    cbn [shr_m shr_r shr_s] in IH. destruct IH as (Hm & t & HM' & Ht & Hs).
    rewrite shr_1_nonneg by assumption. cbn [shr_m shr_r shr_s].
    split; [apply Z.div_pos; lia|].
    exists ((if r then 2 ^ Z.of_nat j else 0) + t).
    rewrite Nat2Z.inj_succ.
    replace (Z.succ (Z.of_nat j) + 1) with (Z.succ (Z.of_nat j + 1)) by lia.
    rewrite !Z.pow_succ_r by lia.
    pose proof (Z.div_mod m 2 ltac:(lia)) as Hdiv.
    pose proof (Zmod_odd m) as Hodd.
    assert (Hpow : 0 < 2 ^ Z.of_nat j) by (apply Z.pow_pos_nonneg; lia).
    assert (Hpow1 : 2 ^ (Z.of_nat j + 1) = 2 * 2 ^ Z.of_nat j)
      by (rewrite Z.pow_add_r by lia; change (2 ^ 1) with 2; lia).
    rewrite Hpow1 in *. generalize dependent (2 ^ Z.of_nat j). intros P.
    intros. repeat split.
    + destruct (Z.odd m); destruct r; nia.
    + destruct r; lia.
    + destruct r; lia.
    + rewrite Hs. destruct r; cbn [orb].
      * destruct (Z.eqb_spec (P + t) 0); [lia | reflexivity].
      * reflexivity.
Qed.

(** Rounding to nearest after [j + 1] shifts: the mantissa kept times
    [2^(j+1)] is at most half of [2^(j+1)] away from [M]. *)
Lemma round_nearest_even_shr (M : Z) (j : nat) :
  0 <= M ->
  let mrs := Nat.iter (S j) shr_1 (Build_shr_record M false false) in
  let m1 := round_nearest_even (shr_m mrs) (loc_of_shr_record mrs) in
  let k := Z.of_nat j + 1 in
  M / 2 ^ k <= m1 <= M / 2 ^ k + 1 /\
  - 2 ^ k <= 2 * (M - m1 * 2 ^ k) <= 2 ^ k.
Proof.
  intros HM mrs m1 k.
  destruct (shr_1_iter M HM j) as (Hm & t & HMeq & Ht & Hs).
  fold mrs in Hm, HMeq, Hs. subst m1. fold k in HMeq.
  assert (Hk : 2 ^ k = 2 * 2 ^ Z.of_nat j)
    by (unfold k; rewrite Z.pow_add_r by lia; change (2 ^ 1) with 2; lia).
  assert (HP : 0 < 2 ^ Z.of_nat j) by (apply Z.pow_pos_nonneg; lia).
  assert (Hquot : M / 2 ^ k = shr_m mrs).
  { symmetry. apply (Z.div_unique_pos _ _ _ ((if shr_r mrs then 2 ^ Z.of_nat j else 0) + t)).
    - destruct (shr_r mrs); lia.
    - lia. }
  rewrite Hquot. destruct mrs as [m r s0]. cbn [shr_m shr_r shr_s] in *.
  rewrite Hk in *. generalize dependent (2 ^ Z.of_nat j). intros P. intros.
  unfold loc_of_shr_record, round_nearest_even.
  destruct r, s0; try destruct (Z.even m);
    destruct (Z.eqb_spec t 0); cbn in Hs; try discriminate; nia.
Qed.

(** Rounding a mantissa of more than 53 bits to binary64. *)
Lemma binary_round_aux_wide (M : positive) (E : Z) :
  let D := Zpos (digits2_pos M) in
  54 <= D ->
  -1074 <= D + E - 53 ->
  D + E - 52 <= 971 ->
  exists (m : positive) (e : Z),
    binary_round_aux 53 1024 false (Zpos M) E loc_Exact = S754_finite false m e /\
    2 ^ 52 <= Zpos m < 2 ^ 53 /\
    (e = E + (D - 53) \/ e = E + (D - 52)) /\
    - 2 ^ (e - E) <= 2 * (Zpos M - Zpos m * 2 ^ (e - E)) <= 2 ^ (e - E).
Proof.
  intros D HD Hlo Hhi.
  pose proof (digits2_pos_bounds M) as HM. fold D in HM.
  unfold binary_round_aux, shr_fexp.
  cbn [Zdigits2 shr_record_of_loc]. fold D.
  assert (Hfexp : fexp 53 1024 (D + E) = D + E - 53).
  { unfold fexp, emin. lia. }
  rewrite Hfexp.
  replace (D + E - 53 - E) with (Zpos (Z.to_pos (D - 53))) by lia.
  unfold shr at 1. rewrite iter_pos_nat.
  assert (Hj : Pos.to_nat (Z.to_pos (D - 53)) = S (Z.to_nat (D - 54))) by lia.
  rewrite Hj.
  pose proof (round_nearest_even_shr (Zpos M) (Z.to_nat (D - 54)) ltac:(lia))
    as [Hm1 Hnear].
  cbv zeta in Hm1, Hnear.
  replace (Z.of_nat (Z.to_nat (D - 54)) + 1) with (D - 53) in Hm1, Hnear by lia.
  set (m1 := round_nearest_even _ _) in *.
  set (e1 := E + Zpos (Z.to_pos (D - 53))).
  assert (He1 : e1 = E + (D - 53)) by (unfold e1; lia).
  assert (Hpow : 2 ^ D = 2 ^ 53 * 2 ^ (D - 53))
    by (rewrite <- Z.pow_add_r by lia; f_equal; lia).
  assert (Hpow' : 2 ^ (D - 1) = 2 ^ 52 * 2 ^ (D - 53))
    by (rewrite <- Z.pow_add_r by lia; f_equal; lia).
  assert (Hn : 0 < 2 ^ (D - 53)) by (apply Z.pow_pos_nonneg; lia).
  assert (Hq : 2 ^ 52 <= Zpos M / 2 ^ (D - 53) < 2 ^ 53).
  { split.
    - apply Z.div_le_lower_bound; lia.
    - apply Z.div_lt_upper_bound; lia. }
  assert (Hm1r : 2 ^ 52 <= m1 <= 2 ^ 53) by lia.
  destruct (Z.eq_dec m1 (2 ^ 53)) as [Htop | Hnot].
  - (* the rounded mantissa has 54 bits: one more shift *)
    rewrite Htop. change (Zdigits2 (2 ^ 53)) with 54.
    assert (Hfexp2 : fexp 53 1024 (54 + e1) = e1 + 1) by (unfold fexp, emin; lia).
    rewrite Hfexp2. replace (e1 + 1 - e1) with 1 by lia.
    cbn [shr SpecFloat.iter_pos shr_record_of_loc shr_1 shr_m Z.pow Z.pow_pos Pos.iter Z.mul Pos.mul].
    exists 4503599627370496%positive, (e1 + 1).
    destruct (Z.leb_spec (e1 + 1) (1024 - 53)); [|lia].
    split; [reflexivity|]. split; [lia|]. split; [right; lia|].
    replace (e1 + 1 - E) with (D - 53 + 1) by lia.
    rewrite Z.pow_add_r by lia. change (2 ^ 1) with 2.
    rewrite Htop in Hnear. change (Zpos 4503599627370496) with (2 ^ 52).
    change (2 ^ 53) with (2 * 2 ^ 52) in Hnear. nia.
  - assert (Hdig : Zdigits2 m1 = 53).
    { destruct m1 as [|p|p]; try lia. cbn [Zdigits2].
      apply digits2_pos_unique. lia. }
    rewrite Hdig.
    assert (Hfexp2 : fexp 53 1024 (53 + e1) = e1) by (unfold fexp, emin; lia).
    rewrite Hfexp2, Z.sub_diag. cbn [shr shr_record_of_loc shr_m].
    destruct m1 as [|p|p]; try lia.
    exists p, e1.
    destruct (Z.leb_spec e1 (1024 - 53)); [|lia].
    split; [reflexivity|]. split; [lia|]. split; [left; lia|].
    replace (e1 - E) with (D - 53) by lia. exact Hnear.
Qed.

(** Shifting to the left multiplies by a power of two. *)
Lemma iter_xO_spec (p n : positive) :
  Zpos (Pos.iter xO p n) = Zpos p * 2 ^ Zpos n.
Proof.
  induction n as [|n IH] using Pos.peano_ind.
  - cbn [Pos.iter]. rewrite Pos2Z.inj_xO. change (2 ^ 1) with 2. lia.
  - rewrite Pos.iter_succ, Pos2Z.inj_xO, IH, Pos2Z.inj_succ, Z.pow_succ_r by lia. lia.
Qed.

(** A mantissa of exactly 53 bits is kept as it is. *)
Lemma binary_round_aux_exact (m : positive) (e : Z) :
  Zpos (digits2_pos m) = 53 ->
  -1074 <= e <= 971 ->
  binary_round_aux 53 1024 false (Zpos m) e loc_Exact = S754_finite false m e.
Proof.
  intros Hd He. unfold binary_round_aux, shr_fexp.
  cbn [Zdigits2 shr_record_of_loc]. rewrite Hd.
  assert (Hfexp : fexp 53 1024 (53 + e) = e) by (unfold fexp, emin; lia).
  rewrite Hfexp, Z.sub_diag.
  cbn [shr shr_m loc_of_shr_record round_nearest_even Zdigits2 shr_record_of_loc].
  rewrite Hd, Hfexp, Z.sub_diag. cbn [shr shr_m].
  destruct (Z.leb_spec e (1024 - 53)); [reflexivity | lia].
Qed.

(** An integer below [2^53] is a [float64]: the conversion is exact, with
    the mantissa brought to 53 bits. *)
Lemma float64_of_int_exact (z : Z) :
  0 < z < 2 ^ 53 ->
  exists (m : positive) (e : Z),
    float64_of_int z = S754_finite false m e /\
    2 ^ 52 <= Zpos m < 2 ^ 53 /\
    -52 <= e <= 0 /\
    Zpos m = z * 2 ^ (- e).
Proof.
  intros Hz. destruct z as [|p|p]; try lia.
  unfold float64_of_int, binary_normalize, binary_round.
  pose proof (digits2_pos_bounds p) as Hp.
  set (d := Zpos (digits2_pos p)) in *.
  assert (Hd : 1 <= d <= 53).
  { split; [unfold d; lia|].
    destruct (Z.le_gt_cases d 53) as [Hle | Hgt]; [exact Hle|].
    assert (2 ^ 53 <= 2 ^ (d - 1)) by (apply Z.pow_le_mono_r; lia). lia. }
  assert (Hfexp : fexp 53 1024 (d + 0) = d - 53) by (unfold fexp, emin; lia).
  rewrite Hfexp. unfold shl_align.
  destruct (Z.eq_dec d 53) as [H53 | Hlt].
  - rewrite H53. cbn [Z.sub Z.add Z.opp Z.pos_sub].
    change (53 - 53 - 0) with 0. cbv iota.
    rewrite binary_round_aux_exact by (fold d; lia).
    exists p, 0. rewrite H53 in Hp. change (2 ^ (- 0)) with 1.
    repeat split; lia.
  - replace (d - 53 - 0) with (Zneg (Z.to_pos (53 - d))) by lia. cbv iota.
    assert (Hm : Zpos (Pos.iter xO p (Z.to_pos (53 - d))) = Zpos p * 2 ^ (53 - d)).
    { rewrite iter_xO_spec. f_equal. f_equal. lia. }
    assert (Hpow : 2 ^ 53 = 2 ^ d * 2 ^ (53 - d))
      by (rewrite <- Z.pow_add_r by lia; f_equal; lia).
    assert (Hpow' : 2 ^ 52 = 2 ^ (d - 1) * 2 ^ (53 - d))
      by (rewrite <- Z.pow_add_r by lia; f_equal; lia).
    assert (Hn : 0 < 2 ^ (53 - d)) by (apply Z.pow_pos_nonneg; lia).
    rewrite binary_round_aux_exact.
    + eexists _, (d - 53). split; [reflexivity|].
      rewrite Hm. replace (- (d - 53)) with (53 - d) by lia.
      repeat split; nia.
    + apply digits2_pos_unique. rewrite Hm. change (53 - 1) with 52. nia.
    + lia.
Qed.

(** Two positive normal numbers compare as their values. *)
Lemma SFltb_normal (m1 m2 : positive) (e1 e2 c : Z) :
  2 ^ 52 <= Zpos m1 < 2 ^ 53 -> 2 ^ 52 <= Zpos m2 < 2 ^ 53 ->
  c <= e1 -> c <= e2 ->
  SFltb (S754_finite false m1 e1) (S754_finite false m2 e2)
  = (Zpos m1 * 2 ^ (e1 - c) <? Zpos m2 * 2 ^ (e2 - c)).
Proof.
  intros H1 H2 Hc1 Hc2. unfold SFltb, SFcompare.
  assert (Hp1 : 0 < 2 ^ (e1 - c)) by (apply Z.pow_pos_nonneg; lia).
  assert (Hp2 : 0 < 2 ^ (e2 - c)) by (apply Z.pow_pos_nonneg; lia).
  destruct (Z.compare_spec e1 e2) as [Heq | Hlt | Hgt].
  - subst e2. change (Pos.compare_cont Eq m1 m2) with (Pos.compare m1 m2).
    destruct (Pos.compare_spec m1 m2) as [Hm | Hm | Hm];
      destruct (Z.ltb_spec (Zpos m1 * 2 ^ (e1 - c)) (Zpos m2 * 2 ^ (e1 - c)));
      try reflexivity; nia.
  - assert (Hs : 2 ^ (e2 - c) = 2 ^ (e2 - e1) * 2 ^ (e1 - c))
      by (rewrite <- Z.pow_add_r by lia; f_equal; lia).
    assert (Hg : 2 ^ 1 <= 2 ^ (e2 - e1)) by (apply Z.pow_le_mono_r; lia).
    change (2 ^ 1) with 2 in Hg. rewrite Hs.
    destruct (Z.ltb_spec (Zpos m1 * 2 ^ (e1 - c))
                (Zpos m2 * (2 ^ (e2 - e1) * 2 ^ (e1 - c)))); [reflexivity | nia].
  - assert (Hs : 2 ^ (e1 - c) = 2 ^ (e1 - e2) * 2 ^ (e2 - c))
      by (rewrite <- Z.pow_add_r by lia; f_equal; lia).
    assert (Hg : 2 ^ 1 <= 2 ^ (e1 - e2)) by (apply Z.pow_le_mono_r; lia).
    change (2 ^ 1) with 2 in Hg. rewrite Hs.
    destruct (Z.ltb_spec (Zpos m1 * (2 ^ (e1 - e2) * 2 ^ (e2 - c)))
                (Zpos m2 * 2 ^ (e2 - c))); [nia | reflexivity].
Qed.

(** The arithmetic of the threshold: [W] is the common scale, [K] the unit
    in the last place of the rounded product [mt * K], and [M] the product
    before rounding. *)
Lemma threshold_arith (q x P K Q mt M : Z) :
  0 < q <= 2 ^ 50 -> 0 <= x -> 0 < P -> 0 < K -> 8 <= Q ->
  2 ^ 53 * P = K * Q ->
  M = 7205759403792794 * (q * P) ->
  - K <= 2 * (M - mt * K) <= K ->
  mt * K < x * (2 ^ 53 * P) <-> 4 * q < 5 * x.
Proof.
  intros Hq Hx HP HK HQ HW HM Herr.
  set (W := 2 ^ 53 * P) in *.
  assert (HW0 : 0 < W) by (unfold W; lia).
  assert (H10 : 10 * M = 8 * (q * W) + 4 * (q * P)) by (unfold W; lia).
  assert (HqP : 0 < q * P) by nia.
  split.
  - intros Hlt. destruct (Z.lt_ge_cases (4 * q) (5 * x)) as [Hc | Hc]; [exact Hc|].
    exfalso.
    assert (5 * (x * W) <= 4 * (q * W)) by nia.
    assert (0 < K * (10 * mt - 10 * (x * Q) + 5)) by nia.
    assert (0 < 10 * mt - 10 * (x * Q) + 5) by nia.
    assert (x * Q <= mt) by lia.
    nia.
  - intros Hlt.
    assert (8 * (q * W) + 2 * W <= 10 * (x * W)) by nia.
    assert (8 * (q * P) <= W) by (unfold W; nia).
    assert (8 * K <= W) by nia.
    nia.
Qed.

(** With a quota of at most [2^50] bytes the unit in the last place of the
    threshold is at most an eighth. *)
Lemma threshold_ulp (q P K mt M : Z) :
  0 < q <= 2 ^ 50 -> 0 < P -> 0 < K ->
  2 ^ 52 <= mt ->
  M = 7205759403792794 * (q * P) ->
  2 * (mt * K) <= 2 * M + K ->
  4 * K < 2 ^ 53 * P.
Proof.
  intros Hq HP HK Hmt HM Herr.
  destruct (Z.lt_ge_cases (4 * K) (2 ^ 53 * P)) as [Hc | Hc]; [exact Hc|].
  exfalso.
  assert (H1 : (2 ^ 53 - 1) * K <= 2 * M) by nia.
  assert (H2 : 2 * M <= 2 * 7205759403792794 * (2 ^ 50 * P)) by nia.
  nia.
Qed.

(** For a quota of at most [2^50] bytes and a size below [2^53], the
    [float64] test of the threshold is the exact test [x > 0.8 * q]. *)
Lemma float64_threshold_exact (q x : Z) :
  0 < q <= 2 ^ 50 -> 0 <= x < 2 ^ 53 ->
  float64_gt (float64_of_int x)
    (float64_mul thresholdPercentageForDBSizeAlarm (float64_of_int q))
  = (4 * q <? 5 * x).
Proof.
  intros Hq Hx.
  destruct (float64_of_int_exact q) as (mq & eq & Hfq & Hmq & Heq & Hmq'); [lia|].
  assert (Hthr : thresholdPercentageForDBSizeAlarm
                 = S754_finite false 7205759403792794 (-53))
    by (vm_compute; reflexivity).
  unfold float64_gt, float64_mul. rewrite Hthr, Hfq. cbn [SFmul xorb].
  set (m0 := 7205759403792794%positive).
  pose proof (digits2_pos_bounds (m0 * mq)) as HD.
  set (D := Zpos (digits2_pos (m0 * mq))) in *.
  assert (HM : 2 ^ 104 <= Zpos (m0 * mq) < 2 ^ 106)
    by (rewrite Pos2Z.inj_mul; subst m0; nia).
  assert (HD' : 105 <= D <= 106).
  { split.
    - destruct (Z.le_gt_cases 105 D); [assumption|].
      assert (2 ^ D <= 2 ^ 104) by (apply Z.pow_le_mono_r; lia). lia.
    - destruct (Z.le_gt_cases D 106); [assumption|].
      assert (2 ^ 106 <= 2 ^ (D - 1)) by (apply Z.pow_le_mono_r; lia). lia. }
  destruct (binary_round_aux_wide (m0 * mq) (-53 + eq))
    as (mt & et & Hft & Hmt & Het & Herr); fold D; try lia.
  rewrite Hft. clear Hft Hfq Hthr.
  destruct (Z.eq_dec x 0) as [-> | Hx0].
  { change (float64_of_int 0) with (S754_zero false). cbn [SFltb SFcompare].
    symmetry. apply Z.ltb_ge. lia. }
  destruct (float64_of_int_exact x) as (mx & ex & Hfx & Hmx & Hex & Hmx'); [lia|].
  rewrite Hfx, (SFltb_normal mt mx et ex (-53 + eq)) by lia.
  set (k := et - (-53 + eq)) in *.
  set (P := 2 ^ (- eq)) in *.
  assert (HP : 0 < P) by (apply Z.pow_pos_nonneg; lia).
  assert (Hk : 0 <= k) by (unfold k; lia).
  assert (HK : 0 < 2 ^ k) by (apply Z.pow_pos_nonneg; lia).
  assert (Hs : 2 ^ (53 - eq) = 2 ^ 53 * P)
    by (unfold P; rewrite <- Z.pow_add_r by lia; f_equal; lia).
  assert (Hxs : Zpos mx * 2 ^ (ex - (-53 + eq)) = x * (2 ^ 53 * P)).
  { rewrite Hmx', <- Hs, <- Z.mul_assoc, <- Z.pow_add_r by lia.
    f_equal. f_equal. lia. }
  rewrite Hxs.
  assert (HMv : Zpos (m0 * mq) = 7205759403792794 * (q * P))
    by (rewrite Pos2Z.inj_mul, Hmq'; reflexivity).
  assert (Hulp : 4 * 2 ^ k < 2 ^ 53 * P).
  { apply (threshold_ulp q P (2 ^ k) (Zpos mt) (Zpos (m0 * mq))); try lia. }
  assert (Hks : k + 3 <= 53 - eq).
  { destruct (Z.le_gt_cases (k + 3) (53 - eq)) as [Hle | Hgt]; [exact Hle|].
    assert (2 ^ (53 - eq) <= 2 ^ (k + 2)) by (apply Z.pow_le_mono_r; lia).
    rewrite Z.pow_add_r in * by lia. change (2 ^ 2) with 4 in *. lia. }
  set (Q := 2 ^ (53 - eq - k)).
  assert (HQ : 8 <= Q).
  { change 8 with (2 ^ 3). apply Z.pow_le_mono_r; lia. }
  assert (HW : 2 ^ 53 * P = 2 ^ k * Q).
  { rewrite <- Hs. unfold Q. rewrite <- Z.pow_add_r by lia. f_equal. lia. }
  pose proof (threshold_arith q x P (2 ^ k) Q (Zpos mt) (Zpos (m0 * mq))
                Hq ltac:(lia) HP HK HQ HW HMv Herr) as Hiff.
  destruct (Z.ltb_spec (Zpos mt * 2 ^ k) (x * (2 ^ 53 * P)));
    destruct (Z.ltb_spec (4 * q) (5 * x)); try reflexivity; lia.
Qed.

(** X28.  For a quota of at most 2^50 bytes and sizes below 2^53, the
    [float64] test of [MakeEtcdLeanAndCheckAlarm] is exact: the sizes cross
    the threshold exactly when one of them is more than four fifths of the
    quota. *)
Lemma dbSizeCrossesThreshold_exact (status : StatusResponse) (quota : Z) :
  0 < quota <= 2 ^ 50 ->
  0 <= DbSizeInUse status < 2 ^ 53 -> 0 <= DbSize status < 2 ^ 53 ->
  dbSizeCrossesThreshold status (float64_of_int quota)
  = (4 * quota <? 5 * DbSizeInUse status) || (4 * quota <? 5 * DbSize status).
Proof.
  intros Hq Hu Hd. unfold dbSizeCrossesThreshold.
  rewrite !float64_threshold_exact by assumption. reflexivity.
Qed.

End Float64Facts.

(* ----------------------------------------------------------------- *)
(** ** The alarm *)

Section LeanAlarm.

Context {W : Type} {E : Env W}.

(** C8, as the code has it.  Let the compaction at [revision] succeed and
    the status of the first endpoint be [status].  The threshold is the
    [float64] product of the [float64] next to 0.8, whose mantissa is
    7205759403792794 at the exponent -53, and the quota; the alarm is
    raised exactly when [DbSizeInUse] or [DbSize], converted to [float64],
    is greater than the threshold.  For a quota that is a whole number of
    bytes from 1 to 2^50 and sizes from 0 to below 2^53, this is exactly
    when [DbSizeInUse] or [DbSize] is more than four fifths of the quota.
    Raised, the trace goes on with one round per endpoint, in the order of
    the endpoints: the endpoint is sent on the alarm channel and a bool is
    taken from the disarm channel; after true the next endpoint follows,
    and after all of them the call returns nil; the first false ends the
    call with the error that the alarm could not be disarmed.  Not raised,
    nothing is sent and the call returns nil. *)
Theorem MakeEtcdLeanAndCheckAlarm_alarm (revision : Z) (endPoint0 : string)
  (endPoints' : list string) (embeddedEtcdQuotaBytes : float64)
  (s s' : State W) (w1 w2 : W) (status : StatusResponse)
  (r : outcome (option error)) :
  let endPoints := endPoint0 :: endPoints' in
  KV_Compact revision (world s) = (None, w1) ->
  Maintenance_Status endPoint0 w1 = (inr status, w2) ->
  MakeEtcdLeanAndCheckAlarm revision endPoints embeddedEtcdQuotaBytes s = (r, s') ->
  let threshold :=
    SFmul 53 1024 (S754_finite false 7205759403792794 (-53))
      embeddedEtcdQuotaBytes in
  let above (size : Z) :=
    SFltb threshold (binary_normalize 53 1024 size 0 false) in
  let raised := above (DbSizeInUse status) || above (DbSize status) in
  let checked :=
    trace s ++ [ObsCompact revision None; ObsStatus endPoint0 (inr status)] in
  2 * Z.abs (5 * 7205759403792794 - 4 * 2 ^ 53) < 5 /\
  (forall quota : Z,
      embeddedEtcdQuotaBytes = binary_normalize 53 1024 quota 0 false ->
      0 < quota <= 2 ^ 50 ->
      0 <= DbSizeInUse status < 2 ^ 53 -> 0 <= DbSize status < 2 ^ 53 ->
      raised = (4 * quota <? 5 * DbSizeInUse status)
               || (4 * quota <? 5 * DbSize status)) /\
  if raised
  then
    exists rounds : list (option error * (error + StatusResponse)),
      trace s' = checked ++ concat (zip_with alarmRound endPoints rounds) /\
      (0 < length rounds <= length endPoints)%nat /\
      match r with
      | Ok None =>
          length rounds = length endPoints /\
          Forall (fun round => fst round = None) rounds
      | Ok (Some err) =>
          err = ErrDisalarm /\
          exists done cause after,
            rounds = done ++ [(Some cause, after)] /\
            Forall (fun round => fst round = None) done
      | Panic _ => False
      end
  else
    r = Ok None /\ s' = mkState w2 checked.
Proof.
  intros endPoints Hcompact Hstatus Hrun threshold above raised checked.
  assert (Hthr : thresholdPercentageForDBSizeAlarm
                 = S754_finite false 7205759403792794 (-53))
    by (vm_compute; reflexivity).
  assert (Habove : forall size : Z,
             above size
             = float64_gt (float64_of_int size)
                 (float64_mul thresholdPercentageForDBSizeAlarm
                    embeddedEtcdQuotaBytes)).
  { intros size. unfold above, threshold. rewrite Hthr. reflexivity. }
  assert (Hraised : raised = dbSizeCrossesThreshold status embeddedEtcdQuotaBytes).
  { unfold raised, dbSizeCrossesThreshold. rewrite !Habove. reflexivity. }
  split; [vm_compute; reflexivity|].
  split.
  { intros quota Hquota Hq Hu Hd. unfold raised. rewrite !Habove.
    change (binary_normalize 53 1024 quota 0 false) with (float64_of_int quota)
      in Hquota.
    rewrite Hquota, !float64_threshold_exact by assumption. reflexivity. }
  unfold MakeEtcdLeanAndCheckAlarm in Hrun.
  apply run_bind_call in Hrun as (res & w1' & Hc & Hrun).
  rewrite Hcompact in Hc. inversion Hc; subst res w1'. clear Hc.
  subst endPoints. cbv beta iota in Hrun.
  apply run_bind_call in Hrun as (st & w2' & Hst & Hrun).
  cbn [world trace] in Hst, Hrun.
  rewrite Hstatus in Hst. inversion Hst; subst st w2'. clear Hst.
  cbv beta iota in Hrun. rewrite <- Hraised in Hrun.
  rewrite <- app_assoc in Hrun. cbn [app] in Hrun. fold checked in Hrun.
  clearbody raised.
  destruct raised.
  - apply raiseAlarm_loop_spec in Hrun as (rounds & Htr & Hlen & Hres).
    cbn [trace] in Htr. exists rounds. split; [exact Htr|].
    split; [|exact Hres]. split; [|exact Hlen].
    destruct r as [[err|]|msg]; [| |contradiction].
    + destruct Hres as (_ & done & cause & after & -> & _).
      rewrite length_app. cbn. lia.
    + destruct Hres as [-> _]. cbn. lia.
  - inversion Hrun; subst. auto.
Qed.

End LeanAlarm.

(* ----------------------------------------------------------------- *)
(** ** The fetchers and the orchestrator *)

Section FetcherFacts.

Context {G : GoLib} {W : Type} {E : Env W}.

(** A fetcher whose delta cannot be persisted. *)
Lemma fetchSnaps_default_persist_error (tempDir : string)
  (fetcherInfo : FetcherInfo) (s : State W) (rc : ReadCloser) (w1 w2 : W)
  (cause : error) :
  let snap := fiSnapshot fetcherInfo in
  let snapTempFilePath := filepath_Join tempDir (SnapName snap) in
  Store_Fetch snap (world s) = (inr rc, w1) ->
  os_Create snapTempFilePath w1 = (Some cause, w2) ->
  fetchSnaps_default tempDir fetcherInfo s
  = (Ok tt,
     mkState w2
       (trace s ++
        [ObsFetch snap None;
         ObsCreate snapTempFilePath (Some cause);
         ObsErrCh (Some (ErrPersistDelta (SnapName snap) snapTempFilePath
                           (ErrCreateTempFile snapTempFilePath)));
         ObsApplierInfoCh sentinelApplierInfo;
         ObsSnapLocationsCh snapTempFilePath;
         ObsApplierInfoCh (mkApplierInfo snapTempFilePath (fiSnapIndex fetcherInfo))])).
Proof.
  intros snap snapTempFilePath Hfetch Hcreate.
  unfold fetchSnaps_default, Fetch, persistRawDeltaSnapshot, bind, call, emit, ret.
  fold snap. rewrite Hfetch. cbv beta iota. cbn [fst snd world trace].
  fold snapTempFilePath. rewrite Hcreate. cbv beta iota. cbn [world trace].
  rewrite <- !app_assoc. reflexivity.
Qed.

End FetcherFacts.

Section RestoreFacts.

Context {G : GoLib} {W : Type} {E : Env W}.

Variable pipeline
  : list Snapshot -> list string -> float64 -> State W -> option error * State W.

Lemma restoreFromBaseSnapshot_emits (ro : RestoreOptions) :
  emits (fun o => etcdStart o = None) (restoreFromBaseSnapshot (W := W) ro).
Proof.
  unfold restoreFromBaseSnapshot, Fetch. emits_auto.
Qed.

(** C9.  With no delta snapshots, once the temporary directory is made and
    the base snapshot restored without error, [Restore] returns no etcd
    and no error, and nothing it did was a start of the embedded etcd. *)
Theorem Restore_without_deltas (ro : RestoreOptions) (m : bool)
  (s s2 : State W) (w1 : W) :
  let tempDir := Types.TempSnapshotsDir (Config ro) in
  DeltaSnapList ro = [] ->
  os_MkdirAll tempDir (world s) = (None, w1) ->
  restoreFromBaseSnapshot ro (mkState w1 (trace s ++ [ObsMkdirAll tempDir None]))
  = (Ok None, s2) ->
  exists tr : list Obs,
    Restore pipeline ro m s
    = (Ok (None, None),
       mkState (snd (os_RemoveAll tempDir (world s2))) (trace s ++ tr)) /\
    etcdStarts tr = [].
Proof.
  intros tempDir Hdeltas Hmkdir Hbase.
  pose proof (emits_run _ _ _ _ _ (restoreFromBaseSnapshot_emits ro) Hbase)
    as (tr & Htr & Hall).
  cbn [trace] in Htr.
  exists ([ObsMkdirAll tempDir None] ++ tr ++ [ObsRemoveAll tempDir]).
  split.
  - unfold Restore, bind, call. fold tempDir. rewrite Hmkdir. cbv beta iota.
    unfold defer, bind. rewrite Hbase. cbv beta iota. rewrite Hdeltas.
    cbn [length Nat.eqb]. unfold ret, call.
    destruct (os_RemoveAll tempDir (world s2)) as [e w3]. cbn [snd world trace].
    rewrite Htr, <- !app_assoc. reflexivity.
  - unfold etcdStarts. rewrite !omap_app, (omap_silent _ tr Hall). reflexivity.
Qed.

End RestoreFacts.

(* ----------------------------------------------------------------- *)
(** ** The restorer on the simulated world *)

Section Examples.

Import Sample.

(** [Validate] on the default configuration. *)
Example Validate_default_config :
  Types.Validate (L := sample_url_lib) sample_config = (sample_config, None) /\
  snd (Types.Validate (L := sample_url_lib)
         (Types.mkRestorationConfig "default=http://localhost:2380" "etcd-cluster"
            "" "" "default" "30m" "hourly" ["http://localhost:2380"]
            10240 10485760 10485760 8589934592 6 false))
  = Some Types.ErrAutoCompactionMode.
Proof. vm_compute. auto. Qed.

(** A blob of one payload byte and its hash is read back as the payload. *)
Lemma readSnapshotContents_integrity_witness :
  readSnapshotContentsFromReadCloser
    (mkReadCloser (Sample.sample_blob [Byte.x07]) None None)
    (Sample.sample_snapshot "d0" 7)
  = inr [Byte.x07].
Proof.
  pose proof (readSnapshotContents_integrity
                (mkReadCloser (Sample.sample_blob [Byte.x07]) None None)
                (mkReadCloser (Sample.sample_blob [Byte.x07]) None None)
                (Sample.sample_snapshot "d0" 7) false ""
                eq_refl eq_refl) as [_ H].
  apply H.
  - vm_compute. lia.
  - reflexivity.
Defined.

(** On the simulated etcd, the events at revisions 5, 5, 6 go into etcd as
    transactions whose operations are those of the events, in order. *)
Lemma applyEventsToEtcd_transactions_witness :
  exists txns : list (list Op),
    trace (snd (applyEventsToEtcd Sample.events_5_5_6 (Sample.sim_at 4 [])))
    = map okCommit txns /\
    map Some (concat txns) = map opOfEvent Sample.events_5_5_6.
Proof.
  assert (Hrun : applyEventsToEtcd events_5_5_6 (sim_at 4 [])
                 = (Ok None, snd (applyEventsToEtcd events_5_5_6 (sim_at 4 []))))
    by (vm_compute; reflexivity).
  destruct (applyEventsToEtcd_transactions _ _ _ Hrun) as (txns & Htr & Hops & _).
  exists txns. split; assumption.
Defined.

(** C1, as it is worded, fails.  With revisions 5, 6, 5 the first and the
    third event have one revision and are committed in two transactions;
    with revisions 0, 1 the revision grows strictly and both events are in
    one transaction. *)
Lemma applyEventsToEtcd_transactions_counterexample :
  fst (applyEventsToEtcd Sample.events_5_6_5 (Sample.sim_at 4 [])) = Ok None /\
  committedTxns (trace (snd (applyEventsToEtcd Sample.events_5_6_5 (Sample.sim_at 4 []))))
  = [[OpPut "a" ""]; [OpPut "b" ""; OpPut "c" ""]] /\
  Some (revOf (Sample.sample_put Byte.x61 5)) = revOf <$> Sample.events_5_6_5 !! 0%nat /\
  Some (revOf (Sample.sample_put Byte.x61 5)) = revOf <$> Sample.events_5_6_5 !! 2%nat /\
  txnIndexOf (committedTxns (trace (snd (applyEventsToEtcd Sample.events_5_6_5
                                           (Sample.sim_at 4 []))))) 0
  <> txnIndexOf (committedTxns (trace (snd (applyEventsToEtcd Sample.events_5_6_5
                                              (Sample.sim_at 4 []))))) 2 /\
  fst (applyEventsToEtcd Sample.events_0_1 (Sample.sim_at 4 [])) = Ok None /\
  committedTxns (trace (snd (applyEventsToEtcd Sample.events_0_1 (Sample.sim_at 4 []))))
  = [[OpPut "a" ""; OpPut "b" ""]] /\
  Forall2 (fun e rev => revOf e = rev) Sample.events_0_1 [0; 1].
Proof.
  vm_compute. repeat split; try discriminate; repeat constructor.
Qed.


(** The run of the witness, evaluated. *)
Example applySnaps_out_of_order_arrival :
  appliedIndices (trace (snd (sample_applySnaps 3
                                [sample_message 2; sample_message 0; sample_message 1])))
  = [0; 1; 2] /\
  errChSends (trace (snd (sample_applySnaps 3
                            [sample_message 2; sample_message 0; sample_message 1])))
  = [None].
Proof. vm_compute. auto. Qed.


(** The first delta of the failing input of C3: etcd is at revision 10,
    the delta ends at revision 7 and its only event is at revision 5.  No
    event is above 10, and the event is applied all the same. *)
Theorem applyFirstDeltaSnapshot_no_newer_event :
  json_Unmarshal [Byte.x05] = inr [sample_event Byte.x05] /\
  revOf (sample_event Byte.x05) = 5 /\
  fst (applyFirstDeltaSnapshot (sample_snapshot "d0" 7)
         (sim_at 10 [("d0", sample_blob [Byte.x05])])) = Ok None /\
  trace (snd (applyFirstDeltaSnapshot (sample_snapshot "d0" 7)
                (sim_at 10 [("d0", sample_blob [Byte.x05])])))
  = [ObsFetch (sample_snapshot "d0" 7) None;
     ObsGet "" true (inr 10);
     ObsTxnCommit [OpPut (string_of_list_byte [Byte.x05]) ""] None].
Proof. vm_compute. repeat split. Qed.

(** Etcd at revision 7 passes the check against a handle that ends at 7. *)
Lemma verifySnapshotRevision_checks_handle_witness :
  verifySnapshotRevision (sample_snapshot "d1" 7) (sim_at 7 [])
  = (Ok None, mkState (mkSim 7 [] false 0 true) [ObsGet "foo" false (inr 7)]).
Proof.
  destruct (verifySnapshotRevision_checks_handle [] [] sample_quota) as [Hverify _].
  apply (Hverify (sample_snapshot "d1" 7) (sim_at 7 []) (inr 7) (mkSim 7 [] false 0 true)).
  reflexivity.
Defined.

(** C5, as it is worded, fails.  The last event of the delta is at
    revision 9, the handle of the delta ends at 7, and etcd answers 7 after
    the events are applied: the answer differs from the revision of the
    last event, and no error is returned. *)
Lemma verifySnapshotRevision_checks_handle_counterexample :
  revOf <$> last [sample_put Byte.x61 9] = Some 9 /\
  LastRevision (sample_snapshot "d1" 7) = 7 /\
  applyEventsAndVerify [sample_put Byte.x61 9] (sample_snapshot "d1" 7) (sim_at 6 [])
  = (Ok None,
     mkState (mkSim 7 [] false 0 true)
       [ObsTxnCommit [OpPut "a" ""] None; ObsGet "foo" false (inr 7)]).
Proof. vm_compute. repeat split. Qed.

(** With twelve deltas of which nine are applied, the applier waits with
    its counter at ten. *)
Lemma applySnaps_lean_keeping_witness :
  match fst (sample_applySnaps 12 (map sample_message (seq 0 9))) with
  | Ok (Waiting a) =>
      numberOfDeltaSnapApplied a = 1 + nextSnapIndexToApply a
  | _ => False
  end.
Proof.
  destruct (applySnaps_lean_keeping (sample_remaining 12) ["localhost:2379"]
              sample_quota) as (_ & _ & Hwait & _).
  destruct (sample_applySnaps 12 (map sample_message (seq 0 9))) as [r s'] eqn:Hrun.
  assert (Hr : exists a, r = Ok (Waiting a)).
  { assert (Hfst : r = fst (sample_applySnaps 12 (map sample_message (seq 0 9))))
      by (rewrite Hrun; reflexivity).
    rewrite Hfst. vm_compute. eexists. reflexivity. }
  destruct Hr as [a ->]. cbn [fst].
  apply (Hwait _ _ _ _ Hrun).
Defined.

(** The lean-keeper at work: of twelve deltas, the ninth that the applier
    applies is the tenth in all, and etcd is compacted at its revision. *)
Example applySnaps_compacts_after_ten :
  compactions (trace (snd (sample_applySnaps 12 (map sample_message (seq 0 12)))))
  = [19].
Proof. vm_compute. reflexivity. Qed.

(** The retry flag at work: with a database above the threshold and a
    defragmentation that fails, the lean-keeper called after the tenth
    delta in all returns an error, the restore goes on, and the
    lean-keeper is called again after each of the next two deltas; nothing
    but the final nil is sent on [errCh]. *)
Example applySnaps_retries_after_failed_lean :
  compactions
    (trace (snd (applySnaps (sample_remaining 12) ["localhost:2379"] sample_quota
                   (map sample_message (seq 0 12))
                   (mkState (mkSim 10 (sample_files 12) false 7000000000 false) []))))
  = [19; 20; 21] /\
  errChSends
    (trace (snd (applySnaps (sample_remaining 12) ["localhost:2379"] sample_quota
                   (map sample_message (seq 0 12))
                   (mkState (mkSim 10 (sample_files 12) false 7000000000 false) []))))
  = [None].
Proof. vm_compute. auto. Qed.

(** C7, as it is worded, fails after the last delta.  With nine deltas left
    for the applier, all of them are applied and nil is sent; the ninth is
    the tenth delta in all, and the lean-keeper is not called. *)
Lemma applySnaps_lean_keeping_counterexample :
  fst (sample_applySnaps 9 (map sample_message (seq 0 9))) = Ok Returned /\
  appliedIndices (trace (snd (sample_applySnaps 9 (map sample_message (seq 0 9)))))
  = seqZ 0 9 /\
  errChSends (trace (snd (sample_applySnaps 9 (map sample_message (seq 0 9)))))
  = [None] /\
  Z.rem (1 + 9) periodicallyMakeEtcdLeanDeltaSnapshotInterval = 0 /\
  compactions (trace (snd (sample_applySnaps 9 (map sample_message (seq 0 9)))))
  = [].
Proof. vm_compute. repeat split. Qed.

(** The failing input of C6: the blob of delta [p0] is fetched, and the
    file to persist it in cannot be created.  The fetcher sends the error
    and the sentinel, and then goes on: it also sends the path for cleanup
    and an [ApplierInfo] for the delta, as if it had been persisted. *)
Theorem fetchSnaps_goes_on_after_error :
  fetchSnaps "tmp" [(false, mkFetcherInfo (sample_snapshot "p0" 11) 0)]
    (mkState (mkSim 10 (sample_files 1) true 0 true) [])
  = (Ok tt,
     mkState (mkSim 10 (sample_files 1) true 0 true)
       [ObsFetch (sample_snapshot "p0" 11) None;
        ObsCreate "tmp/p0" (Some (ErrExternal "permission denied"));
        ObsErrCh (Some (ErrPersistDelta "p0" "tmp/p0" (ErrCreateTempFile "tmp/p0")));
        ObsApplierInfoCh sentinelApplierInfo;
        ObsSnapLocationsCh "tmp/p0";
        ObsApplierInfoCh (mkApplierInfo "tmp/p0" 0)]).
Proof. vm_compute. reflexivity. Qed.

(** A fetch that fails: after the error and the sentinel the fetcher goes
    on into [persistRawDeltaSnapshot] with the reader it did not get, and
    once the file is created the read from that reader panics. *)
Example fetchSnaps_failed_fetch :
  fetchSnaps "tmp" [(false, mkFetcherInfo (sample_snapshot "zz" 11) 0)]
    (sim_at 10 (sample_files 1))
  = (Panic "nil pointer dereference",
     mkState (mkSim 10 (sample_files 1) false 0 true)
       [ObsFetch (sample_snapshot "zz" 11) (Some (ErrExternal "no such snapshot"));
        ObsErrCh (Some (ErrFetchDelta "zz" (ErrExternal "no such snapshot")));
        ObsApplierInfoCh sentinelApplierInfo;
        ObsCreate "tmp/zz" None]).
Proof. vm_compute. reflexivity. Qed.

(** With the default quota of 8 GiB the threshold lies between 6871947673
    and 6871947674 bytes. *)
Example dbSizeCrossesThreshold_default_quota :
  dbSizeCrossesThreshold (mkStatusResponse 6871947673 6871947673) sample_quota = false /\
  dbSizeCrossesThreshold (mkStatusResponse 6871947673 6871947674) sample_quota = true /\
  dbSizeCrossesThreshold (mkStatusResponse 6871947674 0) sample_quota = true /\
  5 * 6871947673 <= 4 * 8589934592 < 5 * 6871947674.
Proof. vm_compute. repeat split; discriminate. Qed.

(** A database of 7 GB under the default quota of 8 GiB: the size is more
    than four fifths of the quota, the alarm is raised for the one
    endpoint and disarmed, and the call returns nil. *)
Lemma MakeEtcdLeanAndCheckAlarm_alarm_witness :
  4 * 8589934592 < 5 * 7000000000 /\
  exists rounds : list (option error * (error + StatusResponse)),
    MakeEtcdLeanAndCheckAlarm 19 ["localhost:2379"] sample_quota
      (mkState (mkSim 19 [] false 7000000000 true) [])
    = (Ok None,
       mkState (mkSim 19 [] false 7000000000 true)
         ([ObsCompact 19 None;
           ObsStatus "localhost:2379"
             (inr (mkStatusResponse 7000000000 7000000000))]
          ++ concat (zip_with alarmRound ["localhost:2379"] rounds))) /\
    length rounds = 1%nat.
Proof.
  split; [lia|].
  pose proof (MakeEtcdLeanAndCheckAlarm_alarm (E := sample_env) 19 "localhost:2379" [] sample_quota
                (mkState (mkSim 19 [] false 7000000000 true) [])
                (snd (MakeEtcdLeanAndCheckAlarm 19 ["localhost:2379"] sample_quota
                        (mkState (mkSim 19 [] false 7000000000 true) [])))
                (mkSim 19 [] false 7000000000 true)
                (mkSim 19 [] false 7000000000 true)
                (mkStatusResponse 7000000000 7000000000)
                (Ok None) ltac:(vm_compute; reflexivity)
                ltac:(vm_compute; reflexivity)) as Halarm.
  cbv zeta in Halarm.
  destruct Halarm as (_ & Hexact & Halarm).
  { vm_compute. reflexivity. }
  rewrite (Hexact 8589934592) in Halarm
    by (first [reflexivity | cbn [DbSizeInUse DbSize]; lia]).
  cbn [DbSizeInUse DbSize] in Halarm.
  change ((4 * 8589934592 <? 5 * 7000000000) || (4 * 8589934592 <? 5 * 7000000000))
    with true in Halarm.
  cbv iota in Halarm.
  destruct Halarm as (rounds & Htr & Hlen & Hall & _).
  exists rounds. split; [|exact Hall].
  assert (Hfst : fst (MakeEtcdLeanAndCheckAlarm 19 ["localhost:2379"] sample_quota
                        (mkState (mkSim 19 [] false 7000000000 true) []))
                 = Ok None) by (vm_compute; reflexivity).
  assert (Hworld : world (snd (MakeEtcdLeanAndCheckAlarm 19 ["localhost:2379"]
                                 sample_quota
                                 (mkState (mkSim 19 [] false 7000000000 true) [])))
                   = mkSim 19 [] false 7000000000 true) by (vm_compute; reflexivity).
  destruct (MakeEtcdLeanAndCheckAlarm 19 ["localhost:2379"] sample_quota
              (mkState (mkSim 19 [] false 7000000000 true) [])) as [r [w tr]].
  cbn [fst snd world trace] in *. subst r w. rewrite Htr. reflexivity.
Defined.

(** C8, as it is worded, fails where the [float64] product is rounded.
    With a quota of 5 * 2^50 + 1 bytes, four fifths of the quota are
    2^52 + 0.8, and the product is rounded up to 2^52 + 1.  A database of
    2^52 + 1 bytes is more than four fifths of the quota and not more than
    the threshold: the call returns nil and sends no alarm. *)
Lemma MakeEtcdLeanAndCheckAlarm_alarm_counterexample :
  4 * (5 * 2 ^ 50 + 1) < 5 * (2 ^ 52 + 1) /\
  float64_mul thresholdPercentageForDBSizeAlarm (float64_of_int (5 * 2 ^ 50 + 1))
  = float64_of_int (2 ^ 52 + 1) /\
  MakeEtcdLeanAndCheckAlarm 19 ["localhost:2379"] (float64_of_int (5 * 2 ^ 50 + 1))
    (mkState (mkSim 19 [] false (2 ^ 52 + 1) true) [])
  = (Ok None,
     mkState (mkSim 19 [] false (2 ^ 52 + 1) true)
       [ObsCompact 19 None;
        ObsStatus "localhost:2379"
          (inr (mkStatusResponse (2 ^ 52 + 1) (2 ^ 52 + 1)))]) /\
  alarmsRaised
    (trace (snd (MakeEtcdLeanAndCheckAlarm 19 ["localhost:2379"]
                   (float64_of_int (5 * 2 ^ 50 + 1))
                   (mkState (mkSim 19 [] false (2 ^ 52 + 1) true) [])))) = [].
Proof. vm_compute. repeat split. Qed.

(** A restore from a base snapshot alone. *)
Lemma Restore_without_deltas_witness :
  exists tr : list Obs,
    Restore (fun _ _ _ s => (None, s))
      (mkRestoreOptions sample_config [] (sample_snapshot "base" 5) [] [] 1)
      false (sim_at 5 [("base", [Byte.x00])])
    = (Ok (None, None), mkState (mkSim 5 [("base", [Byte.x00])] false 0 true) tr) /\
    etcdStarts tr = [].
Proof.
  destruct (Restore_without_deltas (G := sample_lib) (E := sample_env)
              (fun _ _ _ s => (None, s))
              (mkRestoreOptions sample_config [] (sample_snapshot "base" 5) [] [] 1)
              false (sim_at 5 [("base", [Byte.x00])])
              (snd (restoreFromBaseSnapshot
                      (mkRestoreOptions sample_config [] (sample_snapshot "base" 5)
                         [] [] 1)
                      (mkState (mkSim 5 [("base", [Byte.x00])] false 0 true)
                         [ObsMkdirAll "default.restoration.tmp" None])))
              (mkSim 5 [("base", [Byte.x00])] false 0 true)
              ltac:(vm_compute; reflexivity) ltac:(vm_compute; reflexivity))
    as (tr & Hrun & Hstarts).
  { vm_compute. reflexivity. }
  exists tr. split; [exact Hrun | exact Hstarts].
Defined.

End Examples.

(* ================================================================= *)
(** * Further properties *)

(* ----------------------------------------------------------------- *)
(** ** The configuration and its defaults *)

Section ConfigFacts.

Context {L : Types.UrlLib}.

(** The configurations [Validate] accepts. *)
Lemma Validate_accepts (c : Types.RestorationConfig) :
  snd (Types.Validate c) = None <->
  Types.NewURLsMap (Types.InitialCluster c) = None /\
  Types.NewURLs (Types.InitialAdvertisePeerURLs c) = None /\
  0 < Types.MaxCallSendMsgSize c /\
  0 < Types.MaxFetchers c /\
  0 < Types.EmbeddedEtcdQuotaBytes c /\
  (Types.AutoCompactionMode c = "periodic" \/
   Types.AutoCompactionMode c = "revision").
Proof.
  unfold Types.Validate.
  destruct (Types.NewURLsMap _) as [e|]; [cbn; split; [discriminate | intros [H _]; discriminate]|].
  destruct (Types.NewURLs _) as [e|];
    [cbn; split; [discriminate | intros (_ & H & _); discriminate]|].
  destruct (Z.leb_spec (Types.MaxCallSendMsgSize c) 0);
    [cbn; split; [discriminate | intros (_ & _ & H' & _); lia]|].
  destruct (Z.leb_spec (Types.MaxFetchers c) 0);
    [cbn; split; [discriminate | intros (_ & _ & _ & H' & _); lia]|].
  destruct (Z.leb_spec (Types.EmbeddedEtcdQuotaBytes c) 0);
    [cbn; split; [discriminate | intros (_ & _ & _ & _ & H' & _); lia]|].
  destruct (String.eqb_spec (Types.AutoCompactionMode c) "periodic") as [Hp | Hp];
    cbn [negb andb].
  - cbn. split; [intros _; repeat split; auto | reflexivity].
  - destruct (String.eqb_spec (Types.AutoCompactionMode c) "revision") as [Hr | Hr];
      cbn [negb].
    + cbn. split; [intros _; repeat split; auto | reflexivity].
    + cbn. split; [discriminate | intros (_ & _ & _ & _ & _ & [H' | H']); contradiction].
Qed.

(** The configuration [Validate] leaves behind when it accepts. *)
Lemma Validate_accepted_config (c : Types.RestorationConfig) :
  snd (Types.Validate c) = None ->
  fst (Types.Validate c)
  = Types.mkRestorationConfig
      (Types.InitialCluster c) (Types.InitialClusterToken c)
      (Types.path_Clean (Types.DataDir c))
      (Types.path_Clean (Types.TempSnapshotsDir c))
      (Types.Name c) (Types.AutoCompactionRetention c)
      (Types.AutoCompactionMode c)
      (Types.InitialAdvertisePeerURLs c) (Types.MaxTxnOps c)
      (Types.MaxRequestBytes c) (Types.MaxCallSendMsgSize c)
      (Types.EmbeddedEtcdQuotaBytes c) (Types.MaxFetchers c)
      (Types.SkipHashCheck c).
Proof.
  intros Hok. unfold Types.Validate in Hok |- *.
  destruct (Types.NewURLsMap _); [discriminate Hok|].
  destruct (Types.NewURLs _); [discriminate Hok|].
  repeat match goal with
         | H : snd (if ?b then _ else _) = None |- _ =>
             destruct b; [discriminate H|]
         end.
  reflexivity.
Qed.

(** X1.  [Validate] returns nil exactly when the initial cluster and the
    peer URLs parse, [MaxCallSendMsgSize], [MaxFetchers] and
    [EmbeddedEtcdQuotaBytes] are above zero, and the auto-compaction mode
    is "periodic" or "revision". *)
Theorem Validate_nil_iff (c : Types.RestorationConfig) :
  snd (Types.Validate c) = None <->
  Types.NewURLsMap (Types.InitialCluster c) = None /\
  Types.NewURLs (Types.InitialAdvertisePeerURLs c) = None /\
  0 < Types.MaxCallSendMsgSize c /\
  0 < Types.MaxFetchers c /\
  0 < Types.EmbeddedEtcdQuotaBytes c /\
  (Types.AutoCompactionMode c = "periodic" \/
   Types.AutoCompactionMode c = "revision").
Proof. exact (Validate_accepts c). Qed.

(** X2.  When [path.Clean] gives the same on a path it has cleaned, a
    configuration that [Validate] has accepted is accepted again and is no
    longer changed by it. *)
Theorem Validate_idempotent (c : Types.RestorationConfig) :
  (forall p : string, Types.path_Clean (Types.path_Clean p) = Types.path_Clean p) ->
  snd (Types.Validate c) = None ->
  Types.Validate (fst (Types.Validate c)) = (fst (Types.Validate c), None).
Proof.
  intros Hclean Hok.
  pose proof (proj1 (Validate_accepts c) Hok) as (Hmap & Hurls & Hmsg & Hfetch & Hquota & Hmode).
  rewrite (Validate_accepted_config c Hok). unfold Types.Validate. cbn [Types.InitialCluster
    Types.InitialAdvertisePeerURLs Types.MaxCallSendMsgSize Types.MaxFetchers
    Types.EmbeddedEtcdQuotaBytes Types.AutoCompactionMode Types.DataDir
    Types.TempSnapshotsDir Types.InitialClusterToken Types.Name
    Types.AutoCompactionRetention Types.MaxTxnOps Types.MaxRequestBytes
    Types.SkipHashCheck].
  rewrite Hmap, Hurls.
  destruct (Z.leb_spec (Types.MaxCallSendMsgSize c) 0); [lia|].
  destruct (Z.leb_spec (Types.MaxFetchers c) 0); [lia|].
  destruct (Z.leb_spec (Types.EmbeddedEtcdQuotaBytes c) 0); [lia|].
  assert (Hm : negb (String.eqb (Types.AutoCompactionMode c) "periodic")
               && negb (String.eqb (Types.AutoCompactionMode c) "revision") = false).
  { destruct Hmode as [-> | ->]; reflexivity. }
  rewrite Hm, !Hclean. reflexivity.
Qed.

(** X3.  The configuration [NewRestorationConfig] makes passes [Validate],
    whenever etcd's parsers accept the default cluster
    ["default=http://localhost:2380"] and the default peer URL. *)
Theorem NewRestorationConfig_valid :
  Types.NewURLsMap "default=http://localhost:2380" = None ->
  Types.NewURLs ["http://localhost:2380"] = None ->
  snd (Types.Validate Types.NewRestorationConfig) = None /\
  Types.DataDir (fst (Types.Validate Types.NewRestorationConfig))
  = Types.path_Clean "default.etcd" /\
  Types.TempSnapshotsDir (fst (Types.Validate Types.NewRestorationConfig))
  = Types.path_Clean "default.restoration.tmp".
Proof.
  intros Hmap Hurls.
  assert (Hok : snd (Types.Validate Types.NewRestorationConfig) = None).
  { apply Validate_accepts. cbn. repeat split; auto; lia. }
  split; [exact Hok|].
  rewrite (Validate_accepted_config _ Hok). cbn. auto.
Qed.

(** X4.  [ConsistentIndex] gives back an index that is not negative, and
    wraps a negative one around [2^64]. *)
Theorem ConsistentIndex_wraps (i : Z) :
  - 2 ^ 63 <= i < 2 ^ 63 ->
  Types.ConsistentIndex i = if i <? 0 then i + 2 ^ 64 else i.
Proof.
  intros Hi. unfold Types.ConsistentIndex.
  destruct (Z.ltb_spec i 0).
  - symmetry. apply (Z.mod_unique i (2 ^ 64) (-1)); lia.
  - apply Z.mod_small. lia.
Qed.

End ConfigFacts.

(* ----------------------------------------------------------------- *)
(** ** More on the integrity reader *)

Section IntegrityMore.

Context {G : GoLib}.

(** What a success of the reader tells: the stream, after the optional
    decompression, was read to its end without error, and it is the
    payload returned followed by the SHA-256 of that payload. *)
Lemma readSnapshotContents_inr (rc : ReadCloser) (snap : Snapshot)
  (data : list byte) :
  readSnapshotContentsFromReadCloser rc snap = inr data ->
  exists (rc' : ReadCloser) (wasCompressed : bool) (compressionPolicy : string),
    getNormalizedSnapshotReadCloser rc snap
    = (rc', wasCompressed, compressionPolicy, None) /\
    rcReadErr rc' = None /\
    rcBytes rc' = data ++ sha256_Sum data /\
    (32 < length (rcBytes rc'))%nat.
Proof.
  unfold readSnapshotContentsFromReadCloser. intros Hread.
  destruct (getNormalizedSnapshotReadCloser rc snap) as [[[rc' b] p] [err|]];
    [discriminate|].
  destruct (rcReadErr rc') as [err|] eqn:Herr; [discriminate|].
  unfold sha256_Size in Hread.
  destruct (Z.leb_spec (Z.of_nat (length (rcBytes rc'))) 32); [discriminate|].
  destruct (bool_decide_reflect
              (drop (Z.to_nat (Z.of_nat (length (rcBytes rc')) - 32)) (rcBytes rc')
               = sha256_Sum (take (Z.to_nat (Z.of_nat (length (rcBytes rc')) - 32))
                               (rcBytes rc')))) as [Heq | Hne]; [|discriminate].
  inversion Hread as [Hdata]. exists rc', b, p.
  split; [reflexivity|]. split; [exact Herr|]. split; [|lia].
  subst data. rewrite <- Heq. symmetry. apply take_drop.
Qed.

(** X5.  Writing a payload followed by its SHA-256 and reading it back gives
    the payload again, provided it is not empty; the empty payload with its
    hash is 32 bytes long and is refused for want of a hash. *)
Theorem readSnapshotContents_round_trip (rc rc' : ReadCloser) (snap : Snapshot)
  (wasCompressed : bool) (compressionPolicy : string) (data : list byte) :
  getNormalizedSnapshotReadCloser rc snap
    = (rc', wasCompressed, compressionPolicy, None) ->
  rcReadErr rc' = None ->
  rcBytes rc' = data ++ sha256_Sum data ->
  length (sha256_Sum data) = 32%nat ->
  readSnapshotContentsFromReadCloser rc snap
  = match data with
    | [] => inl ErrMissingHash
    | _ :: _ => inr data
    end.
Proof.
  intros Hnorm Herr Hbytes Hlen.
  unfold readSnapshotContentsFromReadCloser. rewrite Hnorm, Herr, Hbytes.
  rewrite length_app, Hlen. unfold sha256_Size.
  destruct data as [|b data].
  - cbn. reflexivity.
  - destruct (Z.leb_spec (Z.of_nat (length (b :: data) + 32)) 32) as [Hle | Hgt];
      [cbn [length] in Hle; lia|].
    replace (Z.to_nat (Z.of_nat (length (b :: data) + 32) - 32))
      with (length (b :: data)) by lia.
    rewrite take_app_length, drop_app_length.
    rewrite bool_decide_eq_true_2 by reflexivity. reflexivity.
Qed.

End IntegrityMore.

(* ----------------------------------------------------------------- *)
(** ** More on applying events *)

Section ApplyMore.

Context {G : GoLib} {W : Type} {E : Env W}.

(** The loop of [applyEventsToEtcd] when it ends with an error. *)
Lemma applyEventsToEtcd_loop_error (events : list Event) :
  forall (lastRev : Z) (ops : list Op) (s s' : State W) (err : error),
    applyEventsToEtcd_loop events lastRev ops s = (Ok (Some err), s') ->
    exists (txns : list (list Op)) (pending : list Op) (k : nat),
      (k <= length events)%nat /\
      map Some (concat txns ++ pending)
      = map Some ops ++ map opOfEvent (take k events) /\
      (trace s' = trace s ++ map okCommit txns ++ [ObsTxnCommit pending (Some err)] \/
       (trace s' = trace s ++ map okCommit txns /\
        err = ErrUnexpectedEventType /\
        exists e, events !! k = Some e /\ opOfEvent e = None)).
Proof.
  induction events as [|e events IH]; intros lastRev ops s s' err Hrun; cbn in Hrun.
  - unfold Txn_Then_Commit, call in Hrun.
    destruct (KV_Txn_Commit ops (world s)) as [res w] eqn:Hc.
    inversion Hrun; subst. exists [], ops, 0%nat. cbn.
    rewrite app_nil_r. split; [lia|]. split; [reflexivity|]. left. reflexivity.
  - unfold bind in Hrun.
    destruct (negb (lastRev =? 0) && (ModRevision (Kv (EtcdEvent e)) >? lastRev)) eqn:Hnew.
    + unfold Txn_Then_Commit, call, ret in Hrun.
      destruct (KV_Txn_Commit ops (world s)) as [[cerr|] w] eqn:Hc.
      * inversion Hrun; subst. exists [], ops, 0%nat. cbn.
        rewrite app_nil_r. split; [lia|]. split; [reflexivity|]. left. reflexivity.
      * destruct (opOfEvent e) as [op|] eqn:Hop.
        -- apply IH in Hrun as (txns & pending & k & Hk & Hops & Htr).
           cbn [trace] in Htr. exists (ops :: txns), pending, (S k).
           split; [cbn; lia|]. split.
           ++ cbn [concat take map]. rewrite <- app_assoc, map_app, Hops, Hop.
              reflexivity.
           ++ destruct Htr as [Htr | (Htr & Herr & e' & He' & Hnone)].
              ** left. rewrite Htr. cbn. rewrite <- !app_assoc. reflexivity.
              ** right. split; [|split; [exact Herr|]].
                 --- rewrite Htr. cbn. rewrite <- !app_assoc. reflexivity.
                 --- exists e'. split; [exact He' | exact Hnone].
        -- inversion Hrun; subst. exists [ops], [], 0%nat. cbn.
           rewrite !app_nil_r. split; [lia|]. split; [reflexivity|].
           right. split; [reflexivity|]. split; [reflexivity|].
           exists e. split; [reflexivity | exact Hop].
    + unfold ret in Hrun. destruct (opOfEvent e) as [op|] eqn:Hop.
      * apply IH in Hrun as (txns & pending & k & Hk & Hops & Htr).
        exists txns, pending, (S k). split; [cbn; lia|]. split.
        -- cbn [take map]. rewrite Hops, Hop, map_app, <- app_assoc. reflexivity.
        -- destruct Htr as [Htr | (Htr & Herr & e' & He' & Hnone)].
           ++ left. exact Htr.
           ++ right. split; [exact Htr|]. split; [exact Herr|].
              exists e'. split; [exact He' | exact Hnone].
      * inversion Hrun; subst. exists [], ops, 0%nat. cbn.
        rewrite !app_nil_r. split; [lia|]. split; [reflexivity|].
        right. split; [reflexivity|]. split; [reflexivity|].
        exists e. split; [reflexivity | exact Hop].
Qed.

(** X6.  When [applyEventsToEtcd] returns an error, what it has committed
    is, in list order, the operations of a prefix of the events, the last
    batch of it left pending.  Either the commit of that batch is the last
    thing it did, it failed, and its error is the one returned; or the next
    event is neither a PUT nor a DELETE, the error is "unexpected event
    type", and the pending batch was never sent. *)
Theorem applyEventsToEtcd_error_prefix (events : list Event) (s s' : State W)
  (err : error) :
  applyEventsToEtcd events s = (Ok (Some err), s') ->
  exists (txns : list (list Op)) (pending : list Op) (k : nat),
    (k <= length events)%nat /\
    map Some (concat txns ++ pending) = map opOfEvent (take k events) /\
    (trace s' = trace s ++ map okCommit txns ++ [ObsTxnCommit pending (Some err)] \/
     (trace s' = trace s ++ map okCommit txns /\
      err = ErrUnexpectedEventType /\
      exists e, events !! k = Some e /\ opOfEvent e = None)).
Proof.
  intros Hrun. exact (applyEventsToEtcd_loop_error events 0 [] s s' err Hrun).
Qed.

Lemma commitsFrom_mono (ops1 ops2 : list Op) (events1 events2 : list Event)
  (o : Obs) :
  (forall op, op ∈ ops1 ->
     op ∈ ops2 \/ exists e, e ∈ events2 /\ opOfEvent e = Some op) ->
  (forall e, e ∈ events1 -> e ∈ events2) ->
  commitsFrom ops1 events1 o -> commitsFrom ops2 events2 o.
Proof.
  intros Hops Hevents (batch & res & -> & Hbatch).
  exists batch, res. split; [reflexivity|]. intros op Hop.
  destruct (Hbatch op Hop) as [H1 | (e & He & Heq)]; [auto|].
  right. exists e. auto.
Qed.

Lemma applyEventsToEtcd_loop_commitsFrom (events : list Event) :
  forall (lastRev : Z) (ops : list Op) (s s' : State W)
         (r : outcome (option error)),
    applyEventsToEtcd_loop events lastRev ops s = (r, s') ->
    exists tr, trace s' = trace s ++ tr /\ Forall (commitsFrom ops events) tr.
Proof.
  induction events as [|e events IH]; intros lastRev ops s s' r Hrun; cbn in Hrun.
  - unfold Txn_Then_Commit, call in Hrun.
    destruct (KV_Txn_Commit ops (world s)) as [res w] eqn:Hc.
    inversion Hrun; subst. exists [ObsTxnCommit ops res]. split; [reflexivity|].
    constructor; [|constructor]. exists ops, res. auto.
  - assert (Hhere : forall op, opOfEvent e = Some op ->
              forall op', op' ∈ ops ++ [op] ->
                op' ∈ ops \/ exists e', e' ∈ e :: events /\ opOfEvent e' = Some op').
    { intros op Hop op' Hin. apply elem_of_app in Hin as [Hin | Hin]; [auto|].
      apply list_elem_of_singleton in Hin as ->. right. exists e.
      split; [apply list_elem_of_here | exact Hop]. }
    unfold bind in Hrun.
    destruct (negb (lastRev =? 0) && (ModRevision (Kv (EtcdEvent e)) >? lastRev)).
    + unfold Txn_Then_Commit, call, ret in Hrun.
      destruct (KV_Txn_Commit ops (world s)) as [[cerr|] w] eqn:Hc.
      * inversion Hrun; subst. exists [ObsTxnCommit ops (Some cerr)].
        split; [reflexivity|]. constructor; [|constructor].
        exists ops, (Some cerr). auto.
      * destruct (opOfEvent e) as [op|] eqn:Hop.
        -- apply IH in Hrun as (tr & Htr & Hall). cbn [trace] in Htr.
           exists (ObsTxnCommit ops None :: tr). split.
           ++ rewrite Htr, <- app_assoc. reflexivity.
           ++ constructor; [exists ops, None; auto|].
              eapply Forall_impl; [exact Hall|]. intros o.
              apply commitsFrom_mono.
              ** intros op' Hin. destruct (Hhere op eq_refl op') as [H1 | H1].
                 --- apply elem_of_app. right. exact Hin.
                 --- apply elem_of_app in Hin as [Hin | Hin]; [|].
                     +++ inversion Hin.
                     +++ apply list_elem_of_singleton in Hin as ->. right.
                         exists e. split; [apply list_elem_of_here | exact Hop].
                 --- right. exact H1.
              ** intros e' He'. apply list_elem_of_further. exact He'.
        -- inversion Hrun; subst. exists [ObsTxnCommit ops None].
           split; [reflexivity|]. constructor; [|constructor].
           exists ops, None. auto.
    + unfold ret in Hrun. destruct (opOfEvent e) as [op|] eqn:Hop.
      * apply IH in Hrun as (tr & Htr & Hall). exists tr. split; [exact Htr|].
        eapply Forall_impl; [exact Hall|]. intros o.
        apply commitsFrom_mono.
        -- exact (Hhere op eq_refl).
        -- intros e' He'. apply list_elem_of_further. exact He'.
      * inversion Hrun; subst. exists []. rewrite app_nil_r. auto.
Qed.

Lemma elem_of_drop_inv {A : Type} (x : A) (n : nat) (l : list A) :
  x ∈ drop n l -> x ∈ l.
Proof.
  intros Hin. rewrite <- (take_drop n l). apply elem_of_app. auto.
Qed.

(** X7.  When the latest revision of etcd is the last revision of the first
    delta, the delta overlaps the full snapshot entirely and
    [applyFirstDeltaSnapshot] skips it: it returns nil after the fetch and
    the query, and commits nothing. *)
Theorem applyFirstDeltaSnapshot_skips_overlap (snap : Snapshot) (s : State W)
  (rc : ReadCloser) (w1 w2 : W) (eventsData : list byte) (events : list Event) :
  Store_Fetch snap (world s) = (inr rc, w1) ->
  readSnapshotContentsFromReadCloser rc snap = inr eventsData ->
  json_Unmarshal eventsData = inr events ->
  KV_Get "" true w1 = (inr (LastRevision snap), w2) ->
  applyFirstDeltaSnapshot snap s
  = (Ok None,
     mkState w2 (trace s ++ [ObsFetch snap None;
                             ObsGet "" true (inr (LastRevision snap))])).
Proof.
  intros Hfetch Hread Hjson Hget.
  rewrite (applyFirstDeltaSnapshot_run snap s rc w1 w2 eventsData events
             (LastRevision snap) Hfetch Hread Hjson Hget).
  cbv zeta. rewrite Z.eqb_refl. reflexivity.
Qed.

(** X8.  When some event of the first delta is above the latest revision [R]
    of etcd, and [R] is not the last revision of the delta, a run of
    [applyFirstDeltaSnapshot] that returns nil has committed, after the
    fetch and the query, exactly the operations of the events from the
    first event above [R] on, in their order, and nothing of the events
    before it. *)
Theorem applyFirstDeltaSnapshot_applies_newer (snap : Snapshot) (s s' : State W)
  (rc : ReadCloser) (w1 w2 : W) (eventsData : list byte) (events : list Event)
  (lastRevision : Z) :
  Store_Fetch snap (world s) = (inr rc, w1) ->
  readSnapshotContentsFromReadCloser rc snap = inr eventsData ->
  json_Unmarshal eventsData = inr events ->
  KV_Get "" true w1 = (inr lastRevision, w2) ->
  lastRevision <> LastRevision snap ->
  Exists (fun e => revOf e > lastRevision) events ->
  applyFirstDeltaSnapshot snap s = (Ok None, s') ->
  exists (j : nat) (e : Event) (txns : list (list Op)),
    events !! j = Some e /\ revOf e > lastRevision /\
    (forall (i : nat) (ei : Event),
        (i < j)%nat -> events !! i = Some ei -> revOf ei <= lastRevision) /\
    trace s' = trace s ++ [ObsFetch snap None; ObsGet "" true (inr lastRevision)]
                 ++ map okCommit txns /\
    map Some (concat txns) = map opOfEvent (drop j events).
Proof.
  intros Hfetch Hread Hjson Hget Hne Hex Hrun.
  destruct (newRevisionIndex_scan_found events lastRevision 0 Hex)
    as (j & e & Hscan & Hj & Hrev & Hmin).
  rewrite (applyFirstDeltaSnapshot_run snap s rc w1 w2 eventsData events
             lastRevision Hfetch Hread Hjson Hget) in Hrun.
  cbv zeta in Hrun.
  destruct (Z.eqb_spec lastRevision (LastRevision snap)); [contradiction|].
  rewrite Hscan in Hrun. cbn [Nat.add] in Hrun.
  apply applyEventsToEtcd_loop_ok in Hrun as [Hall Htr]. cbn [trace] in Htr.
  exists j, e, (batchesFrom (drop j events) 0 []).
  split; [exact Hj|]. split; [exact Hrev|]. split; [exact Hmin|].
  split.
  - rewrite Htr, <- app_assoc. reflexivity.
  - apply (batchesFrom_concat (drop j events) 0 [] Hall).
Qed.

(** X9.  [applyFirstDeltaSnapshot] commits to etcd only what it has
    verified: when a run of it holds a commit, the delta was fetched, the
    bytes read, after the optional decompression, are a payload followed by
    the SHA-256 of that payload, the payload was decoded into events, and
    every operation of every commit is the operation of one of these
    events. *)
Theorem applyFirstDeltaSnapshot_commits_verified (snap : Snapshot)
  (s s' : State W) (r : outcome (option error)) :
  applyFirstDeltaSnapshot snap s = (r, s') ->
  exists tr : list Obs,
    trace s' = trace s ++ tr /\
    (Forall (fun o => ~ isCommit o) tr \/
     exists (rc rc' : ReadCloser) (w1 : W) (wasCompressed : bool)
            (compressionPolicy : string) (data : list byte)
            (events : list Event),
       Store_Fetch snap (world s) = (inr rc, w1) /\
       getNormalizedSnapshotReadCloser rc snap
       = (rc', wasCompressed, compressionPolicy, None) /\
       rcBytes rc' = data ++ sha256_Sum data /\
       json_Unmarshal data = inr events /\
       Forall (fun o => isCommit o -> commitsFrom [] events o) tr).
Proof.
  unfold applyFirstDeltaSnapshot, Fetch. intros Hrun.
  apply run_bind_call in Hrun as (fetched & w1 & Hfetch & Hrun).
  destruct fetched as [err | rc].
  { inversion Hrun; subst. eexists. split; [reflexivity|]. left.
    repeat constructor. cbn. auto. }
  destruct (readSnapshotContentsFromReadCloser rc snap) as [err | data] eqn:Hread.
  { inversion Hrun; subst. eexists. split; [reflexivity|]. left.
    repeat constructor. cbn. auto. }
  destruct (readSnapshotContents_inr rc snap data Hread)
    as (rc' & b & p & Hnorm & _ & Hbytes & _).
  destruct (json_Unmarshal data) as [err | events] eqn:Hjson.
  { inversion Hrun; subst. eexists. split; [reflexivity|]. left.
    repeat constructor. cbn. auto. }
  apply run_bind_call in Hrun as (resp & w2 & Hget & Hrun). cbn [world trace] in *.
  destruct resp as [err | lastRevision].
  { inversion Hrun; subst. cbn [trace]. rewrite <- app_assoc.
    eexists. split; [reflexivity|]. left. repeat constructor; cbn; auto. }
  destruct (lastRevision =? LastRevision snap).
  { inversion Hrun; subst. cbn [trace]. rewrite <- app_assoc.
    eexists. split; [reflexivity|]. left. repeat constructor; cbn; auto. }
  apply applyEventsToEtcd_loop_commitsFrom in Hrun as (tr & Htr & Hall).
  cbn [trace] in Htr. rewrite <- !app_assoc in Htr. cbn [app] in Htr.
  exists (ObsFetch snap None :: ObsGet "" true (inr lastRevision) :: tr).
  split; [exact Htr|]. right.
  exists rc, rc', w1, b, p, data, events.
  repeat (split; [assumption|]).
  constructor; [cbn; contradiction|]. constructor; [cbn; contradiction|].
  eapply Forall_impl; [exact Hall|]. intros o Ho _.
  revert Ho. apply commitsFrom_mono; [auto|].
  intros e. apply elem_of_drop_inv.
Qed.

End ApplyMore.

(* ----------------------------------------------------------------- *)
(** ** More on the fetchers *)

Section FetcherMore.

Context {G : GoLib} {W : Type} {E : Env W}.

(** What a fetcher that does not panic sends for one delta. *)
Lemma fetchSnaps_default_sends (tempDir : string) (fetcherInfo : FetcherInfo)
  (s s' : State W) :
  fetchSnaps_default tempDir fetcherInfo s = (Ok tt, s') ->
  exists (tr : list Obs) (n : nat),
    trace s' = trace s ++ tr /\ (n <= 2)%nat /\
    snapLocationsSent tr = [snapTempFilePathOf tempDir fetcherInfo] /\
    applierInfosSent tr
    = replicate n sentinelApplierInfo ++ [applierInfoOf tempDir fetcherInfo] /\
    length (errChSends tr) = n.
Proof.
  unfold fetchSnaps_default, Fetch, persistRawDeltaSnapshot, applierInfoOf,
    snapTempFilePathOf.
  unfold bind, call, emit, ret, panic. cbn [world trace].
  destruct (Store_Fetch (fiSnapshot fetcherInfo) (world s)) as [[err | rc] w1];
    cbn [world trace];
    destruct (os_Create _ w1) as [[cerr|] w2]; cbn [world trace];
    try discriminate.
  - intros [= <-]. cbn [trace]. rewrite <- !app_assoc.
    cbn [app]. eexists _, 2%nat. split; [reflexivity|].
    repeat split; try reflexivity; lia.
  - intros [= <-]. cbn [trace]. rewrite <- !app_assoc.
    cbn [app]. eexists _, 1%nat. split; [reflexivity|].
    repeat split; try reflexivity; lia.
  - destruct (File_ReadFrom _ rc w2) as [[rerr|] w3]; cbn [world trace].
    + intros [= <-]. cbn [trace]. rewrite <- !app_assoc.
    cbn [app]. eexists _, 1%nat. split; [reflexivity|].
    repeat split; try reflexivity; lia.
    + destruct (rcCloseErr rc) as [xerr|]; cbn [world trace].
      * intros [= <-]. cbn [trace]. rewrite <- !app_assoc.
    cbn [app]. eexists _, 1%nat. split; [reflexivity|].
    repeat split; try reflexivity; lia.
      * intros [= <-]. cbn [trace]. rewrite <- !app_assoc.
    cbn [app]. eexists _, 0%nat. split; [reflexivity|].
    repeat split; try reflexivity; lia.
Qed.

(** X10.  A fetcher that does not panic sends, for every delta it takes
    before it finds [stopCh] closed and in their order: one sentinel on
    [applierInfoCh] for each error it sends on [errCh], at most two, and
    then, error or not, the path of the temporary file on
    [snapLocationsCh] and the [ApplierInfo] of the delta with that path and
    the index of the delta. *)
Theorem fetchSnaps_reports_every_delta (tempDir : string)
  (work : list (bool * FetcherInfo)) (s s' : State W) :
  fetchSnaps tempDir work s = (Ok tt, s') ->
  exists (tr : list Obs) (errors : list nat),
    trace s' = trace s ++ tr /\
    length errors = length (fetched work) /\
    Forall (fun n => (n <= 2)%nat) errors /\
    snapLocationsSent tr = map (snapTempFilePathOf tempDir) (fetched work) /\
    applierInfosSent tr
    = concat (zip_with
                (fun fetcherInfo n =>
                   replicate n sentinelApplierInfo
                   ++ [applierInfoOf tempDir fetcherInfo])
                (fetched work) errors) /\
    length (errChSends tr) = sum_list errors.
Proof.
  revert s s'. induction work as [|[stopClosed fetcherInfo] work IH];
    intros s s' Hrun; cbn [fetchSnaps fetched] in *.
  - inversion Hrun; subst. exists [], []. rewrite app_nil_r. cbn. repeat split; auto.
  - destruct stopClosed.
    + inversion Hrun; subst. exists [], []. rewrite app_nil_r. cbn. repeat split; auto.
    + apply run_bind in Hrun as [(u & s1 & Hone & Hrest) | (msg & _ & Hp)];
        [|discriminate].
      destruct u. apply fetchSnaps_default_sends in Hone
        as (tr1 & n & Htr1 & Hn & Hloc1 & Hinfo1 & Herr1).
      apply IH in Hrest as (tr2 & errors & Htr2 & Hlen & Hall & Hloc2 & Hinfo2 & Herr2).
      exists (tr1 ++ tr2), (n :: errors).
      split; [rewrite Htr2, Htr1, app_assoc; reflexivity|].
      split; [cbn; lia|]. split; [constructor; assumption|].
      unfold snapLocationsSent, applierInfosSent, errChSends in *.
      rewrite !omap_app. split; [|split].
      * rewrite Hloc1, Hloc2. reflexivity.
      * rewrite Hinfo1, Hinfo2. reflexivity.
      * rewrite length_app, Herr1, Herr2. reflexivity.
Qed.


End FetcherMore.

(* ----------------------------------------------------------------- *)
(** ** The alarm handler *)

Section HandlerFacts.

Context {G : GoLib} {W : Type} {E : Env W}.

(** X12.  [HandleAlarm] answers every alarm it receives before it is told
    to stop, in the order received and once each: it defragments the
    endpoint and sends on [dbSizeAlarmDisarmCh] whether that returned nil.
    It does nothing else, and it returns exactly when it is told to
    stop. *)
Theorem HandleAlarm_answers_every_alarm (input : list alarmSelected)
  (s s' : State W) (r : outcome bool) :
  HandleAlarm input s = (r, s') ->
  exists results : list (option error),
    length results = length (alarmsBeforeStop input) /\
    trace s' = trace s
               ++ concat (zip_with disarmRound (alarmsBeforeStop input) results) /\
    r = Ok (toldToStop input).
Proof.
  revert s s' r. induction input as [|[|endPoint] input IH]; intros s s' r Hrun;
    cbn [HandleAlarm alarmsBeforeStop toldToStop] in *.
  - inversion Hrun; subst. exists []. cbn. rewrite app_nil_r. auto.
  - inversion Hrun; subst. exists []. cbn. rewrite app_nil_r. auto.
  - unfold HandleAlarm_alarm in Hrun. unfold bind at 1 2 in Hrun.
    unfold call in Hrun.
    destruct (Maintenance_Defragment endPoint (world s)) as [res w] eqn:Hd.
    assert (Hrest : HandleAlarm input
                      (mkState w (trace s ++ disarmRound endPoint res)) = (r, s')).
    { destruct res; cbn in Hrun; unfold disarmRound;
        rewrite <- app_assoc in Hrun; exact Hrun. }
    apply IH in Hrest as (results & Hlen & Htr & Hr). cbn [trace] in Htr.
    exists (res :: results). split; [cbn; lia|]. split; [|exact Hr].
    rewrite Htr. cbn [zip_with concat]. rewrite <- app_assoc. reflexivity.
Qed.

End HandlerFacts.

(* ----------------------------------------------------------------- *)
(** ** More on the orchestrator *)

Section RestoreMore.

Context {G : GoLib} {W : Type} {E : Env W}.

Variable pipeline
  : list Snapshot -> list string -> float64 -> State W -> option error * State W.

(** A deferred call runs last, whatever the function did. *)
Lemma defer_call_last {A B : Type} (f : W -> B * W) (o : Obs) (m : M W A)
  (s s' : State W) (r : outcome A) :
  defer (bind (call f (fun _ => o)) (fun _ => ret tt)) m s = (r, s') ->
  exists s0 : State W,
    m s = (r, s0) /\ s' = mkState (snd (f (world s0))) (trace s0 ++ [o]).
Proof.
  unfold defer, bind, call, ret. destruct (m s) as [r0 s0].
  destruct (f (world s0)) as [b w] eqn:Hf. cbn. intros [= <- <-].
  exists s0. rewrite Hf. split; reflexivity.
Qed.

(** X13.  When the temporary directory cannot be made, [Restore] returns
    that error and does nothing else.  Once it is made, the last thing
    [Restore] does is to remove it, however the restoration went: with an
    error, with a panic of the goroutine of [Restore] or well.  (The
    concurrent phase is taken as far as it returns: a panic in one of its
    goroutines ends the process.) *)
Theorem Restore_removes_temp_dir (ro : RestoreOptions) (m : bool)
  (s s' : State W) (r : outcome (option Etcd * option error)) :
  Restore pipeline ro m s = (r, s') ->
  let tempDir := Types.TempSnapshotsDir (Config ro) in
  match os_MkdirAll tempDir (world s) with
  | (Some err, w1) =>
      r = Ok (None, Some err) /\
      s' = mkState w1 (trace s ++ [ObsMkdirAll tempDir (Some err)])
  | (None, _) =>
      exists tr : list Obs, trace s' = tr ++ [ObsRemoveAll tempDir]
  end.
Proof.
  intros Hrun tempDir. unfold Restore in Hrun. fold tempDir in Hrun.
  apply run_bind_call in Hrun as (err & w1 & Hmk & Hrun). rewrite Hmk.
  destruct err as [err|].
  - inversion Hrun; subst. auto.
  - apply defer_call_last in Hrun as (s0 & _ & ->). cbn [trace]. eauto.
Qed.

(** X14.  When [restoreFromBaseSnapshot] returns nil, either the path of
    the base snapshot is empty and it did nothing, or it did exactly this,
    in this order: fetch the base snapshot, create a temporary file in the
    temporary directory, copy the snapshot into it, restore the database
    from that file with the name, the peer URLs, the cluster, the token,
    the data directory and the hash-check flag of the options, and remove
    the file. *)
Theorem restoreFromBaseSnapshot_nil (ro : RestoreOptions) (s s' : State W) :
  restoreFromBaseSnapshot ro s = (Ok None, s') ->
  let base := BaseSnapshot ro in
  let tempDir := Types.TempSnapshotsDir (Config ro) in
  (path_Join (SnapDir base) (SnapName base) = "" /\ s' = s) \/
  exists db : string,
    trace s' = trace s ++ [ObsFetch base None;
                           ObsCreateTemp tempDir "snapshot-*.db";
                           ObsCopy db;
                           ObsSnapshotRestore (restoreCfgOf ro db) None;
                           ObsRemove db].
Proof.
  intros Hrun base tempDir. unfold restoreFromBaseSnapshot in Hrun.
  fold base tempDir in Hrun.
  destruct (String.eqb_spec (path_Join (SnapDir base) (SnapName base)) "")
    as [Hempty | Hpath].
  { left. inversion Hrun; subst. auto. }
  right. unfold Fetch in Hrun.
  apply run_bind_call in Hrun as (fetched & w1 & Hfetch & Hrun).
  destruct fetched as [err | rc]; [discriminate|].
  destruct (IsSnapshotCompressed (CompressionSuffix base))
    as [err | [isCompressed compressionPolicy]]; [discriminate|].
  destruct (if isCompressed then DecompressSnapshot rc compressionPolicy else inr rc)
    as [err | rc2]; [discriminate|].
  apply run_bind_call in Hrun as (db & w2 & Hcreate & Hrun).
  destruct db as [err | db]; [discriminate|].
  apply defer_call_last in Hrun as (s0 & Hbody & ->).
  apply run_bind_call in Hbody as (cerr & w3 & Hcopy & Hbody).
  destruct cerr as [cerr|]; [discriminate|].
  apply run_bind_call in Hbody as (rerr & w4 & Hrestore & Hbody).
  destruct rerr as [rerr|]; [discriminate|].
  inversion Hbody; subst. exists db. cbn [trace world].
  rewrite <- !app_assoc. reflexivity.
Qed.

(** X15.  When the restoration from the base snapshot fails, [Restore] hands
    back no etcd and that error, wrapped; it has not started the embedded
    etcd, and it has removed the temporary directory. *)
Theorem Restore_base_failure (ro : RestoreOptions) (m : bool)
  (s s2 : State W) (w1 : W) (err : error) :
  let tempDir := Types.TempSnapshotsDir (Config ro) in
  os_MkdirAll tempDir (world s) = (None, w1) ->
  restoreFromBaseSnapshot ro (mkState w1 (trace s ++ [ObsMkdirAll tempDir None]))
  = (Ok (Some err), s2) ->
  exists tr : list Obs,
    Restore pipeline ro m s
    = (Ok (None, Some (ErrRestoreFromBase err)),
       mkState (snd (os_RemoveAll tempDir (world s2)))
         (trace s ++ tr ++ [ObsRemoveAll tempDir])) /\
    etcdStarts tr = [].
Proof.
  intros tempDir Hmkdir Hbase.
  pose proof (emits_run _ _ _ _ _ (restoreFromBaseSnapshot_emits ro) Hbase)
    as (tr & Htr & Hall).
  cbn [trace] in Htr.
  exists ([ObsMkdirAll tempDir None] ++ tr).
  split.
  - unfold Restore, bind, call. fold tempDir. rewrite Hmkdir. cbv beta iota.
    unfold defer, bind. rewrite Hbase. cbv beta iota. unfold ret, call.
    destruct (os_RemoveAll tempDir (world s2)) as [e w3]. cbn [snd world trace].
    rewrite Htr, <- !app_assoc. reflexivity.
  - unfold etcdStarts. rewrite omap_app, (omap_silent _ tr Hall). reflexivity.
Qed.

(** X16.  [applyDeltaSnapshots] closes every client it has made, the
    maintenance client before the KV client, as the last thing it does,
    however the deltas went: with an error, with a panic of its own
    goroutine or well.  When a client cannot be made it returns that error
    at once.  (The concurrent phase is taken as far as it returns: a panic
    in one of its goroutines ends the process.) *)
Theorem applyDeltaSnapshots_closes_clients (endPoints : list string)
  (ro : RestoreOptions) (s s' : State W) (r : outcome (option error)) :
  applyDeltaSnapshots pipeline endPoints ro s = (r, s') ->
  match Factory_New "KV" (world s) with
  | (Some err, w1) =>
      r = Ok (Some err) /\ s' = mkState w1 (trace s ++ [ObsNewClient "KV"])
  | (None, w1) =>
      match Factory_New "Maintenance" w1 with
      | (Some err, w2) =>
          r = Ok (Some err) /\
          trace s' = trace s ++ [ObsNewClient "KV"; ObsNewClient "Maintenance";
                                 ObsCloseClient "KV"]
      | (None, _) =>
          exists tr : list Obs,
            trace s' = tr ++ [ObsCloseClient "Maintenance"; ObsCloseClient "KV"]
      end
  end.
Proof.
  intros Hrun. unfold applyDeltaSnapshots in Hrun.
  apply run_bind_call in Hrun as (err & w1 & Hkv & Hrun). rewrite Hkv.
  destruct err as [err|].
  { inversion Hrun; subst. auto. }
  unfold closeClient in Hrun.
  apply defer_call_last in Hrun as (s0 & Hrun & ->). cbn [world trace] in *.
  apply run_bind_call in Hrun as (err & w2 & Hmt & Hrun). cbn [world trace] in *.
  rewrite Hmt. destruct err as [err|].
  { inversion Hrun; subst. cbn [trace]. rewrite <- !app_assoc. auto. }
  apply defer_call_last in Hrun as (s1 & _ & ->). cbn [trace].
  exists (trace s1). rewrite <- app_assoc. reflexivity.
Qed.

(** X17.  With a single delta snapshot the concurrent phase is never
    entered: what [applyDeltaSnapshots] does and returns does not depend on
    it. *)
Theorem applyDeltaSnapshots_single_delta
  (pipeline' : list Snapshot -> list string -> float64 ->
               State W -> option error * State W)
  (endPoints : list string) (ro : RestoreOptions) (s : State W) :
  length (DeltaSnapList ro) = 1%nat ->
  applyDeltaSnapshots pipeline endPoints ro s
  = applyDeltaSnapshots pipeline' endPoints ro s.
Proof.
  intros Hlen. unfold applyDeltaSnapshots.
  destruct (DeltaSnapList ro) as [|firstDeltaSnap [|second rest]];
    try discriminate Hlen.
  reflexivity.
Qed.

(** The etcd [Restore] hands back is the one it has started. *)
Lemma Restore_handle (ro : RestoreOptions) (m : bool) (s s2 s' : State W)
  (w1 w3 : W) (started embeddedEtcd : option Etcd) (startErr err : option error) :
  let tempDir := Types.TempSnapshotsDir (Config ro) in
  os_MkdirAll tempDir (world s) = (None, w1) ->
  restoreFromBaseSnapshot ro (mkState w1 (trace s ++ [ObsMkdirAll tempDir None]))
  = (Ok None, s2) ->
  DeltaSnapList ro <> [] ->
  StartEmbeddedEtcd ro (world s2) = ((started, startErr), w3) ->
  Restore pipeline ro m s = (Ok (embeddedEtcd, err), s') ->
  embeddedEtcd = started /\ (startErr <> None -> err = startErr).
Proof.
  intros tempDir Hmkdir Hbase Hdeltas Hstart Hrun.
  unfold Restore in Hrun. fold tempDir in Hrun.
  apply run_bind_call in Hrun as (merr & w1' & Hmk & Hrun).
  rewrite Hmkdir in Hmk. inversion Hmk; subst merr w1'. clear Hmk.
  apply defer_call_last in Hrun as (s0 & Hrun & _).
  unfold bind at 1 in Hrun. rewrite Hbase in Hrun.
  destruct (DeltaSnapList ro) as [|d ds] eqn:Hds; [contradiction|].
  cbn [length Nat.eqb] in Hrun.
  apply run_bind_call in Hrun as (st & w3' & Hst & Hrun).
  rewrite Hstart in Hst. inversion Hst; subst st w3'. clear Hst.
  destruct startErr as [serr|].
  { destruct started; inversion Hrun; subst; (split; [reflexivity | auto]). }
  split; [|intros Hn; contradiction].
  destruct started as [e|]; [|discriminate].
  destruct (Clients e) as [|addr addrs]; [discriminate|].
  apply run_bind in Hrun as [(aerr & s3 & _ & Hrun) | (msg & _ & Hp)];
    [|discriminate].
  destruct aerr as [aerr|]; [inversion Hrun; reflexivity|].
  destruct m; [|inversion Hrun; reflexivity].
  apply run_bind_call in Hrun as (cerr & w4 & _ & Hrun).
  destruct cerr as [cerr|]; [inversion Hrun; reflexivity|].
  unfold closeClient in Hrun.
  apply defer_call_last in Hrun as (s4 & Hrun & _).
  apply run_bind_call in Hrun as (uerr & w5 & _ & Hrun).
  destruct uerr; inversion Hrun; reflexivity.
Qed.

(** X18.  Once the embedded etcd is started, [Restore], unless it panics,
    hands back that etcd in every case, also with an error from applying
    the deltas or from updating the member: the caller can stop it. *)
Theorem Restore_returns_started_etcd (ro : RestoreOptions) (m : bool)
  (s s2 s' : State W) (w1 w3 : W) (started embeddedEtcd : option Etcd)
  (startErr err : option error) :
  let tempDir := Types.TempSnapshotsDir (Config ro) in
  os_MkdirAll tempDir (world s) = (None, w1) ->
  restoreFromBaseSnapshot ro (mkState w1 (trace s ++ [ObsMkdirAll tempDir None]))
  = (Ok None, s2) ->
  DeltaSnapList ro <> [] ->
  StartEmbeddedEtcd ro (world s2) = ((started, startErr), w3) ->
  Restore pipeline ro m s = (Ok (embeddedEtcd, err), s') ->
  embeddedEtcd = started /\ (startErr <> None -> err = startErr).
Proof. exact (Restore_handle ro m s s2 s' w1 w3 started embeddedEtcd startErr err). Qed.

Context {D : EmbeddedEtcd W}.

(** X19.  [RestoreAndStopEtcd] returns the error of [Restore].  When
    [Restore] has started the embedded etcd and has not panicked,
    [RestoreAndStopEtcd] stops and closes that etcd once [Restore] is over;
    when [Restore] hands back no etcd, nothing is stopped. *)
Theorem RestoreAndStopEtcd_stops_started_etcd (ro : RestoreOptions) (m : bool)
  (s s2 s' : State W) (w1 w3 : W) (started embeddedEtcd : option Etcd)
  (startErr err : option error) :
  let tempDir := Types.TempSnapshotsDir (Config ro) in
  os_MkdirAll tempDir (world s) = (None, w1) ->
  restoreFromBaseSnapshot ro (mkState w1 (trace s ++ [ObsMkdirAll tempDir None]))
  = (Ok None, s2) ->
  DeltaSnapList ro <> [] ->
  StartEmbeddedEtcd ro (world s2) = ((started, startErr), w3) ->
  Restore pipeline ro m s = (Ok (embeddedEtcd, err), s') ->
  RestoreAndStopEtcd pipeline ro m s
  = (Ok err,
     match started with
     | Some e => mkState (Etcd_Close e (Server_Stop e (world s'))) (trace s')
     | None => s'
     end).
Proof.
  intros tempDir Hmkdir Hbase Hdeltas Hstart Hrun.
  destruct (Restore_handle ro m s s2 s' w1 w3 started embeddedEtcd startErr err
              Hmkdir Hbase Hdeltas Hstart Hrun) as [-> _].
  unfold RestoreAndStopEtcd. rewrite Hrun. reflexivity.
Qed.

End RestoreMore.

(* ----------------------------------------------------------------- *)
(** ** More on the applier *)

Section ApplierMore.

Context {G : GoLib} {W : Type} {E : Env W}.

Lemma raiseAlarm_loop_leanObs (endPoints : list string) :
  emits leanObs (raiseAlarm_loop (W := W) endPoints).
Proof.
  induction endPoints as [|ep eps IH]; cbn [raiseAlarm_loop];
    unfold HandleAlarm_alarm; emits_auto.
Qed.

(** The lean-keeper compacts, asks for the status and runs the rounds of
    the alarm; it does nothing else. *)
Lemma MakeEtcdLeanAndCheckAlarm_leanObs (revision : Z) (endPoints : list string)
  (quota : float64) :
  emits leanObs (MakeEtcdLeanAndCheckAlarm (W := W) revision endPoints quota).
Proof.
  unfold MakeEtcdLeanAndCheckAlarm. emits_auto. apply raiseAlarm_loop_leanObs.
Qed.

Lemma offFiles_projections (tr : list Obs) :
  Forall offFiles tr ->
  filesOpened tr = [] /\ filesRemoved tr = [] /\ errChSends tr = [].
Proof.
  intros Hall. repeat split; apply omap_silent;
    (eapply Forall_impl; [exact Hall | intros o (H1 & H2 & H3); assumption]).
Qed.

Lemma leanObs_offFiles (o : Obs) : leanObs o -> offFiles o.
Proof. destruct o; cbn; try contradiction; intros _; repeat split. Qed.

Lemma kvCall_offFiles (o : Obs) : kvCall o -> offFiles o.
Proof. destruct o; cbn; try contradiction; intros _; repeat split. Qed.

Section Body.

Variable remainingSnaps : list Snapshot.
Variable endPoints : list string.
Variable embeddedEtcdQuotaBytes : float64.

(** The files the body of the loop opens and removes for one delta. *)
Lemma applySnaps_body_files (currSnapIndex : Z) (snap : Snapshot)
  (filePath : string) (a : applier) (s s' : State W) (r : outcome flow) :
  applySnaps_body remainingSnaps endPoints embeddedEtcdQuotaBytes
    currSnapIndex snap filePath a s = (r, s') ->
  exists tr : list Obs,
    trace s' = trace s ++ tr /\
    filesOpened tr = [filePath] /\
    match r with
    | Ok (Continue _) => filesRemoved tr = [filePath] /\ errChSends tr = []
    | Ok Return_ =>
        (filesRemoved tr = [filePath] /\ errChSends tr = [None]) \/
        (filesRemoved tr = [] /\ exists err, errChSends tr = [Some err])
    | Panic _ => filesRemoved tr = [filePath] /\ errChSends tr = []
    end.
Proof.
  intros Hrun. unfold applySnaps_body in Hrun.
  apply run_bind in Hrun as [(data & s1 & Hread & Hrun) | (msg & Hread & _)].
  2:{ apply readSnapshotContentsFromFile_run in Hread as [_ [res Hres]]. discriminate. }
  apply readSnapshotContentsFromFile_run in Hread as [Htr1 _].
  destruct data as [err | eventsData].
  { apply run_bind_emit in Hrun. inversion Hrun; subst. cbn [trace]. rewrite Htr1.
    eexists. rewrite <- app_assoc. split; [reflexivity|].
    cbn. split; [reflexivity|]. right. eauto. }
  destruct (json_Unmarshal eventsData) as [err | events].
  { apply run_bind_emit in Hrun. inversion Hrun; subst. cbn [trace]. rewrite Htr1.
    eexists. rewrite <- app_assoc. split; [reflexivity|].
    cbn. split; [reflexivity|]. right. eauto. }
  apply run_bind_emit in Hrun.
  apply run_bind_safe in Hrun as (err & s2 & Hav & Hrun);
    [|apply applyEventsAndVerify_safe].
  eapply emits_run in Hav as (tr2 & Htr2 & Hall2); [|apply applyEventsAndVerify_emits].
  cbn [trace] in Htr2.
  destruct (offFiles_projections tr2
              (Forall_impl _ _ _ Hall2 kvCall_offFiles)) as (Ho2 & Hr2 & He2).
  unfold filesOpened, filesRemoved, errChSends in *.
  destruct err as [err|].
  { apply run_bind_emit in Hrun. inversion Hrun; subst. cbn [trace].
    rewrite Htr2, Htr1. eexists. rewrite <- !app_assoc. split; [reflexivity|].
    rewrite !omap_app, Ho2, Hr2, He2. cbn. split; [reflexivity|]. right. eauto. }
  apply run_bind_call in Hrun as (rmErr & w3 & _ & Hrun). cbn [trace] in Hrun.
  destruct (nextSnapIndexToApply a + 1 =? Z.of_nat (length remainingSnaps)).
  { apply run_bind_emit in Hrun. inversion Hrun; subst. cbn [trace].
    rewrite Htr2, Htr1. eexists. rewrite <- !app_assoc. split; [reflexivity|].
    rewrite !omap_app, Ho2, Hr2, He2. cbn. split; [reflexivity|]. left. auto. }
  destruct ((Z.rem (numberOfDeltaSnapApplied a + 1)
               periodicallyMakeEtcdLeanDeltaSnapshotInterval =? 0)
            || prevAttemptToMakeEtcdLeanFailed a).
  - assert (Hlean : forall (rl : outcome (option error)) (s4 : State W),
              MakeEtcdLeanAndCheckAlarm (LastRevision snap) endPoints
                embeddedEtcdQuotaBytes
                (mkState w3 (trace s2 ++ [ObsRemove filePath])) = (rl, s4) ->
              exists tr4, trace s4 = (trace s2 ++ [ObsRemove filePath]) ++ tr4 /\
                          omap opened tr4 = [] /\ omap removed tr4 = [] /\
                          omap errChSend tr4 = []).
    { intros rl s4 Hl.
      eapply emits_run in Hl as (tr4 & Htr4 & Hall4);
        [|apply MakeEtcdLeanAndCheckAlarm_leanObs].
      exists tr4. split; [exact Htr4|].
      apply (offFiles_projections tr4 (Forall_impl _ _ _ Hall4 leanObs_offFiles)). }
    apply run_bind in Hrun as [(lerr & s4 & Hl & Hrun) | (msg & Hl & ->)];
      apply Hlean in Hl as (tr4 & Htr4 & Ho4 & Hr4 & He4).
    + assert (Hs : s' = s4) by (destruct lerr; inversion Hrun; reflexivity). subst s4.
      rewrite Htr4, Htr2, Htr1. eexists. rewrite <- !app_assoc. split; [reflexivity|].
      rewrite !omap_app, Ho2, Hr2, He2, Ho4, Hr4, He4.
      destruct lerr; inversion Hrun; subst; cbn; auto.
    + rewrite Htr4, Htr2, Htr1. eexists. rewrite <- !app_assoc. split; [reflexivity|].
      rewrite !omap_app, Ho2, Hr2, He2, Ho4, Hr4, He4. cbn. auto.
  - inversion Hrun; subst. cbn [trace].
    rewrite Htr2, Htr1. eexists. rewrite <- !app_assoc. split; [reflexivity|].
    rewrite !omap_app, Ho2, Hr2, He2. cbn. auto.
Qed.

Lemma tidy_app (tr1 tr2 : list Obs) : tidy tr1 -> tidy tr2 -> tidy (tr1 ++ tr2).
Proof.
  unfold tidy, filesRemoved, filesOpened. intros H1 H2.
  rewrite !omap_app, H1, H2. reflexivity.
Qed.

Lemma tidyOrFailed_app (tr1 tr2 : list Obs) :
  tidy tr1 -> errChSends tr1 = [] -> tidyOrFailed tr2 -> tidyOrFailed (tr1 ++ tr2).
Proof.
  intros H1 He1 [H2 | [[p Hp] [err Herr]]].
  - left. apply tidy_app; assumption.
  - right. split.
    + exists p. unfold tidy, filesRemoved, filesOpened in *.
      rewrite !omap_app, Hp, H1, app_assoc. reflexivity.
    + exists err. unfold errChSends in *. rewrite omap_app, He1, Herr. reflexivity.
Qed.

Lemma tidy_nil : tidy [].
Proof. reflexivity. Qed.

Lemma applySnaps_for_files (fuel : nat) :
  forall (currSnapIndex : Z) (a : applier) (s s' : State W) (r : outcome flow),
    applySnaps_for remainingSnaps endPoints embeddedEtcdQuotaBytes
      fuel currSnapIndex a s = (r, s') ->
    exists tr : list Obs,
      trace s' = trace s ++ tr /\
      match r with
      | Ok (Continue _) => tidy tr /\ errChSends tr = []
      | Ok Return_ => tidyOrFailed tr
      | Panic _ => tidy tr
      end.
Proof.
  induction fuel as [|fuel IH]; intros curr a s s' r Hrun;
    cbn [applySnaps_for] in Hrun.
  - inversion Hrun; subst. exists []. rewrite app_nil_r. split; [reflexivity|].
    split; [apply tidy_nil | reflexivity].
  - destruct (pathList a !! Z.to_nat curr) as [filePath|];
      [destruct (remainingSnaps !! Z.to_nat curr) as [snap|]|].
    2,3: inversion Hrun; subst; exists []; rewrite app_nil_r;
         (split; [reflexivity | apply tidy_nil]).
    destruct (String.eqb filePath "").
    { inversion Hrun; subst. exists []. rewrite app_nil_r. split; [reflexivity|].
      split; [apply tidy_nil | reflexivity]. }
    apply run_bind in Hrun as [(fl & s1 & Hbody & Hrun) | (msg & Hbody & ->)];
      apply applySnaps_body_files in Hbody as (tr1 & Htr1 & Ho1 & Hspec).
    + destruct fl as [a1|].
      * destruct Hspec as [Hr1 He1].
        assert (Ht1 : tidy tr1) by (unfold tidy; congruence).
        apply IH in Hrun as (tr2 & Htr2 & Hres).
        exists (tr1 ++ tr2).
        split; [rewrite Htr2, Htr1, app_assoc; reflexivity|].
        destruct r as [[a2|]|msg].
        -- destruct Hres as [Ht2 He2]. split; [apply tidy_app; assumption|].
           unfold errChSends in *. rewrite omap_app, He1, He2. reflexivity.
        -- apply tidyOrFailed_app; assumption.
        -- apply tidy_app; assumption.
      * inversion Hrun; subst. exists tr1. split; [exact Htr1|].
        destruct Hspec as [[Hr1 He1] | [Hr1 [err He1]]].
        -- left. unfold tidy. congruence.
        -- right. split; [|eauto]. exists filePath. rewrite Hr1, Ho1. reflexivity.
    + exists tr1. split; [exact Htr1|]. destruct Hspec as [Hr1 _].
      unfold tidy. congruence.
Qed.

Lemma applySnaps_applierInfo_files (applierInfo : ApplierInfo) (a : applier)
  (s s' : State W) (r : outcome flow) :
  applySnaps_applierInfo remainingSnaps endPoints embeddedEtcdQuotaBytes
    applierInfo a s = (r, s') ->
  exists tr : list Obs,
    trace s' = trace s ++ tr /\
    match r with
    | Ok (Continue _) => tidy tr /\ errChSends tr = []
    | Ok Return_ => tidyOrFailed tr
    | Panic _ => tidy tr
    end.
Proof.
  intros Hrun. unfold applySnaps_applierInfo in Hrun.
  destruct (SnapIndex applierInfo =? -1).
  { inversion Hrun; subst. exists []. rewrite app_nil_r. split; [reflexivity|].
    left. apply tidy_nil. }
  destruct ((SnapIndex applierInfo <? 0)
            || (Z.of_nat (length (pathList a)) <=? SnapIndex applierInfo)).
  { inversion Hrun; subst. exists []. rewrite app_nil_r. split; [reflexivity|].
    apply tidy_nil. }
  cbn [nextSnapIndexToApply] in Hrun.
  destruct (SnapIndex applierInfo <? nextSnapIndexToApply a).
  { apply run_bind_emit in Hrun. inversion Hrun; subst. cbn [trace].
    eexists. split; [reflexivity|]. left. reflexivity. }
  destruct (SnapIndex applierInfo =? nextSnapIndexToApply a).
  - apply applySnaps_for_files in Hrun. exact Hrun.
  - inversion Hrun; subst. exists []. rewrite app_nil_r. split; [reflexivity|].
    split; [apply tidy_nil | reflexivity].
Qed.

Lemma applySnaps_select_files (input : list selected) :
  forall (a : applier) (s s' : State W) (r : outcome applierStatus),
    applySnaps_select remainingSnaps endPoints embeddedEtcdQuotaBytes
      input a s = (r, s') ->
    exists tr : list Obs,
      trace s' = trace s ++ tr /\
      match r with
      | Ok (Waiting _) => tidy tr /\ errChSends tr = []
      | Ok Returned => tidyOrFailed tr
      | Panic _ => tidy tr
      end.
Proof.
  induction input as [|sel input IH]; intros a s s' r Hrun;
    cbn [applySnaps_select] in Hrun.
  - inversion Hrun; subst. exists []. rewrite app_nil_r. split; [reflexivity|].
    split; [apply tidy_nil | reflexivity].
  - destruct sel as [more | applierInfo].
    + destruct more; [exact (IH a s s' r Hrun)|].
      inversion Hrun; subst. exists []. rewrite app_nil_r. split; [reflexivity|].
      left. apply tidy_nil.
    + apply run_bind in Hrun as [(fl & s1 & Hstep & Hrun) | (msg & Hstep & ->)];
        apply applySnaps_applierInfo_files in Hstep as (tr1 & Htr1 & Hres).
      2:{ exists tr1. split; assumption. }
      destruct fl as [a1|].
      * destruct Hres as [Ht1 He1].
        apply IH in Hrun as (tr2 & Htr2 & Hres2).
        exists (tr1 ++ tr2).
        split; [rewrite Htr2, Htr1, app_assoc; reflexivity|].
        destruct r as [[|a2]|msg].
        -- apply tidyOrFailed_app; assumption.
        -- destruct Hres2 as [Ht2 He2]. split; [apply tidy_app; assumption|].
           unfold errChSends in *. rewrite omap_app, He1, He2. reflexivity.
        -- apply tidy_app; assumption.
      * inversion Hrun; subst. exists tr1. split; assumption.
Qed.

(** X20.  The applier removes the temporary file of a delta once the delta
    is applied and verified.  At any moment the files it has removed are
    the files it has opened, in the same order, but for at most one, the
    file of the delta it has not brought to its end.  When it has returned
    with a file left, it has sent an error on [errCh]; nothing is left
    while it waits for more and when it has sent nil. *)
Theorem applySnaps_removes_applied_files (input : list selected)
  (s s' : State W) (r : outcome applierStatus) :
  applySnaps remainingSnaps endPoints embeddedEtcdQuotaBytes input s = (r, s') ->
  exists tr : list Obs,
    trace s' = trace s ++ tr /\
    (filesRemoved tr = filesOpened tr \/
     (exists p, filesOpened tr = filesRemoved tr ++ [p]) /\
     forall st : applierStatus,
       r = Ok st -> st = Returned /\ exists err, errChSends tr = [Some err]).
Proof.
  intros Hrun. unfold applySnaps in Hrun.
  apply applySnaps_select_files in Hrun as (tr & Htr & Hres).
  exists tr. split; [exact Htr|].
  destruct r as [[|a]|msg].
  - destruct Hres as [Ht | [Hl He]]; [left; exact Ht|].
    right. split; [exact Hl|]. intros st [= <-]. auto.
  - left. apply Hres.
  - left. exact Hres.
Qed.

Lemma leanObs_not_commit (o : Obs) : leanObs o -> ~ isCommit o.
Proof. destruct o; cbn; auto. Qed.

(** Applying the events of a delta and verifying the revision commits
    operations of these events only. *)
Lemma applyEventsAndVerify_commitsFrom (events : list Event) (snap : Snapshot)
  (s s' : State W) (r : outcome (option error)) :
  applyEventsAndVerify events snap s = (r, s') ->
  exists tr : list Obs,
    trace s' = trace s ++ tr /\
    Forall (fun o => isCommit o -> commitsFrom [] events o) tr.
Proof.
  unfold applyEventsAndVerify, applyEventsToEtcd. intros Hrun.
  apply run_bind_safe in Hrun as (err & s1 & Hloop & Hrun);
    [|apply applyEventsToEtcd_loop_safe].
  apply applyEventsToEtcd_loop_commitsFrom in Hloop as (tr1 & Htr1 & Hall1).
  assert (Hall1' : Forall (fun o => isCommit o -> commitsFrom [] events o) tr1).
  { eapply Forall_impl; [exact Hall1|]. auto. }
  destruct err as [err|].
  - inversion Hrun; subst. exists tr1. auto.
  - unfold verifySnapshotRevision in Hrun.
    apply run_bind in Hrun as [(verr & s2 & Hget & Hrun) | (msg & Hget & ->)];
      apply run_bind_call in Hget as (resp & w2 & _ & Hget).
    + assert (Hs2 : s2 = mkState w2 (trace s1 ++ [ObsGet "foo" false resp])).
      { destruct resp as [e | rev]; [inversion Hget; reflexivity|].
        destruct (negb (LastRevision snap =? rev)); inversion Hget; reflexivity. }
      assert (Hs' : s' = s2) by (destruct verr; inversion Hrun; reflexivity).
      subst s' s2. cbn [trace]. rewrite Htr1, <- app_assoc.
      eexists. split; [reflexivity|].
      apply Forall_app. split; [exact Hall1'|].
      constructor; [cbn; contradiction | constructor].
    + destruct resp as [e | rev]; [discriminate|].
      destruct (negb (LastRevision snap =? rev)); discriminate.
Qed.

(** X21.  The applier commits to etcd only what it has verified: when its
    work on one delta holds a commit, the file of the delta was opened, the
    bytes read from it, after the optional decompression, are a payload
    followed by the SHA-256 of that payload, the payload was decoded into
    events, and every operation of every commit is the operation of one of
    these events. *)
Theorem applySnaps_body_commits_verified (currSnapIndex : Z) (snap : Snapshot)
  (filePath : string) (a : applier) (s s' : State W) (r : outcome flow) :
  applySnaps_body remainingSnaps endPoints embeddedEtcdQuotaBytes
    currSnapIndex snap filePath a s = (r, s') ->
  exists tr : list Obs,
    trace s' = trace s ++ tr /\
    (Forall (fun o => ~ isCommit o) tr \/
     exists (file rc' : ReadCloser) (w1 : W) (wasCompressed : bool)
            (compressionPolicy : string) (data : list byte)
            (events : list Event),
       os_Open filePath (world s) = (inr file, w1) /\
       getNormalizedSnapshotReadCloser file snap
       = (rc', wasCompressed, compressionPolicy, None) /\
       rcBytes rc' = data ++ sha256_Sum data /\
       json_Unmarshal data = inr events /\
       Forall (fun o => isCommit o -> commitsFrom [] events o) tr).
Proof.
  intros Hrun. unfold applySnaps_body in Hrun.
  apply run_bind in Hrun as [(res & s1 & Hread & Hrun) | (msg & Hread & _)].
  2:{ apply readSnapshotContentsFromFile_run in Hread as [_ [res Hres]]. discriminate. }
  unfold readSnapshotContentsFromFile in Hread.
  apply run_bind_call in Hread as (opened & w1 & Hopen & Hread).
  destruct opened as [err | file].
  { inversion Hread; subst. apply run_bind_emit in Hrun. inversion Hrun; subst.
    cbn [trace]. rewrite <- app_assoc. eexists. split; [reflexivity|]. left.
    repeat constructor; cbn; auto. }
  inversion Hread; subst res s1. clear Hread.
  destruct (readSnapshotContentsFromReadCloser file snap) as [err | data] eqn:Hdata.
  { apply run_bind_emit in Hrun. inversion Hrun; subst.
    cbn [trace]. rewrite <- app_assoc. eexists. split; [reflexivity|]. left.
    repeat constructor; cbn; auto. }
  destruct (readSnapshotContents_inr file snap data Hdata)
    as (rc' & b & p & Hnorm & _ & Hbytes & _).
  destruct (json_Unmarshal data) as [err | events] eqn:Hjson.
  { apply run_bind_emit in Hrun. inversion Hrun; subst.
    cbn [trace]. rewrite <- app_assoc. eexists. split; [reflexivity|]. left.
    repeat constructor; cbn; auto. }
  apply run_bind_emit in Hrun. cbn [world trace] in Hrun.
  apply run_bind_safe in Hrun as (err & s2 & Hav & Hrun);
    [|apply applyEventsAndVerify_safe].
  apply applyEventsAndVerify_commitsFrom in Hav as (tr2 & Htr2 & Hall2).
  cbn [trace] in Htr2.
  eapply (emits_run (fun o => ~ isCommit o)) in Hrun as (tr3 & Htr3 & Hall3).
  2:{ emits_auto;
      try (eapply emits_weaken;
           [|apply MakeEtcdLeanAndCheckAlarm_leanObs]; apply leanObs_not_commit). }
  eexists. split.
  { rewrite Htr3, Htr2, <- !app_assoc. reflexivity. }
  right. exists file, rc', w1, b, p, data, events.
  repeat (split; [assumption|]).
  constructor; [cbn; contradiction|]. constructor; [cbn; contradiction|].
  apply Forall_app. split; [exact Hall2|].
  eapply Forall_impl; [exact Hall3|]. intros o Hn Hc. contradiction.
Qed.

End Body.

End ApplierMore.

(* ----------------------------------------------------------------- *)
(** ** The clean-up *)

Section CleanupFacts.

Lemma string_app_assoc (a b c : string) :
  ((a ++ b) ++ c = a ++ (b ++ c))%string.
Proof. induction a as [|x a IH]; cbn; [reflexivity | rewrite IH; reflexivity]. Qed.

Lemma string_app_nil_r (a : string) : (a ++ "")%string = a.
Proof. induction a as [|x a IH]; cbn; [reflexivity | rewrite IH; reflexivity]. Qed.

Lemma ErrorArrayToError_fold {A : Type} (Error : A -> string) (errs : list A) :
  forall errString : string,
    fold_left (fun errString e => (errString ++ newline ++ Error e)%string)
      errs errString
    = (errString ++ joinedMessages Error errs)%string.
Proof.
  induction errs as [|e errs IH]; intros errString; cbn [fold_left joinedMessages fold_right].
  - rewrite string_app_nil_r. reflexivity.
  - rewrite IH. fold (joinedMessages Error errs).
    rewrite !string_app_assoc. reflexivity.
Qed.

(** X22.  [ErrorArrayToError] returns nil exactly for the empty slice.
    Otherwise the message of its error is what [strings.TrimSpace] leaves
    of the messages of the errors, in their order, each after a line
    feed. *)
Theorem ErrorArrayToError_message {A : Type} (Error : A -> string)
  (TrimSpace : string -> string) (errs : list A) :
  ErrorArrayToError Error TrimSpace errs
  = match errs with
    | [] => None
    | _ :: _ => Some (TrimSpace (joinedMessages Error errs))
    end.
Proof.
  unfold ErrorArrayToError. destruct errs as [|e errs]; [reflexivity|].
  cbn [length Nat.eqb]. rewrite ErrorArrayToError_fold. reflexivity.
Qed.

Context {W : Type} {E : Env W} {C : CleanupLib W}.

Lemma cleanup_range_spec (paths : list string) :
  forall (errs errs' : list cleanupError) (w w' : W)
         (calls calls' : list cleanupCall),
    cleanup_range paths errs w calls = (errs', w', calls') ->
    exists new : list cleanupCall,
      calls' = calls ++ new /\
      omap statted new = paths /\
      omap cleanupRemoved new = omap foundByStat new /\
      errs' = errs ++ omap cleanupErrorOf new.
Proof.
  induction paths as [|filePath paths IH]; intros errs errs' w w' calls calls' Hrun;
    cbn [cleanup_range] in Hrun.
  - inversion Hrun; subst. exists []. rewrite !app_nil_r. auto.
  - destruct (os_Stat filePath w) as [[err|] w1].
    + destruct (os_IsNotExist err) eqn:Hmissing; cbn [negb] in Hrun;
        apply IH in Hrun as (new & -> & Hstat & Hrm & ->);
        exists (CallStat filePath (Some err) :: new);
        rewrite <- !app_assoc; cbn; rewrite Hmissing, Hstat, Hrm; auto.
    + destruct (os_Remove filePath w1) as [[err|] w2];
        apply IH in Hrun as (new & -> & Hstat & Hrm & ->);
        eexists (CallStat filePath None :: CallRemove filePath _ :: new);
        rewrite <- !app_assoc; cbn; rewrite Hstat, Hrm; auto.
Qed.

(** X23.  [cleanup] asks [os.Stat] about every path it takes from
    [snapLocationsCh], in order, whatever went wrong before.  It removes
    the paths [os.Stat] has found, and no other.  Its error joins one error
    for every [Stat] that failed otherwise than for a missing file and for
    every [Remove] that failed, in the order of the calls; it returns nil
    exactly when there is none, so a missing file is no error. *)
Theorem cleanup_visits_every_path (snapLocations : list string) (w w' : W)
  (r : option string) (calls : list cleanupCall) :
  cleanup snapLocations w = (r, w', calls) ->
  omap statted calls = snapLocations /\
  omap cleanupRemoved calls = omap foundByStat calls /\
  r = ErrorArrayToError cleanupError_Error strings_TrimSpace
        (omap cleanupErrorOf calls) /\
  (r = None <-> omap cleanupErrorOf calls = []).
Proof.
  unfold cleanup. intros Hrun.
  destruct (cleanup_range snapLocations [] w []) as [[errs w1] calls1] eqn:Hrange.
  apply cleanup_range_spec in Hrange as (new & Hcalls & Hstat & Hrm & Herrs).
  cbn [app] in Hcalls, Herrs. subst calls1 errs.
  assert (Hres : r = ErrorArrayToError cleanupError_Error strings_TrimSpace
                       (omap cleanupErrorOf new) /\ calls = new).
  { destruct (omap cleanupErrorOf new) as [|e errs]; cbn in Hrun;
      inversion Hrun; subst; auto. }
  destruct Hres as [-> ->].
  split; [exact Hstat|]. split; [exact Hrm|]. split; [reflexivity|].
  unfold ErrorArrayToError.
  destruct (omap cleanupErrorOf new) as [|e errs]; cbn; split; congruence.
Qed.

End CleanupFacts.

(* ----------------------------------------------------------------- *)
(** ** Deep copies *)

Section MemoryFacts.

Import Memory.
Local Open Scope heap_scope.

Lemma hbind_alloc {B : Type} (c : Cell) (k : ptr -> H B) (h : Heap) :
  hbind (alloc c) k h = k (length h) (h ++ [c]).
Proof. reflexivity. Qed.

Lemma hbind_load {B : Type} (p : ptr) (c : Cell) (k : Cell -> H B) (h : Heap) :
  h !! p = Some c -> hbind (load p) k h = k c h.
Proof. intros Hp. unfold hbind, load. rewrite Hp. reflexivity. Qed.

Lemma hbind_loadConfig {B : Type} (p : ptr) (v : RestorationConfigMem)
  (k : RestorationConfigMem -> H B) (h : Heap) :
  h !! p = Some (ConfigCell v) -> hbind (loadConfig p) k h = k v h.
Proof. intros Hp. unfold loadConfig, hbind, load, hret. rewrite Hp. reflexivity. Qed.

Lemma hbind_loadURL {B : Type} (p : ptr) (v : URL) (k : URL -> H B) (h : Heap) :
  h !! p = Some (URLCell v) -> hbind (loadURL p) k h = k v h.
Proof. intros Hp. unfold loadURL, hbind, load, hret. rewrite Hp. reflexivity. Qed.

Lemma hbind_loadSnapshot {B : Type} (p : ptr) (v : Snapshot)
  (k : Snapshot -> H B) (h : Heap) :
  h !! p = Some (SnapshotCell v) -> hbind (loadSnapshot p) k h = k v h.
Proof. intros Hp. unfold loadSnapshot, hbind, load, hret. rewrite Hp. reflexivity. Qed.

Lemma store_eq (p : ptr) (c : Cell) (h : Heap) :
  (p < length h)%nat ->
  store p c h = Some (tt, <[(p : nat) := c]> (h : list Cell)).
Proof.
  intros Hp. unfold store.
  destruct (Nat.ltb_spec p (length h)); [reflexivity | lia].
Qed.

Lemma hbind_store {B : Type} (p : ptr) (c : Cell) (k : unit -> H B) (h : Heap) :
  (p < length h)%nat ->
  hbind (store p c) k h = k tt (<[(p : nat) := c]> (h : list Cell)).
Proof. intros Hp. unfold hbind. rewrite store_eq by exact Hp. reflexivity. Qed.

Lemma window_whole {A : Type} (vals : list A) :
  forall arr : ptr, window (mkSlice arr 0 (length vals)) vals = Some vals.
Proof.
  intros arr. unfold window. cbn [sOffset sLen].
  destruct (Nat.leb_spec (0 + length vals) (length vals)); [|lia].
  rewrite drop_0, firstn_all. reflexivity.
Qed.

Lemma window_length {A : Type} (sl : slice) (elems vals : list A) :
  window sl elems = Some vals -> length vals = sLen sl.
Proof.
  unfold window. destruct (Nat.leb_spec (sOffset sl + sLen sl) (length elems));
    [|discriminate].
  intros [= <-]. rewrite length_take, length_drop. lia.
Qed.

(** A configuration stands for the same value in every heap that agrees
    with the one it was made in. *)
Lemma configAt_agree (h h' : Heap) (p : ptr) (v : Types.RestorationConfig) :
  agreeBelow (length h) h h' ->
  configAt h p = Some v -> configAt h' p = Some v.
Proof.
  intros Hagree. unfold configAt.
  destruct (h !! p) as [ [ e | e | e | u | u | sn | c ] | ] eqn:Hp; try discriminate.
  rewrite (Hagree p (lookup_lt_Some _ _ _ Hp)), Hp.
  destruct (mInitialAdvertisePeerURLs c) as [sl|]; [|auto].
  unfold readStrings, hbind, load, hret, hpanic.
  destruct (h !! sArray sl) as [ [ elems | e | e | u | u | sn | c' ] | ] eqn:Harr; try discriminate.
  rewrite (Hagree _ (lookup_lt_Some _ _ _ Harr)), Harr.
  destruct (window sl elems); [|discriminate]. auto.
Qed.

Lemma lookup_tail0 {A : Type} (h t : list A) (a : A) :
  (h ++ a :: t) !! length h = Some a.
Proof. apply list_lookup_middle. reflexivity. Qed.

Lemma lookup_tail1 {A : Type} (h t : list A) (a b : A) :
  (h ++ a :: b :: t) !! S (length h) = Some b.
Proof.
  change (h ++ a :: b :: t) with (h ++ [a] ++ b :: t). rewrite app_assoc.
  apply list_lookup_middle. rewrite length_app. cbn. lia.
Qed.

Lemma insert_tail0 {A : Type} (h t : list A) (a x : A) :
  <[length h := x]> (h ++ a :: t) = h ++ x :: t.
Proof.
  rewrite <- (Nat.add_0_r (length h)) at 1. rewrite insert_app_r. reflexivity.
Qed.

Lemma insert_tail1 {A : Type} (h t : list A) (a b x : A) :
  <[S (length h) := x]> (h ++ a :: b :: t) = h ++ a :: x :: t.
Proof.
  replace (S (length h)) with (length h + 1)%nat by lia.
  rewrite insert_app_r. reflexivity.
Qed.

(** Reading a slice of strings leaves the heap as it is, and gives the
    same in a heap that has grown. *)
Lemma readStrings_inv (sl : option slice) (h h0 : Heap) (vals : list string) :
  readStrings sl h = Some (vals, h0) ->
  h0 = h /\ length vals = len sl /\
  forall t : Heap, readStrings sl (h ++ t) = Some (vals, h ++ t).
Proof.
  destruct sl as [sl|]; cbn [readStrings len].
  - unfold hbind, load, hret, hpanic.
    destruct (h !! sArray sl) as [ [ elems | e | e | u | u | sn | c ] | ] eqn:Harr;
      try discriminate.
    destruct (window sl elems) as [vals'|] eqn:Hw; [|discriminate].
    intros [= <- <-]. split; [reflexivity|].
    split; [exact (window_length _ _ _ Hw)|].
    intros t. rewrite (lookup_app_l_Some _ _ _ _ Harr), Hw. reflexivity.
  - unfold hret. intros [= <- <-]. auto.
Qed.

(** [DeepCopyInto] into a configuration that was just made. *)
Lemma RestorationConfig_DeepCopyInto_new (h : Heap) (c : ptr)
  (cv : RestorationConfigMem) (vals : list string) :
  h !! c = Some (ConfigCell cv) ->
  readStrings (mInitialAdvertisePeerURLs cv) h = Some (vals, h) ->
  RestorationConfig_DeepCopyInto c (length h) (h ++ [ConfigCell zeroConfig])
  = Some (tt,
          h ++ match mInitialAdvertisePeerURLs cv with
               | None => [ConfigCell cv]
               | Some src =>
                   [ConfigCell
                      (withPeerURLs cv (Some (mkSlice (S (length h)) 0 (sLen src))));
                    StringArray vals]
               end).
Proof.
  intros Hc Hread.
  assert (Hlt : (c < length h)%nat) by (eapply lookup_lt_Some; eauto).
  destruct (readStrings_inv _ _ _ _ Hread) as (_ & Hlen & Hgrown).
  unfold RestorationConfig_DeepCopyInto.
  rewrite (hbind_loadConfig c cv) by (apply lookup_app_l_Some; exact Hc).
  rewrite hbind_store by (rewrite length_app; cbn; lia).
  rewrite insert_tail0.
  rewrite (hbind_loadConfig c cv) by (apply lookup_app_l_Some; exact Hc).
  destruct (mInitialAdvertisePeerURLs cv) as [src|] eqn:Hurls; [|reflexivity].
  cbn [len] in Hlen.
  rewrite hbind_alloc, length_app, <- app_assoc. cbn [length app Nat.add].
  replace (length h + 1)%nat with (S (length h)) by lia.
  rewrite (hbind_loadConfig (length h) cv) by apply lookup_tail0.
  rewrite hbind_store by (rewrite length_app; cbn; lia).
  rewrite insert_tail0.
  rewrite (hbind_loadConfig (length h) _) by apply lookup_tail0.
  rewrite (hbind_loadConfig c cv) by (apply lookup_app_l_Some; exact Hc).
  cbn [withPeerURLs mInitialAdvertisePeerURLs]. rewrite Hurls.
  unfold copyStrings. unfold hbind at 1. rewrite Hgrown.
  cbn [sArray].
  rewrite (hbind_load (S (length h)) (StringArray (replicate (sLen src) "")))
    by apply lookup_tail1.
  rewrite store_eq by (rewrite length_app; cbn; lia).
  rewrite insert_tail1. unfold overwrite. cbn [sOffset sLen Nat.add].
  rewrite Hlen, Nat.min_id, take_0, <- Hlen, firstn_all, Hlen.
  rewrite drop_ge by (rewrite length_replicate; lia).
  rewrite app_nil_r. reflexivity.
Qed.

Lemma heap_tail0 (h t : Heap) (a : Cell) :
  (h ++ a :: t : Heap) !! (length h : ptr) = Some a.
Proof. apply lookup_tail0. Qed.

Lemma heap_tail1 (h t : Heap) (a b : Cell) :
  (h ++ a :: b :: t : Heap) !! (S (length h) : ptr) = Some b.
Proof. apply lookup_tail1. Qed.

Lemma heap_tail_later (h t : Heap) (a c : Cell) (q : ptr) :
  (length h < q)%nat ->
  t !! (q - S (length h))%nat = Some c ->
  (h ++ a :: t : Heap) !! q = Some c.
Proof.
  intros Hq Ht.
  pose proof (lookup_app_r h (a :: t) q ltac:(lia)) as E.
  replace (q - length h)%nat with (S (q - S (length h))) in E by lia.
  exact (eq_trans E Ht).
Qed.

Lemma agreeBelow_app (h t : Heap) : agreeBelow (length h) h (h ++ t).
Proof. intros p Hp. apply lookup_app_l. exact Hp. Qed.

(** X24.  [DeepCopy] of a configuration makes a new configuration that
    stands for the same value and shares no memory with the original: the
    cell of the copy and, when the slice of peer URLs is not nil, its array
    are new, a nil slice stays nil, nothing of the old heap is changed, and
    whatever is written later to the new cells, the original stands for
    the value it stood for. *)
Theorem RestorationConfig_DeepCopy_independent (h : Heap) (c : ptr)
  (v : Types.RestorationConfig) :
  configAt h c = Some v ->
  exists h' : Heap,
    RestorationConfig_DeepCopy (Some c) h = Some (Some (length h), h') /\
    configAt h' (length h) = Some v /\
    agreeBelow (length h) h h' /\
    match peerURLsAt h c with
    | None => peerURLsAt h' (length h) = None
    | Some src =>
        exists arr : ptr,
          (length h <= arr)%nat /\
          peerURLsAt h' (length h) = Some (mkSlice arr 0 (sLen src))
    end /\
    forall h'' : Heap, agreeBelow (length h) h h'' -> configAt h'' c = Some v.
Proof.
  intros Hv. pose proof Hv as Hv0. unfold configAt in Hv.
  destruct (h !! c) as [ [ e | e | e | u | u | sn | cv ] | ] eqn:Hc; try discriminate.
  destruct (readStrings (mInitialAdvertisePeerURLs cv) h) as [[vals h0]|] eqn:Hread;
    [|discriminate].
  destruct (readStrings_inv _ _ _ _ Hread) as (-> & Hlen & _).
  injection Hv as Hv.
  eexists. split.
  { unfold RestorationConfig_DeepCopy. rewrite hbind_alloc.
    unfold hbind at 1.
    rewrite (RestorationConfig_DeepCopyInto_new h c cv vals Hc Hread).
    reflexivity. }
  split.
  { unfold configAt. rewrite <- Hv.
    destruct (mInitialAdvertisePeerURLs cv) as [src|] eqn:Hurls.
    - rewrite heap_tail0. cbn [mInitialAdvertisePeerURLs withPeerURLs].
      unfold readStrings. cbn [sArray].
      rewrite (hbind_load (S (length h)) (StringArray vals)) by apply lookup_tail1.
      cbn [len] in Hlen. rewrite <- Hlen, window_whole. reflexivity.
    - rewrite heap_tail0, Hurls. destruct vals; [reflexivity | discriminate Hlen]. }
  split; [apply agreeBelow_app|].
  split.
  { unfold peerURLsAt. rewrite Hc.
    destruct (mInitialAdvertisePeerURLs cv) as [src|] eqn:Hurls.
    - exists (S (length h)). rewrite heap_tail0. cbn. split; [lia | reflexivity].
    - rewrite heap_tail0. exact Hurls. }
  intros h'' Hagree. exact (configAt_agree h h'' c v Hagree Hv0).
Qed.

Lemma withUser_same (u : URL) (user : option ptr) :
  withUser (withUser u user) (User u) = u.
Proof. destruct u. reflexivity. Qed.

(** What [DeepCopyURL] leaves in memory: the copy, and the [Userinfo] it
    has made and dropped. *)
Lemma DeepCopyURL_spec (h : Heap) (in_ : ptr) (u : URL) :
  h !! in_ = Some (URLCell u) ->
  DeepCopyURL in_ h
  = Some (length h,
          h ++ URLCell u :: match User u with
                            | None => []
                            | Some _ => [UserinfoCell zeroUserinfo]
                            end).
Proof.
  intros Hin. unfold DeepCopyURL.
  rewrite hbind_alloc.
  rewrite (hbind_loadURL in_ u) by (apply lookup_app_l_Some; exact Hin).
  rewrite hbind_store by (rewrite length_app; cbn; lia).
  rewrite insert_tail0.
  rewrite (hbind_loadURL in_ u) by (apply lookup_app_l_Some; exact Hin).
  destruct (User u) as [user|] eqn:Huser; [|reflexivity].
  rewrite hbind_alloc, <- app_assoc. cbn [app].
  rewrite (hbind_loadURL (length h) u) by apply lookup_tail0.
  rewrite hbind_store by (rewrite length_app; cbn; lia).
  rewrite insert_tail0.
  rewrite (hbind_loadURL in_ u) by (apply lookup_app_l_Some; exact Hin).
  rewrite (hbind_loadURL (length h) _) by apply lookup_tail0.
  rewrite hbind_store by (rewrite length_app; cbn; lia).
  rewrite insert_tail0, withUser_same. reflexivity.
Qed.

(** X25.  [DeepCopyURL] makes a new URL with the values of the original and
    with the very pointer [User] of the original: the [Userinfo] is shared
    by the two, not copied, and the one [DeepCopyURL] makes is dropped.
    Nothing of the old heap is changed. *)
Theorem DeepCopyURL_shares_user (h : Heap) (in_ : ptr) (u : URL) :
  h !! in_ = Some (URLCell u) ->
  exists h' : Heap,
    DeepCopyURL in_ h = Some (length h, h') /\
    h' !! length h = Some (URLCell u) /\
    (forall (user : ptr) (info : Userinfo),
        User u = Some user -> h !! user = Some (UserinfoCell info) ->
        h' !! user = Some (UserinfoCell info)) /\
    agreeBelow (length h) h h'.
Proof.
  intros Hin. eexists. split; [apply (DeepCopyURL_spec h in_ u Hin)|].
  split; [apply lookup_tail0|].
  split; [|apply agreeBelow_app].
  intros user info _ Hinfo. apply lookup_app_l_Some. exact Hinfo.
Qed.

(** Reading a slice of URLs, or of snapshot pointers. *)
Lemma readURLs_inv (sl : option slice) (h h0 : Heap) (vals : list URL) :
  readURLs sl h = Some (vals, h0) ->
  h0 = h /\ length vals = len sl /\
  forall t : Heap, readURLs sl (h ++ t) = Some (vals, h ++ t).
Proof.
  destruct sl as [sl|]; cbn [readURLs len].
  - unfold hbind, load, hret, hpanic.
    destruct (h !! sArray sl) as [ [ e | elems | e | u | u | sn | c ] | ] eqn:Harr;
      try discriminate.
    destruct (window sl elems) as [vals'|] eqn:Hw; [|discriminate].
    intros [= <- <-]. split; [reflexivity|].
    split; [exact (window_length _ _ _ Hw)|].
    intros t. rewrite (lookup_app_l_Some _ _ _ _ Harr), Hw. reflexivity.
  - unfold hret. intros [= <- <-]. auto.
Qed.

Lemma readSnapshotPtrs_inv (sl : option slice) (h h0 : Heap)
  (vals : list (option ptr)) :
  readSnapshotPtrs sl h = Some (vals, h0) ->
  h0 = h /\ length vals = len sl /\
  forall t : Heap, readSnapshotPtrs sl (h ++ t) = Some (vals, h ++ t).
Proof.
  destruct sl as [sl|]; cbn [readSnapshotPtrs len].
  - unfold hbind, load, hret, hpanic.
    destruct (h !! sArray sl) as [ [ e | e | elems | u | u | sn | c ] | ] eqn:Harr;
      try discriminate.
    destruct (window sl elems) as [vals'|] eqn:Hw; [|discriminate].
    intros [= <- <-]. split; [reflexivity|].
    split; [exact (window_length _ _ _ Hw)|].
    intros t. rewrite (lookup_app_l_Some _ _ _ _ Harr), Hw. reflexivity.
  - unfold hret. intros [= <- <-]. auto.
Qed.

Lemma setURL_eq (out : slice) (i : nat) (v : URL) (elems : list URL) (h : Heap) :
  h !! sArray out = Some (URLArray elems) ->
  (i < sLen out)%nat -> (sOffset out + i < length elems)%nat ->
  setURL out i v h
  = Some (tt, <[(sArray out : nat) :=
                  URLArray (<[(sOffset out + i)%nat := v]> elems)]> (h : list Cell)).
Proof.
  intros Harr Hi Hoff. unfold setURL. rewrite (hbind_load _ _ _ _ Harr).
  destruct (Nat.ltb_spec i (sLen out)) as [_ | Hbad]; [|lia].
  destruct (Nat.ltb_spec (sOffset out + i) (length elems)) as [_ | Hbad]; [|lia].
  cbn [andb]. apply store_eq. eapply lookup_lt_Some; eauto.
Qed.

Lemma setSnapshotPtr_eq (out : slice) (i : nat) (v : option ptr)
  (elems : list (option ptr)) (h : Heap) :
  h !! sArray out = Some (SnapshotPtrArray elems) ->
  (i < sLen out)%nat -> (sOffset out + i < length elems)%nat ->
  setSnapshotPtr out i v h
  = Some (tt, <[(sArray out : nat) :=
                  SnapshotPtrArray (<[(sOffset out + i)%nat := v]> elems)]>
                (h : list Cell)).
Proof.
  intros Harr Hi Hoff. unfold setSnapshotPtr. rewrite (hbind_load _ _ _ _ Harr).
  destruct (Nat.ltb_spec i (sLen out)) as [_ | Hbad]; [|lia].
  destruct (Nat.ltb_spec (sOffset out + i) (length elems)) as [_ | Hbad]; [|lia].
  cbn [andb]. apply store_eq. eapply lookup_lt_Some; eauto.
Qed.

Lemma insert_done {A : Type} (done rest : list A) (x y : A) :
  <[length done := y]> (done ++ x :: rest) = done ++ y :: rest.
Proof. apply insert_tail0. Qed.

(** The loop of [DeepCopyURLs]: the array of the copy is filled from index
    [i] on; what is made on the way is left behind the array. *)
Lemma DeepCopyURLs_range_spec (h : Heap) (n : nat) (elems : list URL) :
  forall (i : nat) (done : list URL) (garbage : Heap),
    length done = i ->
    (i + length elems = n)%nat ->
    exists garbage' : Heap,
      DeepCopyURLs_range (mkSlice (length h) 0 n) i elems
        (h ++ URLArray (done ++ replicate (length elems) zeroURL) :: garbage)
      = Some (tt, h ++ URLArray (done ++ elems) :: garbage').
Proof.
  induction elems as [|u elems IH]; intros i done garbage Hdone Hn;
    cbn [DeepCopyURLs_range length replicate].
  - exists garbage. reflexivity.
  - set (A := done ++ zeroURL :: replicate (length elems) zeroURL).
    rewrite hbind_alloc.
    set (g1 := (h ++ URLArray A :: garbage) ++ [URLCell u]).
    assert (Hpu : g1 !! length (h ++ URLArray A :: garbage) = Some (URLCell u))
      by apply lookup_tail0.
    unfold hbind at 1.
    rewrite (DeepCopyURL_spec g1 _ u Hpu).
    set (extra := match User u with
                  | Some _ => [UserinfoCell zeroUserinfo]
                  | None => []
                  end).
    rewrite (hbind_loadURL (length g1) u) by apply lookup_tail0.
    assert (Hshape : g1 ++ URLCell u :: extra
                     = h ++ URLArray A :: (garbage ++ URLCell u :: URLCell u :: extra)).
    { unfold g1. rewrite <- !app_assoc. reflexivity. }
    rewrite Hshape.
    assert (HlenA : length A = (i + S (length elems))%nat).
    { unfold A. rewrite length_app. cbn [length]. rewrite length_replicate. lia. }
    cbn [length] in Hn.
    unfold hbind at 1.
    rewrite (setURL_eq (mkSlice (length h) 0 n) i u A)
      by (cbn [sArray sOffset sLen]; first [apply lookup_tail0 | lia]).
    cbn [sArray sOffset Nat.add]. rewrite insert_tail0.
    unfold A. rewrite <- Hdone, insert_done.
    replace (done ++ u :: replicate (length elems) zeroURL)
      with ((done ++ [u]) ++ replicate (length elems) zeroURL)
      by (rewrite <- app_assoc; reflexivity).
    destruct (IH (S i) (done ++ [u])
                (garbage ++ URLCell u :: URLCell u :: extra))
      as (garbage' & Hrun); [rewrite length_app; cbn; lia | lia |].
    rewrite Hdone, Hrun. exists garbage'.
    rewrite <- app_assoc. reflexivity.
Qed.

(** X26.  [DeepCopyURLs] makes a new array, never nil, with the URLs of the
    original in their order, each with the pointer [User] of the original;
    nothing of the old heap is changed. *)
Theorem DeepCopyURLs_new_array (h : Heap) (in_ : option slice) (elems : list URL) :
  urlsAt h in_ = Some elems ->
  exists h' : Heap,
    DeepCopyURLs in_ h = Some (Some (mkSlice (length h) 0 (len in_)), h') /\
    urlsAt h' (Some (mkSlice (length h) 0 (len in_))) = Some elems /\
    agreeBelow (length h) h h'.
Proof.
  unfold urlsAt. intros Hread.
  destruct (readURLs in_ h) as [[vals h0]|] eqn:Hin; [|discriminate].
  injection Hread as ->.
  destruct (readURLs_inv _ _ _ _ Hin) as (-> & Hlen & Hgrown).
  destruct (DeepCopyURLs_range_spec h (len in_) elems 0 [] [] eq_refl
              ltac:(cbn; lia)) as (garbage & Hrun).
  cbn [app] in Hrun.
  exists (h ++ URLArray elems :: garbage).
  split.
  { unfold DeepCopyURLs. rewrite hbind_alloc. unfold hbind at 1.
    rewrite Hgrown. unfold hbind at 1. rewrite Hlen in Hrun.
    rewrite Hrun. reflexivity. }
  split; [|apply agreeBelow_app].
  unfold readURLs. cbn [sArray].
  rewrite (hbind_load (length h) (URLArray elems)) by apply lookup_tail0.
  rewrite <- Hlen, window_whole. reflexivity.
Qed.

(** The loop of [DeepCopySnapList]: every element that is not nil gets a
    cell of its own, made behind the array in the order of the elements. *)
Lemma DeepCopySnapList_range_spec (h : Heap) (n : nat) (elems : list (option ptr)) :
  (forall p : ptr, Some p ∈ elems -> exists snap, h !! p = Some (SnapshotCell snap)) ->
  forall (i : nat) (done : list (option ptr)) (garbage : Heap),
    length done = i ->
    (i + length elems = n)%nat ->
    exists (outs : list (option ptr)) (extra : Heap),
      DeepCopySnapList_range (mkSlice (length h) 0 n) i elems
        (h ++ SnapshotPtrArray (done ++ replicate (length elems) None) :: garbage)
      = Some (tt, h ++ SnapshotPtrArray (done ++ outs) :: garbage ++ extra) /\
      length outs = length elems /\
      (forall j : nat, elems !! j = Some None -> outs !! j = Some None) /\
      (forall (j : nat) (p : ptr), elems !! j = Some (Some p) ->
         exists (q : ptr) (snap : Snapshot),
           outs !! j = Some (Some q) /\
           h !! p = Some (SnapshotCell snap) /\
           (garbage ++ extra) !! (q - S (length h))%nat = Some (SnapshotCell snap)) /\
      (forall (j1 j2 : nat) (q1 q2 : ptr),
         (j1 < j2)%nat -> outs !! j1 = Some (Some q1) ->
         outs !! j2 = Some (Some q2) -> (q1 < q2)%nat) /\
      (forall (j : nat) (q : ptr),
         outs !! j = Some (Some q) -> (S (length h) + length garbage <= q)%nat).
Proof.
  induction elems as [|v elems IH]; intros Hvalid i done garbage Hdone Hn;
    cbn [DeepCopySnapList_range length replicate].
  - exists [], []. rewrite !app_nil_r.
    repeat split; try reflexivity; intros; discriminate.
  - assert (Hvalid' : forall p : ptr, Some p ∈ elems ->
                        exists snap, h !! p = Some (SnapshotCell snap)).
    { intros p Hp. apply Hvalid. apply list_elem_of_further. exact Hp. }
    cbn [length] in Hn.
    set (A := done ++ None :: replicate (length elems) None).
    assert (HlenA : length A = (i + S (length elems))%nat).
    { unfold A. rewrite length_app. cbn [length]. rewrite length_replicate. lia. }
    destruct v as [p|].
    + destruct (Hvalid p (list_elem_of_here _ _)) as (snap & Hp).
      unfold hbind at 1.
      rewrite (hbind_loadSnapshot p snap) by (apply lookup_app_l_Some; exact Hp).
      rewrite hbind_alloc.
      set (q := length (h ++ SnapshotPtrArray A :: garbage)).
      assert (Hq : q = (S (length h) + length garbage)%nat).
      { unfold q. rewrite length_app. cbn [length]. lia. }
      replace ((h ++ SnapshotPtrArray A :: garbage) ++ [SnapshotCell snap])
        with (h ++ SnapshotPtrArray A :: (garbage ++ [SnapshotCell snap]))
        by (rewrite <- app_assoc; reflexivity).
      rewrite (setSnapshotPtr_eq (mkSlice (length h) 0 n) i (Some q) A)
        by (cbn [sArray sOffset sLen]; first [apply lookup_tail0 | lia]).
      cbn [sArray sOffset Nat.add]. rewrite insert_tail0.
      unfold A. rewrite <- Hdone, insert_done.
      destruct (IH Hvalid' (S i) (done ++ [Some q]) (garbage ++ [SnapshotCell snap]))
        as (outs & extra & Hrun & Hlen & Hnil & Hcopy & Hmono & Hlow);
        [rewrite length_app; cbn; lia | lia |].
      rewrite length_app in Hlow. cbn [length] in Hlow.
      exists (Some q :: outs), (SnapshotCell snap :: extra).
      rewrite Hdone. rewrite <- !app_assoc in Hrun. cbn [app] in Hrun.
      split; [exact Hrun|].
      split; [cbn [length]; lia|].
      split; [intros [|j] Hj; [discriminate | exact (Hnil j Hj)]|].
      split.
      { intros [|j] p' Hj.
        - injection Hj as <-. exists q, snap.
          split; [reflexivity|]. split; [exact Hp|].
          replace (q - S (length h))%nat with (length garbage) by lia.
          apply lookup_tail0.
        - destruct (Hcopy j p' Hj) as (q' & snap' & Hout & Hp' & Hcell).
          exists q', snap'. rewrite <- app_assoc in Hcell. auto. }
      split.
      { intros [|j1] [|j2] q1 q2 Hlt H1 H2; try lia.
        - injection H1 as <-. specialize (Hlow j2 q2 H2). lia.
        - apply (Hmono j1 j2 q1 q2); [lia | exact H1 | exact H2]. }
      intros [|j] q' Hj.
      * injection Hj as <-. lia.
      * specialize (Hlow j q' Hj). lia.
    + unfold hbind at 1. unfold hret at 1.
      unfold A.
      destruct (IH Hvalid' (S i) (done ++ [None]) garbage)
        as (outs & extra & Hrun & Hlen & Hnil & Hcopy & Hmono & Hlow);
        [rewrite length_app; cbn; lia | lia |].
      exists (None :: outs), extra.
      rewrite <- !app_assoc in Hrun. cbn [app] in Hrun.
      split; [exact Hrun|].
      split; [cbn [length]; lia|].
      split; [intros [|j] Hj; [reflexivity | exact (Hnil j Hj)]|].
      split.
      { intros [|j] p' Hj; [discriminate|]. exact (Hcopy j p' Hj). }
      split.
      { intros [|j1] [|j2] q1 q2 Hlt H1 H2; try lia; try discriminate.
        apply (Hmono j1 j2 q1 q2); [lia | exact H1 | exact H2]. }
      intros [|j] q' Hj; [discriminate|]. exact (Hlow j q' Hj).
Qed.

(** X27.  [DeepCopySnapList] makes a new array, never nil, of the length of
    the original.  A nil element stays nil; every other element gets a new
    snapshot of its own with the value of the original's, also where two
    elements of the original are one pointer.  Nothing of the old heap is
    changed. *)
Theorem DeepCopySnapList_new_snapshots (h : Heap) (in_ : option slice)
  (elems : list (option ptr)) :
  snapshotPtrsAt h in_ = Some elems ->
  (forall p : ptr, Some p ∈ elems -> snapshotAt h p <> None) ->
  exists (h' : Heap) (outs : list (option ptr)),
    DeepCopySnapList in_ h = Some (Some (mkSlice (length h) 0 (len in_)), h') /\
    snapshotPtrsAt h' (Some (mkSlice (length h) 0 (len in_))) = Some outs /\
    length outs = length elems /\
    (forall j : nat, elems !! j = Some None -> outs !! j = Some None) /\
    (forall (j : nat) (p : ptr), elems !! j = Some (Some p) ->
       exists q : ptr,
         outs !! j = Some (Some q) /\ (length h < q)%nat /\
         snapshotAt h' q = snapshotAt h p) /\
    (forall (j1 j2 : nat) (q1 q2 : ptr),
       (j1 < j2)%nat -> outs !! j1 = Some (Some q1) ->
       outs !! j2 = Some (Some q2) -> q1 <> q2) /\
    agreeBelow (length h) h h'.
Proof.
  unfold snapshotPtrsAt. intros Hread Hvalid.
  destruct (readSnapshotPtrs in_ h) as [[vals h0]|] eqn:Hin; [|discriminate].
  injection Hread as ->.
  destruct (readSnapshotPtrs_inv _ _ _ _ Hin) as (-> & Hlen & Hgrown).
  assert (Hcells : forall p : ptr, Some p ∈ elems ->
                     exists snap, h !! p = Some (SnapshotCell snap)).
  { intros p Hp. specialize (Hvalid p Hp). unfold snapshotAt in Hvalid.
    destruct (h !! p) as [ [ e | e | e | u | u | sn | c ] | ];
      try (exfalso; apply Hvalid; reflexivity).
    exists sn. reflexivity. }
  destruct (DeepCopySnapList_range_spec h (len in_) elems Hcells 0 [] [] eq_refl
              ltac:(cbn; lia))
    as (outs & extra & Hrun & Hlenouts & Hnil & Hcopy & Hmono & Hlow).
  cbn [app] in Hrun, Hcopy.
  exists (h ++ SnapshotPtrArray outs :: extra), outs.
  split.
  { unfold DeepCopySnapList. rewrite hbind_alloc. unfold hbind at 1.
    rewrite Hgrown. unfold hbind at 1. rewrite Hlen in Hrun.
    rewrite Hrun. reflexivity. }
  split.
  { unfold readSnapshotPtrs. cbn [sArray].
    rewrite (hbind_load (length h) (SnapshotPtrArray outs)) by apply lookup_tail0.
    rewrite <- Hlen, <- Hlenouts, window_whole. reflexivity. }
  split; [exact Hlenouts|].
  split; [exact Hnil|].
  split.
  { intros j p Hj. destruct (Hcopy j p Hj) as (q & snap & Hout & Hp & Hcell).
    specialize (Hlow j q Hout). cbn [length] in Hlow.
    exists q. split; [exact Hout|]. split; [lia|].
    unfold snapshotAt. rewrite Hp.
    rewrite (heap_tail_later h extra _ (SnapshotCell snap) q) by (lia || exact Hcell).
    reflexivity. }
  split; [|apply agreeBelow_app].
  intros j1 j2 q1 q2 Hlt H1 H2. specialize (Hmono j1 j2 q1 q2 Hlt H1 H2). lia.
Qed.

End MemoryFacts.

(* ----------------------------------------------------------------- *)
(** ** The further properties on the simulated world *)

Section MoreExamples.

Import Sample.

(** The stand-in for [path.Clean] gives the same on a cleaned path. *)
Lemma sample_path_Clean_idempotent (p : string) :
  Types.path_Clean (UrlLib := sample_url_lib)
    (Types.path_Clean (UrlLib := sample_url_lib) p)
  = Types.path_Clean (UrlLib := sample_url_lib) p.
Proof.
  cbn. destruct (String.eqb p "") eqn:Hp; [reflexivity | rewrite Hp; reflexivity].
Qed.

Lemma Validate_idempotent_witness :
  Types.Validate (L := sample_url_lib)
    (fst (Types.Validate (L := sample_url_lib) sample_config))
  = (fst (Types.Validate (L := sample_url_lib) sample_config), None).
Proof.
  apply (Validate_idempotent (L := sample_url_lib) sample_config).
  - exact sample_path_Clean_idempotent.
  - reflexivity.
Defined.

Lemma NewRestorationConfig_valid_witness :
  snd (Types.Validate (L := sample_url_lib) Types.NewRestorationConfig) = None /\
  Types.DataDir (fst (Types.Validate (L := sample_url_lib) Types.NewRestorationConfig))
  = Types.path_Clean (UrlLib := sample_url_lib) "default.etcd" /\
  Types.TempSnapshotsDir
    (fst (Types.Validate (L := sample_url_lib) Types.NewRestorationConfig))
  = Types.path_Clean (UrlLib := sample_url_lib) "default.restoration.tmp".
Proof.
  apply (NewRestorationConfig_valid (L := sample_url_lib)); reflexivity.
Defined.

Lemma ConsistentIndex_wraps_witness :
  Types.ConsistentIndex (-1) = 2 ^ 64 - 1.
Proof.
  rewrite (ConsistentIndex_wraps (-1)) by lia. reflexivity.
Defined.

Lemma readSnapshotContents_round_trip_witness :
  readSnapshotContentsFromReadCloser
    (mkReadCloser (sample_blob [Byte.x07; Byte.x08]) None None)
    (sample_snapshot "d0" 8)
  = inr [Byte.x07; Byte.x08].
Proof.
  apply (readSnapshotContents_round_trip (G := sample_lib)
           (mkReadCloser (sample_blob [Byte.x07; Byte.x08]) None None)
           (mkReadCloser (sample_blob [Byte.x07; Byte.x08]) None None)
           (sample_snapshot "d0" 8) false "" [Byte.x07; Byte.x08]);
    reflexivity.
Defined.

Lemma applyEventsToEtcd_error_prefix_witness :
  exists (txns : list (list Op)) (pending : list Op) (k : nat),
    (k <= 2)%nat /\
    map Some (concat txns ++ pending)
    = map opOfEvent (take k [sample_put Byte.x61 5; sample_other Byte.x63 6]) /\
    (trace (snd (applyEventsToEtcd [sample_put Byte.x61 5; sample_other Byte.x63 6]
                   (sim_at 4 [])))
     = map okCommit txns ++ [ObsTxnCommit pending (Some ErrUnexpectedEventType)] \/
     (trace (snd (applyEventsToEtcd [sample_put Byte.x61 5; sample_other Byte.x63 6]
                    (sim_at 4 [])))
      = map okCommit txns /\
      ErrUnexpectedEventType = ErrUnexpectedEventType /\
      exists e, [sample_put Byte.x61 5; sample_other Byte.x63 6] !! k = Some e /\
                opOfEvent e = None)).
Proof.
  assert (Hrun : applyEventsToEtcd [sample_put Byte.x61 5; sample_other Byte.x63 6]
                   (sim_at 4 [])
                 = (Ok (Some ErrUnexpectedEventType),
                    snd (applyEventsToEtcd
                           [sample_put Byte.x61 5; sample_other Byte.x63 6]
                           (sim_at 4 []))))
    by (vm_compute; reflexivity).
  exact (applyEventsToEtcd_error_prefix _ _ _ _ Hrun).
Defined.

Lemma applyFirstDeltaSnapshot_skips_overlap_witness :
  applyFirstDeltaSnapshot (sample_snapshot "d0" 10)
    (sim_at 10 [("d0", sample_blob [Byte.x05])])
  = (Ok None,
     mkState (mkSim 10 [("d0", sample_blob [Byte.x05])] false 0 true)
       [ObsFetch (sample_snapshot "d0" 10) None; ObsGet "" true (inr 10)]).
Proof.
  apply (applyFirstDeltaSnapshot_skips_overlap (G := sample_lib) (E := sample_env)
           (sample_snapshot "d0" 10) (sim_at 10 [("d0", sample_blob [Byte.x05])])
           (mkReadCloser (sample_blob [Byte.x05]) None None)
           (mkSim 10 [("d0", sample_blob [Byte.x05])] false 0 true)
           (mkSim 10 [("d0", sample_blob [Byte.x05])] false 0 true)
           [Byte.x05] [sample_event Byte.x05]);
    reflexivity.
Defined.

Lemma applyFirstDeltaSnapshot_applies_newer_witness :
  exists (j : nat) (e : Event) (txns : list (list Op)),
    map sample_event [Byte.x05; Byte.x06; Byte.x07] !! j = Some e /\
    revOf e > 5 /\
    (forall (i : nat) (ei : Event),
        (i < j)%nat ->
        map sample_event [Byte.x05; Byte.x06; Byte.x07] !! i = Some ei ->
        revOf ei <= 5) /\
    trace (snd (applyFirstDeltaSnapshot (sample_snapshot "d0" 7)
                  (sim_at 5 [("d0", sample_blob [Byte.x05; Byte.x06; Byte.x07])])))
    = [] ++ [ObsFetch (sample_snapshot "d0" 7) None; ObsGet "" true (inr 5)]
         ++ map okCommit txns /\
    map Some (concat txns)
    = map opOfEvent (drop j (map sample_event [Byte.x05; Byte.x06; Byte.x07])).
Proof.
  apply (applyFirstDeltaSnapshot_applies_newer (G := sample_lib) (E := sample_env)
           (sample_snapshot "d0" 7)
           (sim_at 5 [("d0", sample_blob [Byte.x05; Byte.x06; Byte.x07])])
           (snd (applyFirstDeltaSnapshot (sample_snapshot "d0" 7)
                   (sim_at 5 [("d0", sample_blob [Byte.x05; Byte.x06; Byte.x07])])))
           (mkReadCloser (sample_blob [Byte.x05; Byte.x06; Byte.x07]) None None)
           (mkSim 5 [("d0", sample_blob [Byte.x05; Byte.x06; Byte.x07])] false 0 true)
           (mkSim 5 [("d0", sample_blob [Byte.x05; Byte.x06; Byte.x07])] false 0 true)
           [Byte.x05; Byte.x06; Byte.x07]
           (map sample_event [Byte.x05; Byte.x06; Byte.x07]) 5).
  - reflexivity.
  - reflexivity.
  - reflexivity.
  - reflexivity.
  - cbn. lia.
  - apply Exists_cons_tl, Exists_cons_hd. reflexivity.
  - vm_compute. reflexivity.
Defined.

Lemma applyFirstDeltaSnapshot_commits_verified_witness :
  exists tr : list Obs,
    trace (snd (applyFirstDeltaSnapshot (sample_snapshot "d0" 7)
                  (sim_at 5 [("d0", sample_blob [Byte.x05; Byte.x06; Byte.x07])])))
    = [] ++ tr /\
    (Forall (fun o => ~ isCommit o) tr \/
     exists (rc rc' : ReadCloser) (w1 : Sim) (wasCompressed : bool)
            (compressionPolicy : string) (data : list byte)
            (events : list Event),
       Store_Fetch (sample_snapshot "d0" 7)
         (mkSim 5 [("d0", sample_blob [Byte.x05; Byte.x06; Byte.x07])] false 0 true)
       = (inr rc, w1) /\
       getNormalizedSnapshotReadCloser rc (sample_snapshot "d0" 7)
       = (rc', wasCompressed, compressionPolicy, None) /\
       rcBytes rc' = data ++ sha256_Sum data /\
       json_Unmarshal data = inr events /\
       Forall (fun o => isCommit o -> commitsFrom [] events o) tr).
Proof.
  exact (applyFirstDeltaSnapshot_commits_verified (G := sample_lib) (E := sample_env)
           (sample_snapshot "d0" 7)
           (sim_at 5 [("d0", sample_blob [Byte.x05; Byte.x06; Byte.x07])])
           _ _ (surjective_pairing _)).
Defined.

Lemma fetchSnaps_reports_every_delta_witness :
  exists (tr : list Obs) (errors : list nat),
    trace (snd (fetchSnaps "tmp" sample_work (sim_at 10 (sample_files 2))))
    = [] ++ tr /\
    length errors = length (fetched sample_work) /\
    Forall (fun n => (n <= 2)%nat) errors /\
    snapLocationsSent tr
    = map (snapTempFilePathOf "tmp") (fetched sample_work) /\
    applierInfosSent tr
    = concat (zip_with
                (fun fetcherInfo n =>
                   replicate n sentinelApplierInfo
                   ++ [applierInfoOf "tmp" fetcherInfo])
                (fetched sample_work) errors) /\
    length (errChSends tr) = sum_list errors.
Proof.
  assert (Hrun : fetchSnaps "tmp" sample_work (sim_at 10 (sample_files 2))
                 = (Ok tt,
                    snd (fetchSnaps "tmp" sample_work (sim_at 10 (sample_files 2)))))
    by (vm_compute; reflexivity).
  exact (fetchSnaps_reports_every_delta (G := sample_lib) (E := sample_env)
           _ _ _ _ Hrun).
Defined.

Lemma HandleAlarm_answers_every_alarm_witness :
  exists results : list (option error),
    length results = length (alarmsBeforeStop sample_alarms) /\
    trace (snd (HandleAlarm sample_alarms (sim_at 0 [])))
    = [] ++ concat (zip_with disarmRound (alarmsBeforeStop sample_alarms) results) /\
    fst (HandleAlarm sample_alarms (sim_at 0 [])) = Ok (toldToStop sample_alarms).
Proof.
  exact (HandleAlarm_answers_every_alarm (E := sample_env)
           sample_alarms (sim_at 0 []) _ _ (surjective_pairing _)).
Defined.

Lemma Restore_removes_temp_dir_witness :
  exists tr : list Obs,
    trace (snd (Restore sample_pipeline sample_restore_options true
                  sample_restore_world))
    = tr ++ [ObsRemoveAll "default.restoration.tmp"].
Proof.
  exact (Restore_removes_temp_dir (G := sample_lib) (E := sample_env)
           sample_pipeline sample_restore_options true sample_restore_world
           _ _ (surjective_pairing _)).
Defined.

Lemma restoreFromBaseSnapshot_nil_witness :
  ("base" = "" /\
   snd (restoreFromBaseSnapshot sample_restore_options sample_restore_world)
   = sample_restore_world) \/
  exists db : string,
    trace (snd (restoreFromBaseSnapshot sample_restore_options
                  sample_restore_world))
    = [] ++ [ObsFetch (sample_snapshot "base" 5) None;
             ObsCreateTemp "default.restoration.tmp" "snapshot-*.db";
             ObsCopy db;
             ObsSnapshotRestore (restoreCfgOf sample_restore_options db) None;
             ObsRemove db].
Proof.
  assert (Hrun : restoreFromBaseSnapshot sample_restore_options sample_restore_world
                 = (Ok None,
                    snd (restoreFromBaseSnapshot sample_restore_options
                           sample_restore_world)))
    by (vm_compute; reflexivity).
  exact (restoreFromBaseSnapshot_nil (G := sample_lib) (E := sample_env)
           _ _ _ Hrun).
Defined.

Lemma Restore_base_failure_witness :
  exists tr : list Obs,
    Restore sample_pipeline sample_restore_options true (sim_at 5 [])
    = (Ok (None,
           Some (ErrRestoreFromBase (ErrFetchBase (ErrExternal "no such snapshot")))),
       mkState (mkSim 5 [] false 0 true)
         ([] ++ tr ++ [ObsRemoveAll "default.restoration.tmp"])) /\
    etcdStarts tr = [].
Proof.
  apply (Restore_base_failure (G := sample_lib) (E := sample_env)
           sample_pipeline sample_restore_options true (sim_at 5 [])
           (mkState (mkSim 5 [] false 0 true)
              [ObsMkdirAll "default.restoration.tmp" None;
               ObsFetch (sample_snapshot "base" 5)
                 (Some (ErrExternal "no such snapshot"))])
           (mkSim 5 [] false 0 true)
           (ErrFetchBase (ErrExternal "no such snapshot"))).
  - reflexivity.
  - vm_compute. reflexivity.
Defined.

Lemma applyDeltaSnapshots_closes_clients_witness :
  exists tr : list Obs,
    trace (snd (applyDeltaSnapshots sample_pipeline ["localhost:2379"]
                  sample_restore_options sample_restore_world))
    = tr ++ [ObsCloseClient "Maintenance"; ObsCloseClient "KV"].
Proof.
  exact (applyDeltaSnapshots_closes_clients (G := sample_lib) (E := sample_env)
           sample_pipeline ["localhost:2379"] sample_restore_options
           sample_restore_world _ _ (surjective_pairing _)).
Defined.

Lemma applyDeltaSnapshots_single_delta_witness :
  applyDeltaSnapshots sample_pipeline ["localhost:2379"] sample_restore_options
    sample_restore_world
  = applyDeltaSnapshots sample_failing_pipeline ["localhost:2379"]
      sample_restore_options sample_restore_world.
Proof.
  apply (applyDeltaSnapshots_single_delta (G := sample_lib) (E := sample_env)
           sample_pipeline sample_failing_pipeline).
  reflexivity.
Defined.

Lemma Restore_returns_started_etcd_witness :
  Some (mkEtcd ["localhost:2379"]) = Some (mkEtcd ["localhost:2379"]) /\
  (@None error <> None -> @None error = None).
Proof.
  apply (Restore_returns_started_etcd (G := sample_lib) (E := sample_env)
           sample_pipeline sample_restore_options true sample_restore_world
           (snd (restoreFromBaseSnapshot sample_restore_options
                   (mkState (world sample_restore_world)
                      [ObsMkdirAll "default.restoration.tmp" None])))
           (snd (Restore sample_pipeline sample_restore_options true
                   sample_restore_world))
           (world sample_restore_world)
           (world sample_restore_world)).
  - reflexivity.
  - vm_compute. reflexivity.
  - discriminate.
  - vm_compute. reflexivity.
  - vm_compute. reflexivity.
Defined.

Lemma RestoreAndStopEtcd_stops_started_etcd_witness :
  RestoreAndStopEtcd sample_pipeline sample_restore_options true
    sample_restore_world
  = (Ok None,
     mkState
       (Etcd_Close (mkEtcd ["localhost:2379"])
          (Server_Stop (mkEtcd ["localhost:2379"])
             (world (snd (Restore sample_pipeline sample_restore_options true
                            sample_restore_world)))))
       (trace (snd (Restore sample_pipeline sample_restore_options true
                      sample_restore_world)))).
Proof.
  apply (RestoreAndStopEtcd_stops_started_etcd (G := sample_lib) (E := sample_env)
           (D := sample_embedded_etcd)
           sample_pipeline sample_restore_options true sample_restore_world
           (snd (restoreFromBaseSnapshot sample_restore_options
                   (mkState (world sample_restore_world)
                      [ObsMkdirAll "default.restoration.tmp" None])))
           (snd (Restore sample_pipeline sample_restore_options true
                   sample_restore_world))
           (world sample_restore_world)
           (world sample_restore_world)
           (Some (mkEtcd ["localhost:2379"])) (Some (mkEtcd ["localhost:2379"]))
           None None).
  - reflexivity.
  - vm_compute. reflexivity.
  - discriminate.
  - vm_compute. reflexivity.
  - vm_compute. reflexivity.
Defined.

Lemma applySnaps_removes_applied_files_witness :
  exists tr : list Obs,
    trace (snd (sample_applySnaps 2 [sample_message 0; sample_message 1]))
    = [] ++ tr /\
    (filesRemoved tr = filesOpened tr \/
     (exists p, filesOpened tr = filesRemoved tr ++ [p]) /\
     forall st : applierStatus,
       fst (sample_applySnaps 2 [sample_message 0; sample_message 1]) = Ok st ->
       st = Returned /\ exists err, errChSends tr = [Some err]).
Proof.
  exact (applySnaps_removes_applied_files (G := sample_lib) (E := sample_env)
           (sample_remaining 2) ["localhost:2379"] sample_quota
           [sample_message 0; sample_message 1] (sim_at 10 (sample_files 2))
           _ _ (surjective_pairing _)).
Defined.

Lemma applySnaps_body_commits_verified_witness :
  exists tr : list Obs,
    trace (snd (applySnaps_body (sample_remaining 2) ["localhost:2379"]
                  sample_quota 0 (sample_snapshot "p0" 11) "p0"
                  (mkApplier [] 0 0 false) (sim_at 10 (sample_files 2))))
    = [] ++ tr /\
    (Forall (fun o => ~ isCommit o) tr \/
     exists (file rc' : ReadCloser) (w1 : Sim) (wasCompressed : bool)
            (compressionPolicy : string) (data : list byte)
            (events : list Event),
       os_Open "p0" (mkSim 10 (sample_files 2) false 0 true) = (inr file, w1) /\
       getNormalizedSnapshotReadCloser file (sample_snapshot "p0" 11)
       = (rc', wasCompressed, compressionPolicy, None) /\
       rcBytes rc' = data ++ sha256_Sum data /\
       json_Unmarshal data = inr events /\
       Forall (fun o => isCommit o -> commitsFrom [] events o) tr).
Proof.
  exact (applySnaps_body_commits_verified (G := sample_lib) (E := sample_env)
           (sample_remaining 2) ["localhost:2379"] sample_quota
           0 (sample_snapshot "p0" 11) "p0" (mkApplier [] 0 0 false)
           (sim_at 10 (sample_files 2)) _ _ (surjective_pairing _)).
Defined.

Lemma cleanup_visits_every_path_witness :
  omap statted
    [CallStat "p0" None; CallRemove "p0" None;
     CallStat "zz" (Some (ErrExternal "no such file"));
     CallStat "p1" None; CallRemove "p1" None]
  = ["p0"; "zz"; "p1"] /\
  omap cleanupRemoved
    [CallStat "p0" None; CallRemove "p0" None;
     CallStat "zz" (Some (ErrExternal "no such file"));
     CallStat "p1" None; CallRemove "p1" None]
  = omap foundByStat
      [CallStat "p0" None; CallRemove "p0" None;
       CallStat "zz" (Some (ErrExternal "no such file"));
       CallStat "p1" None; CallRemove "p1" None] /\
  @None string
  = ErrorArrayToError (cleanupError_Error (C := sample_cleanup_lib))
      sample_trim
      (omap cleanupErrorOf
         [CallStat "p0" None; CallRemove "p0" None;
          CallStat "zz" (Some (ErrExternal "no such file"));
          CallStat "p1" None; CallRemove "p1" None]) /\
  (@None string = None <->
   omap cleanupErrorOf
     [CallStat "p0" None; CallRemove "p0" None;
      CallStat "zz" (Some (ErrExternal "no such file"));
      CallStat "p1" None; CallRemove "p1" None] = []).
Proof.
  apply (cleanup_visits_every_path (E := sample_env) (C := sample_cleanup_lib)
           ["p0"; "zz"; "p1"] (mkSim 10 (sample_files 2) false 0 true)
           (mkSim 10 (sample_files 2) false 0 true)).
  vm_compute. reflexivity.
Defined.

Lemma dbSizeCrossesThreshold_exact_witness :
  dbSizeCrossesThreshold (mkStatusResponse 6871947674 0) sample_quota = true.
Proof.
  unfold sample_quota.
  rewrite (dbSizeCrossesThreshold_exact (mkStatusResponse 6871947674 0) 8589934592)
    by (cbn; lia).
  reflexivity.
Defined.

End MoreExamples.

Section MemoryExamples.

Import Memory.

Lemma RestorationConfig_DeepCopy_independent_witness :
  exists h' : Heap,
    RestorationConfig_DeepCopy (Some 1%nat) sample_heap = Some (Some 7%nat, h') /\
    configAt h' 7%nat = configAt sample_heap 1%nat /\
    agreeBelow 7 sample_heap h' /\
    (exists arr : ptr,
       (7 <= arr)%nat /\ peerURLsAt h' 7%nat = Some (mkSlice arr 0 2)) /\
    forall h'' : Heap,
      agreeBelow 7 sample_heap h'' -> configAt h'' 1%nat = configAt sample_heap 1%nat.
Proof.
  exact (RestorationConfig_DeepCopy_independent sample_heap 1%nat _ eq_refl).
Defined.

Lemma DeepCopyURL_shares_user_witness :
  exists h' : Heap,
    DeepCopyURL 3%nat sample_heap = Some (7%nat, h') /\
    h' !! 7%nat = Some (URLCell (sample_url "a:2380" (Some 2%nat))) /\
    (forall (user : ptr) (info : Userinfo),
        Some 2%nat = Some user -> sample_heap !! user = Some (UserinfoCell info) ->
        h' !! user = Some (UserinfoCell info)) /\
    agreeBelow 7 sample_heap h'.
Proof.
  exact (DeepCopyURL_shares_user sample_heap 3%nat
           (sample_url "a:2380" (Some 2%nat)) eq_refl).
Defined.

Lemma DeepCopyURLs_new_array_witness :
  exists h' : Heap,
    DeepCopyURLs (Some (mkSlice 4%nat 0 2)) sample_heap
    = Some (Some (mkSlice 7%nat 0 2), h') /\
    urlsAt h' (Some (mkSlice 7%nat 0 2))
    = Some [sample_url "a:2380" (Some 2%nat); sample_url "b:2380" None] /\
    agreeBelow 7 sample_heap h'.
Proof.
  exact (DeepCopyURLs_new_array sample_heap (Some (mkSlice 4%nat 0 2)) _ eq_refl).
Defined.

Lemma DeepCopySnapList_new_snapshots_witness :
  exists (h' : Heap) (outs : list (option ptr)),
    DeepCopySnapList (Some (mkSlice 6%nat 0 3)) sample_heap
    = Some (Some (mkSlice 7%nat 0 3), h') /\
    snapshotPtrsAt h' (Some (mkSlice 7%nat 0 3)) = Some outs /\
    length outs = 3%nat /\
    (forall j : nat,
        [Some 5%nat; None; Some 5%nat] !! j = Some None -> outs !! j = Some None) /\
    (forall (j : nat) (p : ptr),
        [Some 5%nat; None; Some 5%nat] !! j = Some (Some p) ->
        exists q : ptr,
          outs !! j = Some (Some q) /\ (7 < q)%nat /\
          snapshotAt h' q = snapshotAt sample_heap p) /\
    (forall (j1 j2 : nat) (q1 q2 : ptr),
        (j1 < j2)%nat -> outs !! j1 = Some (Some q1) ->
        outs !! j2 = Some (Some q2) -> q1 <> q2) /\
    agreeBelow 7 sample_heap h'.
Proof.
  apply (DeepCopySnapList_new_snapshots sample_heap (Some (mkSlice 6%nat 0 3))
           [Some 5%nat; None; Some 5%nat] eq_refl).
  intros p Hp.
  assert (Hp5 : p = 5%nat).
  { apply elem_of_cons in Hp as [[= ->] | Hp]; [reflexivity|].
    apply elem_of_cons in Hp as [Hp | Hp]; [discriminate|].
    apply elem_of_cons in Hp as [[= ->] | Hp]; [reflexivity|].
    apply elem_of_nil in Hp. destruct Hp. }
  rewrite Hp5. discriminate.
Defined.

End MemoryExamples.
